(** * EyeTracking: filtering, signal selection, transmission and scheduling

    A shallow embedding of the signal path of the EyeTracking application
    (TypeScript) and the properties of it that its specification states.

    Numbers.  A JavaScript [number] is modelled by an exact rational [Q]:
    comparisons, sums, products and quotients are the exact ones, and two
    numbers are the same number when they are [==].  Rounding and the
    sign of zero are outside the model.  Infinities and NaN are modelled
    where the source can produce them from numbers the application can
    hold: [Number.POSITIVE_INFINITY] as the effective measurement noise of
    the Kalman filter, by a constructor of its own, and the infinite
    offset fraction and the [undefined] neutral value of [OscSenderUtils],
    by the type [OscSenderUtils.Float].  Where the source guards a
    division the guard is kept.  One quotient is left with a divisor that
    can be 0 in [Q]: the Kalman gain, whose divisor is the predicted
    error covariance plus the effective measurement noise; that sum is 0
    only with a negative covariance or noise, and statements that give
    the gain as a quotient assume the divisor not to be 0 or the filter
    to be well-formed. *)

From Stdlib Require Import QArith Qminmax Qabs Lqa ZArith Bool List Ascii String.
From Stdlib.Strings Require Import Byte.
From stdpp Require Import gmap strings.
Import ListNotations.

Local Open Scope Q_scope.

(** ** JavaScript comparisons on numbers *)

Module Num.

(** [x < y] *)
Definition ltb (x y : Q) : bool := negb (Qle_bool y x).
(** [x <= y] *)
Definition leb (x y : Q) : bool := Qle_bool x y.
(** [x === y] *)
Definition eqb (x y : Q) : bool := Qeq_bool x y.
(** [x !== y] *)
Definition neqb (x y : Q) : bool := negb (Qeq_bool x y).
(** [x > y] *)
Definition gtb (x y : Q) : bool := ltb y x.
(** [x >= y] *)
Definition geb (x y : Q) : bool := leb y x.
(** truthiness of a number: every number but zero *)
Definition truthy (x : Q) : bool := negb (Qeq_bool x 0).

End Num.

(** ** The part of the configuration slice that the signal path reads
    ([ConfigState], src/slices/configSlice.ts) *)

Record ConfigState := {
  leftEye : string;
  rightEye : string;
  vrcOsc : string;
  vrcNative : bool;
  trackingRate : Q;
  modelFile : string;
  leftEyeForcedOffline : bool;
  rightEyeForcedOffline : bool;
  trackingForcedOffline : bool;
  measurementNoise : Q;
  kalmanQLow : Q;
  kalmanQHigh : Q;
  kalmanThreshold : Q;
  kalmanThresholdOpenness : Q;
  vrcftV1 : bool;
  vrcftV2 : bool;
  pitchOffset : Q;
  independentEyes : bool;
  independentOpenness : bool;
  activeEyeTracking : bool;
  activeOpennessTracking : bool;
  opennessSliderHandles : Q * Q * Q * Q;
  verticalExaggeration : Q;
  horizontalExaggeration : Q;
  oscPrefix : string;
  splitOutputY : bool;
  syncedEyeUpdates : bool;
  blinkReleaseDelayMs : Q;
  eyelidBasedGazeTrust : bool;
  vrcNativeNeutralValue : option Q
}.

(** [initialState] of the slice.  [vrcNativeNeutralValue] is read by the
    transmission service, but the slice declares no such field, gives it
    no initial value and has no action that sets it: the service reads
    [undefined], here [None]. *)
Definition initialState : ConfigState :=
  {| leftEye := "";
     rightEye := "";
     vrcOsc := "127.0.0.1:9000";
     vrcNative := false;
     trackingRate := 25;
     modelFile := "";
     leftEyeForcedOffline := false;
     rightEyeForcedOffline := false;
     trackingForcedOffline := false;
     measurementNoise := 4;
     kalmanQLow := 3 # 100;
     kalmanQHigh := 50;
     kalmanThreshold := 2;
     kalmanThresholdOpenness := 3 # 100;
     vrcftV1 := false;
     vrcftV2 := false;
     pitchOffset := 0;
     independentEyes := false;
     independentOpenness := false;
     activeEyeTracking := true;
     activeOpennessTracking := false;
     opennessSliderHandles := (15 # 100, 65 # 100, 95 # 100, 1);
     verticalExaggeration := 1;
     horizontalExaggeration := 1;
     oscPrefix := "ft/f/";
     splitOutputY := false;
     syncedEyeUpdates := false;
     blinkReleaseDelayMs := 25;
     eyelidBasedGazeTrust := true;
     vrcNativeNeutralValue := None |}.

(** The initial configuration with the settings of the transmission card
    changed: the three mode switches, the two independence switches and the
    openness switch. *)
Definition transmissionConfig (native v1 v2 indEyes indOpenness opennessOn : bool)
  : ConfigState :=
  {| leftEye := leftEye initialState;
     rightEye := rightEye initialState;
     vrcOsc := vrcOsc initialState;
     vrcNative := native;
     trackingRate := trackingRate initialState;
     modelFile := modelFile initialState;
     leftEyeForcedOffline := leftEyeForcedOffline initialState;
     rightEyeForcedOffline := rightEyeForcedOffline initialState;
     trackingForcedOffline := trackingForcedOffline initialState;
     measurementNoise := measurementNoise initialState;
     kalmanQLow := kalmanQLow initialState;
     kalmanQHigh := kalmanQHigh initialState;
     kalmanThreshold := kalmanThreshold initialState;
     kalmanThresholdOpenness := kalmanThresholdOpenness initialState;
     vrcftV1 := v1;
     vrcftV2 := v2;
     pitchOffset := pitchOffset initialState;
     independentEyes := indEyes;
     independentOpenness := indOpenness;
     activeEyeTracking := activeEyeTracking initialState;
     activeOpennessTracking := opennessOn;
     opennessSliderHandles := opennessSliderHandles initialState;
     verticalExaggeration := verticalExaggeration initialState;
     horizontalExaggeration := horizontalExaggeration initialState;
     oscPrefix := oscPrefix initialState;
     splitOutputY := splitOutputY initialState;
     syncedEyeUpdates := syncedEyeUpdates initialState;
     blinkReleaseDelayMs := blinkReleaseDelayMs initialState;
     eyelidBasedGazeTrust := eyelidBasedGazeTrust initialState;
     vrcNativeNeutralValue := vrcNativeNeutralValue initialState |}.

(** The initial configuration with other Kalman parameters. *)
Definition kalmanConfig (noise qLow qHigh threshold thresholdOpenness : Q)
  : ConfigState :=
  {| leftEye := leftEye initialState;
     rightEye := rightEye initialState;
     vrcOsc := vrcOsc initialState;
     vrcNative := vrcNative initialState;
     trackingRate := trackingRate initialState;
     modelFile := modelFile initialState;
     leftEyeForcedOffline := leftEyeForcedOffline initialState;
     rightEyeForcedOffline := rightEyeForcedOffline initialState;
     trackingForcedOffline := trackingForcedOffline initialState;
     measurementNoise := noise;
     kalmanQLow := qLow;
     kalmanQHigh := qHigh;
     kalmanThreshold := threshold;
     kalmanThresholdOpenness := thresholdOpenness;
     vrcftV1 := vrcftV1 initialState;
     vrcftV2 := vrcftV2 initialState;
     pitchOffset := pitchOffset initialState;
     independentEyes := independentEyes initialState;
     independentOpenness := independentOpenness initialState;
     activeEyeTracking := activeEyeTracking initialState;
     activeOpennessTracking := activeOpennessTracking initialState;
     opennessSliderHandles := opennessSliderHandles initialState;
     verticalExaggeration := verticalExaggeration initialState;
     horizontalExaggeration := horizontalExaggeration initialState;
     oscPrefix := oscPrefix initialState;
     splitOutputY := splitOutputY initialState;
     syncedEyeUpdates := syncedEyeUpdates initialState;
     blinkReleaseDelayMs := blinkReleaseDelayMs initialState;
     eyelidBasedGazeTrust := eyelidBasedGazeTrust initialState;
     vrcNativeNeutralValue := vrcNativeNeutralValue initialState |}.

(** The initial configuration with camera endpoints and forced-offline
    flags. *)
Definition cameraConfig (left right : string) (leftForced rightForced : bool)
  : ConfigState :=
  {| leftEye := left;
     rightEye := right;
     vrcOsc := vrcOsc initialState;
     vrcNative := vrcNative initialState;
     trackingRate := trackingRate initialState;
     modelFile := modelFile initialState;
     leftEyeForcedOffline := leftForced;
     rightEyeForcedOffline := rightForced;
     trackingForcedOffline := trackingForcedOffline initialState;
     measurementNoise := measurementNoise initialState;
     kalmanQLow := kalmanQLow initialState;
     kalmanQHigh := kalmanQHigh initialState;
     kalmanThreshold := kalmanThreshold initialState;
     kalmanThresholdOpenness := kalmanThresholdOpenness initialState;
     vrcftV1 := vrcftV1 initialState;
     vrcftV2 := vrcftV2 initialState;
     pitchOffset := pitchOffset initialState;
     independentEyes := independentEyes initialState;
     independentOpenness := independentOpenness initialState;
     activeEyeTracking := activeEyeTracking initialState;
     activeOpennessTracking := activeOpennessTracking initialState;
     opennessSliderHandles := opennessSliderHandles initialState;
     verticalExaggeration := verticalExaggeration initialState;
     horizontalExaggeration := horizontalExaggeration initialState;
     oscPrefix := oscPrefix initialState;
     splitOutputY := splitOutputY initialState;
     syncedEyeUpdates := syncedEyeUpdates initialState;
     blinkReleaseDelayMs := blinkReleaseDelayMs initialState;
     eyelidBasedGazeTrust := eyelidBasedGazeTrust initialState;
     vrcNativeNeutralValue := vrcNativeNeutralValue initialState |}.

(** ** src/utilities/AdaptiveKalmanFilter.ts *)

Module AdaptiveKalmanFilter.

(** The effective measurement noise is a number or
    [Number.POSITIVE_INFINITY]. *)
Inductive noise :=
| Finite (r : Q)
| Infinite.

Record t := {
  stateEstimate : Q;
  errorCovariance : Q;
  measurementNoiseVariance : Q;
  processNoiseSmall : Q;
  processNoiseLarge : Q;
  changeThreshold : Q
}.

(** [private maxInterpolationFactor: number = 20], never assigned again. *)
Definition maxInterpolationFactor : Q := 20.

(** [constructor] *)
Definition new (initialState initialErrorCovariance measurementNoise
                processNoiseSmall processNoiseLarge changeThreshold : Q) : t :=
  {| stateEstimate := initialState;
     errorCovariance := initialErrorCovariance;
     measurementNoiseVariance := measurementNoise;
     processNoiseSmall := processNoiseSmall;
     processNoiseLarge := processNoiseLarge;
     changeThreshold := changeThreshold |}.

(** [Math.max(0, Math.min(trust, 1))] *)
Definition clampedTrust (trust : Q) : Q := Qmax 0 (Qmin trust 1).

(** The three-way branch of [update] that chooses the effective
    measurement noise. *)
Definition effectiveMeasurementNoise (f : t) (trust : Q) : noise :=
  let clampedTrust := clampedTrust trust in
  if Num.eqb clampedTrust 0 then Infinite
  else if Num.ltb clampedTrust (3 # 4) then
    let factor :=
      maxInterpolationFactor
      - ((maxInterpolationFactor - 1) / (3 # 4)) * clampedTrust in
    Finite (measurementNoiseVariance f * factor)
  else Finite (measurementNoiseVariance f).

(** [p + n] for a number [p]: a number plus [Infinity] is [Infinity]. *)
Definition plus (p : Q) (n : noise) : noise :=
  match n with
  | Finite r => Finite (p + r)
  | Infinite => Infinite
  end.

(** [p / d] for a number [p]: a number over [Infinity] is 0. *)
Definition over (p : Q) (d : noise) : Q :=
  match d with
  | Finite r => p / r
  | Infinite => 0
  end.

(** [predictedErrorCovariance /
     (predictedErrorCovariance + effectiveMeasurementNoise)] *)
Definition gain (p : Q) (n : noise) : Q := over p (plus p n).

(** [update(measurement, trust)]: the filter after the call and the value
    returned. *)
Definition update (f : t) (measurement trust : Q) : t * Q :=
  let effectiveMeasurementNoise := effectiveMeasurementNoise f trust in
  let measurementDifference := Qabs (measurement - stateEstimate f) in
  let processNoise :=
    if Num.gtb measurementDifference (changeThreshold f)
    then processNoiseLarge f else processNoiseSmall f in
  let predictedState := stateEstimate f in
  let predictedErrorCovariance := errorCovariance f + processNoise in
  let kalmanGain := gain predictedErrorCovariance effectiveMeasurementNoise in
  let stateEstimate' :=
    predictedState + kalmanGain * (measurement - predictedState) in
  let errorCovariance' := (1 - kalmanGain) * predictedErrorCovariance in
  ({| stateEstimate := stateEstimate';
      errorCovariance := errorCovariance';
      measurementNoiseVariance := measurementNoiseVariance f;
      processNoiseSmall := processNoiseSmall f;
      processNoiseLarge := processNoiseLarge f;
      changeThreshold := changeThreshold f |},
   stateEstimate').

End AdaptiveKalmanFilter.

(** ** src/utilities/KalmanFilterManager.ts *)

Module KalmanFilterManager.

Module AKF := AdaptiveKalmanFilter.

Record KalmanConfig := {
  kc_measurementNoise : Q;
  kc_kalmanQLow : Q;
  kc_kalmanQHigh : Q;
  kc_kalmanThreshold : Q;
  kc_kalmanThresholdOpenness : Q
}.

Record ModelFilters := {
  filter1 : option AKF.t;
  filter2 : option AKF.t;
  lastKalmanConfig : option KalmanConfig
}.

Record OpennessFilter := {
  filter : option AKF.t;
  o_lastKalmanConfig : option KalmanConfig
}.

Record t := {
  filterMap : gmap string ModelFilters;
  opennessFilterMap : gmap string OpennessFilter
}.

(** [new KalmanFilterManager()] *)
Definition new : t := {| filterMap := ∅; opennessFilterMap := ∅ |}.

(** The snapshot both methods store at a (re)initialization. *)
Definition snapshot (config : ConfigState) : KalmanConfig :=
  {| kc_measurementNoise := measurementNoise config;
     kc_kalmanQLow := kalmanQLow config;
     kc_kalmanQHigh := kalmanQHigh config;
     kc_kalmanThreshold := kalmanThreshold config;
     kc_kalmanThresholdOpenness := kalmanThresholdOpenness config |}.

(** [configChanged] of [filterTwoAngles]. *)
Definition anglesConfigChanged (config : ConfigState)
           (lastKalmanConfig : option KalmanConfig) : bool :=
  match lastKalmanConfig with
  | None => true
  | Some last =>
      Num.neqb (measurementNoise config) (kc_measurementNoise last)
      || Num.neqb (kalmanQLow config) (kc_kalmanQLow last)
      || Num.neqb (kalmanQHigh config) (kc_kalmanQHigh last)
      || Num.neqb (kalmanThreshold config) (kc_kalmanThreshold last)
  end.

(** [configChanged] of [filterOpenness]. *)
Definition opennessConfigChanged (config : ConfigState)
           (lastKalmanConfig : option KalmanConfig) : bool :=
  match lastKalmanConfig with
  | None => true
  | Some last =>
      Num.neqb (measurementNoise config) (kc_measurementNoise last)
      || Num.neqb (kalmanQLow config) (kc_kalmanQLow last)
      || Num.neqb (kalmanQHigh config) (kc_kalmanQHigh last)
      || Num.neqb (kalmanThreshold config) (kc_kalmanThreshold last)
      || Num.neqb (kalmanThresholdOpenness config)
                  (kc_kalmanThresholdOpenness last)
  end.

(** The entry of [modelId] after the first [if] of [filterTwoAngles]. *)
Definition anglesEntry (m : t) (modelId : string) : ModelFilters :=
  match filterMap m !! modelId with
  | Some e => e
  | None => {| filter1 := None; filter2 := None; lastKalmanConfig := None |}
  end.

(** Whether this call of [filterTwoAngles] builds new filters. *)
Definition anglesReinitialize (m : t) (modelId : string)
           (config : ConfigState) : bool :=
  let e := anglesEntry m modelId in
  let configChanged := anglesConfigChanged config (lastKalmanConfig e) in
  let filtersUninitialized :=
    negb (bool_decide (is_Some (filter1 e)))
    || negb (bool_decide (is_Some (filter2 e))) in
  filtersUninitialized || configChanged.

(** The filter [filterTwoAngles] builds for one angle. *)
Definition newAngleFilter (config : ConfigState) (angle : Q) : AKF.t :=
  AKF.new angle 1 (measurementNoise config) (kalmanQLow config)
          (kalmanQHigh config) (kalmanThreshold config).

(** The filter [filterOpenness] builds; it takes the openness threshold. *)
Definition newOpennessFilter (config : ConfigState) (openness : Q) : AKF.t :=
  AKF.new openness 1 (measurementNoise config) (kalmanQLow config)
          (kalmanQHigh config) (kalmanThresholdOpenness config).

(** The last lines of [filterTwoAngles]: both filters of the entry are
    updated with the raw measurements and the pair of estimates is
    returned. *)
Definition updateAngles (m : t) (modelId : string)
           (updatedFilter1 updatedFilter2 : AKF.t)
           (last : option KalmanConfig) (angle1 angle2 trustworthiness : Q)
  : t * (Q * Q) :=
  let '(f1, r1) := AKF.update updatedFilter1 angle1 trustworthiness in
  let '(f2, r2) := AKF.update updatedFilter2 angle2 trustworthiness in
  ({| filterMap :=
        <[modelId := {| filter1 := Some f1; filter2 := Some f2;
                        lastKalmanConfig := last |}]>
          (filterMap m);
      opennessFilterMap := opennessFilterMap m |},
   (r1, r2)).

(** [filterTwoAngles(modelId, angle1, angle2, config, trustworthiness)]:
    the manager after the call and the pair returned; [None] stands for
    the exception of calling [update] on a [null] filter. *)
Definition filterTwoAngles (m : t) (modelId : string) (angle1 angle2 : Q)
           (config : ConfigState) (trustworthiness : Q)
  : option (t * (Q * Q)) :=
  let e := anglesEntry m modelId in
  let e' :=
    if anglesReinitialize m modelId config then
      {| filter1 := Some (newAngleFilter config angle1);
         filter2 := Some (newAngleFilter config angle2);
         lastKalmanConfig := Some (snapshot config) |}
    else e in
  match filter1 e', filter2 e' with
  | Some updatedFilter1, Some updatedFilter2 =>
      Some (updateAngles m modelId updatedFilter1 updatedFilter2
                         (lastKalmanConfig e') angle1 angle2 trustworthiness)
  | _, _ => None
  end.

(** The entry of [modelId] after the first [if] of [filterOpenness]. *)
Definition opennessEntry (m : t) (modelId : string) : OpennessFilter :=
  match opennessFilterMap m !! modelId with
  | Some e => e
  | None => {| filter := None; o_lastKalmanConfig := None |}
  end.

(** Whether this call of [filterOpenness] builds a new filter. *)
Definition opennessReinitialize (m : t) (modelId : string)
           (config : ConfigState) : bool :=
  let e := opennessEntry m modelId in
  let configChanged := opennessConfigChanged config (o_lastKalmanConfig e) in
  negb (bool_decide (is_Some (filter e))) || configChanged.

(** The last lines of [filterOpenness]: the filter of the entry is updated
    with the raw measurement, at trust 1, and the estimate is returned. *)
Definition updateOpenness (m : t) (modelId : string)
           (updatedOpennessFilter : AKF.t) (last : option KalmanConfig)
           (openness : Q) : t * Q :=
  let '(f, r) := AKF.update updatedOpennessFilter openness 1 in
  ({| filterMap := filterMap m;
      opennessFilterMap :=
        <[modelId := {| filter := Some f; o_lastKalmanConfig := last |}]>
          (opennessFilterMap m) |},
   r).

(** [filterOpenness(modelId, openness, config)]. *)
Definition filterOpenness (m : t) (modelId : string) (openness : Q)
           (config : ConfigState) : option (t * Q) :=
  let e := opennessEntry m modelId in
  let e' :=
    if opennessReinitialize m modelId config then
      {| filter := Some (newOpennessFilter config openness);
         o_lastKalmanConfig := Some (snapshot config) |}
    else e in
  match filter e' with
  | Some updatedOpennessFilter =>
      Some (updateOpenness m modelId updatedOpennessFilter
                           (o_lastKalmanConfig e') openness)
  | None => None
  end.

End KalmanFilterManager.

(** ** The part of the status slice that the signal path reads
    (src/slices/statusSlice.ts) *)

Inductive ConnectionStatus := online | offline | warning.

Definition isOnline (s : ConnectionStatus) : bool :=
  match s with online => true | _ => false end.

Record CameraFrame := {
  frame : string;
  timestamp : option Q;
  status : ConnectionStatus
}.

Record TrackingData := {
  theta1 : Q;
  theta2 : Q;
  openness : Q;
  rightTheta1 : Q;
  rightTheta2 : Q;
  rightOpenness : Q;
  leftTheta1 : Q;
  leftTheta2 : Q;
  leftOpenness : Q
}.

(** What [store.getState()] gives: the configuration, the two camera frames
    and the tracking data. *)
Record RootState := {
  config : ConfigState;
  imageLeftEye : CameraFrame;
  imageRightEye : CameraFrame;
  tracking : TrackingData
}.

(** The store state with other tracking data. *)
Definition withTracking (state : RootState) (t : TrackingData) : RootState :=
  {| config := config state;
     imageLeftEye := imageLeftEye state;
     imageRightEye := imageRightEye state;
     tracking := t |}.

(** Tracking data with the three openness values at their initial 0.75. *)
Definition thetas (t1 t2 l1 l2 r1 r2 : Q) : TrackingData :=
  {| theta1 := t1; theta2 := t2; openness := 3 # 4;
     rightTheta1 := r1; rightTheta2 := r2; rightOpenness := 3 # 4;
     leftTheta1 := l1; leftTheta2 := l2; leftOpenness := 3 # 4 |}.

(** Tracking data with all angles zero. *)
Definition opennesses (o l r : Q) : TrackingData :=
  {| theta1 := 0; theta2 := 0; openness := o;
     rightTheta1 := 0; rightTheta2 := 0; rightOpenness := r;
     leftTheta1 := 0; leftTheta2 := 0; leftOpenness := l |}.

(** A store state with both cameras online. *)
Definition bothOnline (c : ConfigState) (t : TrackingData) : RootState :=
  {| config := c;
     imageLeftEye := {| frame := "data:image/jpeg;base64,AA";
                        timestamp := Some 1000; status := online |};
     imageRightEye := {| frame := "data:image/jpeg;base64,AA";
                         timestamp := Some 1000; status := online |};
     tracking := t |}.

Record CombinedThetas := { c_theta1 : Q; c_theta2 : Q }.

Record IndThetas := {
  i_leftTheta1 : Q;
  i_leftTheta2 : Q;
  i_rightTheta1 : Q;
  i_rightTheta2 : Q
}.

Record IndOpenness := { o_leftOpenness : Q; o_rightOpenness : Q }.

(** ** src/utilities/equalityUtils.ts *)

Module EqualityUtils.

Definition EPSILON : Q := 1 # 1000.

Definition isEqualCombinedThetas (a b : CombinedThetas) : bool :=
  Num.ltb (Qabs (c_theta1 a - c_theta1 b)) EPSILON
  && Num.ltb (Qabs (c_theta2 a - c_theta2 b)) EPSILON.

Definition isEqualIndThetas (a b : IndThetas) : bool :=
  Num.ltb (Qabs (i_leftTheta1 a - i_leftTheta1 b)) EPSILON
  && Num.ltb (Qabs (i_leftTheta2 a - i_leftTheta2 b)) EPSILON
  && Num.ltb (Qabs (i_rightTheta1 a - i_rightTheta1 b)) EPSILON
  && Num.ltb (Qabs (i_rightTheta2 a - i_rightTheta2 b)) EPSILON.

Definition isEqualOpenness (a b : IndOpenness) : bool :=
  Num.ltb (Qabs (o_leftOpenness a - o_leftOpenness b)) EPSILON
  && Num.ltb (Qabs (o_rightOpenness a - o_rightOpenness b)) EPSILON.

End EqualityUtils.

(** ** src/utilities/eyeSelectionUtils.ts *)

Module EyeSelectionUtils.

Definition chooseIndependentEyeThetas (state : RootState) : IndThetas :=
  let leftOnline := isOnline (status (imageLeftEye state)) in
  let rightOnline := isOnline (status (imageRightEye state)) in
  let tracking := tracking state in
  if leftOnline && rightOnline then
    if Num.ltb (leftTheta2 tracking - rightTheta2 tracking) 0 then
      {| i_leftTheta1 := theta1 tracking;
         i_leftTheta2 := theta2 tracking;
         i_rightTheta1 := theta1 tracking;
         i_rightTheta2 := theta2 tracking |}
    else
      {| i_leftTheta1 := theta1 tracking;
         i_leftTheta2 := leftTheta2 tracking;
         i_rightTheta1 := theta1 tracking;
         i_rightTheta2 := rightTheta2 tracking |}
  else if leftOnline then
    {| i_leftTheta1 := leftTheta1 tracking;
       i_leftTheta2 := leftTheta2 tracking;
       i_rightTheta1 := leftTheta1 tracking;
       i_rightTheta2 := leftTheta2 tracking |}
  else if rightOnline then
    {| i_leftTheta1 := rightTheta1 tracking;
       i_leftTheta2 := rightTheta2 tracking;
       i_rightTheta1 := rightTheta1 tracking;
       i_rightTheta2 := rightTheta2 tracking |}
  else
    {| i_leftTheta1 := 0; i_leftTheta2 := 0;
       i_rightTheta1 := 0; i_rightTheta2 := 0 |}.

Definition chooseIndependentEyeOpenness (state : RootState) : IndOpenness :=
  let leftOnline := isOnline (status (imageLeftEye state)) in
  let rightOnline := isOnline (status (imageRightEye state)) in
  let tracking := tracking state in
  if leftOnline && rightOnline then
    {| o_leftOpenness := leftOpenness tracking;
       o_rightOpenness := rightOpenness tracking |}
  else if leftOnline then
    {| o_leftOpenness := leftOpenness tracking;
       o_rightOpenness := leftOpenness tracking |}
  else if rightOnline then
    {| o_leftOpenness := rightOpenness tracking;
       o_rightOpenness := rightOpenness tracking |}
  else {| o_leftOpenness := 0; o_rightOpenness := 0 |}.

Definition chooseCombinedEyeThetas (state : RootState) : CombinedThetas :=
  let leftOnline := isOnline (status (imageLeftEye state)) in
  let rightOnline := isOnline (status (imageRightEye state)) in
  let tracking := tracking state in
  if leftOnline && rightOnline then
    {| c_theta1 := theta1 tracking; c_theta2 := theta2 tracking |}
  else if leftOnline then
    {| c_theta1 := leftTheta1 tracking; c_theta2 := leftTheta2 tracking |}
  else if rightOnline then
    {| c_theta1 := rightTheta1 tracking; c_theta2 := rightTheta2 tracking |}
  else {| c_theta1 := 0; c_theta2 := 0 |}.

Definition chooseCombinedEyeOpenness (state : RootState) : Q :=
  let leftOnline := isOnline (status (imageLeftEye state)) in
  let rightOnline := isOnline (status (imageRightEye state)) in
  let tracking := tracking state in
  if leftOnline && rightOnline then openness tracking
  else if leftOnline then leftOpenness tracking
  else if rightOnline then rightOpenness tracking
  else 0.

End EyeSelectionUtils.

(** ** src/utilities/NormalizationUtils.ts *)

Module NormalizationUtils.

(** The four static properties of the class. *)
Record t := {
  maxPosTheta1 : Q;
  maxNegTheta1 : Q;
  maxPosTheta2 : Q;
  maxNegTheta2 : Q
}.

(** The values the static properties are declared with. *)
Definition initial : t :=
  {| maxPosTheta1 := 0; maxNegTheta1 := 0;
     maxPosTheta2 := 0; maxNegTheta2 := 0 |}.

(** [normalizeTheta1(deg)]: the properties after the call and the value
    returned. *)
Definition normalizeTheta1 (s : t) (deg : Q) : t * Q :=
  if Num.geb deg 0 then
    let maxPos := if Num.gtb deg (maxPosTheta1 s) then deg else maxPosTheta1 s in
    ({| maxPosTheta1 := maxPos; maxNegTheta1 := maxNegTheta1 s;
        maxPosTheta2 := maxPosTheta2 s; maxNegTheta2 := maxNegTheta2 s |},
     if Num.eqb maxPos 0 then 0 else deg / maxPos)
  else
    let maxNeg := if Num.ltb deg (maxNegTheta1 s) then deg else maxNegTheta1 s in
    ({| maxPosTheta1 := maxPosTheta1 s; maxNegTheta1 := maxNeg;
        maxPosTheta2 := maxPosTheta2 s; maxNegTheta2 := maxNegTheta2 s |},
     if Num.eqb maxNeg 0 then 0 else deg / Qabs maxNeg).

(** [normalizeTheta2(deg)]. *)
Definition normalizeTheta2 (s : t) (deg : Q) : t * Q :=
  if Num.geb deg 0 then
    let maxPos := if Num.gtb deg (maxPosTheta2 s) then deg else maxPosTheta2 s in
    ({| maxPosTheta1 := maxPosTheta1 s; maxNegTheta1 := maxNegTheta1 s;
        maxPosTheta2 := maxPos; maxNegTheta2 := maxNegTheta2 s |},
     if Num.eqb maxPos 0 then 0 else deg / maxPos)
  else
    let maxNeg := if Num.ltb deg (maxNegTheta2 s) then deg else maxNegTheta2 s in
    ({| maxPosTheta1 := maxPosTheta1 s; maxNegTheta1 := maxNegTheta1 s;
        maxPosTheta2 := maxPosTheta2 s; maxNegTheta2 := maxNeg |},
     if Num.eqb maxNeg 0 then 0 else deg / Qabs maxNeg).

(** [resetNormalization()]. *)
Definition resetNormalization (s : t) : t :=
  {| maxPosTheta1 := 0; maxNegTheta1 := 0;
     maxPosTheta2 := 0; maxNegTheta2 := 0 |}.

(** The maxima that calls of the three methods can produce from the
    declared values. *)
Inductive reachable : t -> Prop :=
| reach_initial : reachable initial
| reach_theta1 s deg : reachable s -> reachable (fst (normalizeTheta1 s deg))
| reach_theta2 s deg : reachable s -> reachable (fst (normalizeTheta2 s deg))
| reach_reset s : reachable s -> reachable (resetNormalization s).

(** The positive maxima are never negative and the negative maxima never
    positive. *)
Definition signed (s : t) : Prop :=
  0 <= maxPosTheta1 s /\ maxNegTheta1 s <= 0
  /\ 0 <= maxPosTheta2 s /\ maxNegTheta2 s <= 0.

(** What a call does on one axis: [maxPos] and [maxNeg] are the maxima of
    the axis before the call, [maxPos'] and [maxNeg'] after it, [deg] the
    input and [r] the value returned.  The maximum on the side of the sign
    of [deg] grows to [deg] when [deg] lies beyond it, the other maximum
    stays, and the value returned is [deg] over the magnitude of the
    same-sign maximum after the call (0 when that maximum is 0, which
    happens for [deg] = 0 only) and lies in [-1,1]. *)
Definition contract (maxPos maxNeg maxPos' maxNeg' deg r : Q) : Prop :=
  (0 <= deg ->
   (maxPos < deg -> maxPos' = deg)
   /\ (deg <= maxPos -> maxPos' = maxPos)
   /\ maxNeg' = maxNeg
   /\ (~ maxPos' == 0 -> r = deg / maxPos')
   /\ (maxPos' == 0 -> r = 0 /\ deg == 0))
  /\ (deg < 0 ->
      (deg < maxNeg -> maxNeg' = deg)
      /\ (maxNeg <= deg -> maxNeg' = maxNeg)
      /\ maxPos' = maxPos
      /\ maxNeg' < 0
      /\ r = deg / Qabs maxNeg')
  /\ -1 <= r <= 1.

End NormalizationUtils.

(** ** src/services/trackingTransmissionService.ts *)

Module Transmission.

Import EyeSelectionUtils EqualityUtils.

(** The module-level variables of the service. *)
Record Globals := {
  previousNativeCombinedThetas : option CombinedThetas;
  previousNativeIndependentThetas : option IndThetas;
  previousNativeOpenness : option Q;
  previousVrcftV1CombinedThetas : option CombinedThetas;
  previousVrcftV1IndependentThetas : option IndThetas;
  previousVrcftV1OpennessCombined : option Q;
  previousVrcftV1OpennessIndependent : option IndOpenness;
  previousVrcftV2CombinedThetas : option CombinedThetas;
  previousVrcftV2IndependentThetas : option IndThetas;
  previousVrcftV2OpennessCombined : option Q;
  previousVrcftV2OpennessIndependent : option IndOpenness;
  previousOscEndpoint : option string;
  lastClosedTimestampCombined : Q;
  lastClosedTimestampLeft : Q;
  lastClosedTimestampRight : Q
}.

(** The values the variables are declared with ([undefined] and [null]
    are [None]). *)
Definition initial : Globals :=
  {| previousNativeCombinedThetas := None;
     previousNativeIndependentThetas := None;
     previousNativeOpenness := None;
     previousVrcftV1CombinedThetas := None;
     previousVrcftV1IndependentThetas := None;
     previousVrcftV1OpennessCombined := None;
     previousVrcftV1OpennessIndependent := None;
     previousVrcftV2CombinedThetas := None;
     previousVrcftV2IndependentThetas := None;
     previousVrcftV2OpennessCombined := None;
     previousVrcftV2OpennessIndependent := None;
     previousOscEndpoint := None;
     lastClosedTimestampCombined := 0;
     lastClosedTimestampLeft := 0;
     lastClosedTimestampRight := 0 |}.

(** Assignments to one variable. *)
Definition set_previousNativeCombinedThetas (v : option CombinedThetas) (g : Globals) : Globals :=
  {| previousNativeCombinedThetas := v;
     previousNativeIndependentThetas := previousNativeIndependentThetas g;
     previousNativeOpenness := previousNativeOpenness g;
     previousVrcftV1CombinedThetas := previousVrcftV1CombinedThetas g;
     previousVrcftV1IndependentThetas := previousVrcftV1IndependentThetas g;
     previousVrcftV1OpennessCombined := previousVrcftV1OpennessCombined g;
     previousVrcftV1OpennessIndependent := previousVrcftV1OpennessIndependent g;
     previousVrcftV2CombinedThetas := previousVrcftV2CombinedThetas g;
     previousVrcftV2IndependentThetas := previousVrcftV2IndependentThetas g;
     previousVrcftV2OpennessCombined := previousVrcftV2OpennessCombined g;
     previousVrcftV2OpennessIndependent := previousVrcftV2OpennessIndependent g;
     previousOscEndpoint := previousOscEndpoint g;
     lastClosedTimestampCombined := lastClosedTimestampCombined g;
     lastClosedTimestampLeft := lastClosedTimestampLeft g;
     lastClosedTimestampRight := lastClosedTimestampRight g |}.

Definition set_previousNativeIndependentThetas (v : option IndThetas) (g : Globals) : Globals :=
  {| previousNativeCombinedThetas := previousNativeCombinedThetas g;
     previousNativeIndependentThetas := v;
     previousNativeOpenness := previousNativeOpenness g;
     previousVrcftV1CombinedThetas := previousVrcftV1CombinedThetas g;
     previousVrcftV1IndependentThetas := previousVrcftV1IndependentThetas g;
     previousVrcftV1OpennessCombined := previousVrcftV1OpennessCombined g;
     previousVrcftV1OpennessIndependent := previousVrcftV1OpennessIndependent g;
     previousVrcftV2CombinedThetas := previousVrcftV2CombinedThetas g;
     previousVrcftV2IndependentThetas := previousVrcftV2IndependentThetas g;
     previousVrcftV2OpennessCombined := previousVrcftV2OpennessCombined g;
     previousVrcftV2OpennessIndependent := previousVrcftV2OpennessIndependent g;
     previousOscEndpoint := previousOscEndpoint g;
     lastClosedTimestampCombined := lastClosedTimestampCombined g;
     lastClosedTimestampLeft := lastClosedTimestampLeft g;
     lastClosedTimestampRight := lastClosedTimestampRight g |}.

Definition set_previousNativeOpenness (v : option Q) (g : Globals) : Globals :=
  {| previousNativeCombinedThetas := previousNativeCombinedThetas g;
     previousNativeIndependentThetas := previousNativeIndependentThetas g;
     previousNativeOpenness := v;
     previousVrcftV1CombinedThetas := previousVrcftV1CombinedThetas g;
     previousVrcftV1IndependentThetas := previousVrcftV1IndependentThetas g;
     previousVrcftV1OpennessCombined := previousVrcftV1OpennessCombined g;
     previousVrcftV1OpennessIndependent := previousVrcftV1OpennessIndependent g;
     previousVrcftV2CombinedThetas := previousVrcftV2CombinedThetas g;
     previousVrcftV2IndependentThetas := previousVrcftV2IndependentThetas g;
     previousVrcftV2OpennessCombined := previousVrcftV2OpennessCombined g;
     previousVrcftV2OpennessIndependent := previousVrcftV2OpennessIndependent g;
     previousOscEndpoint := previousOscEndpoint g;
     lastClosedTimestampCombined := lastClosedTimestampCombined g;
     lastClosedTimestampLeft := lastClosedTimestampLeft g;
     lastClosedTimestampRight := lastClosedTimestampRight g |}.

Definition set_previousVrcftV1CombinedThetas (v : option CombinedThetas) (g : Globals) : Globals :=
  {| previousNativeCombinedThetas := previousNativeCombinedThetas g;
     previousNativeIndependentThetas := previousNativeIndependentThetas g;
     previousNativeOpenness := previousNativeOpenness g;
     previousVrcftV1CombinedThetas := v;
     previousVrcftV1IndependentThetas := previousVrcftV1IndependentThetas g;
     previousVrcftV1OpennessCombined := previousVrcftV1OpennessCombined g;
     previousVrcftV1OpennessIndependent := previousVrcftV1OpennessIndependent g;
     previousVrcftV2CombinedThetas := previousVrcftV2CombinedThetas g;
     previousVrcftV2IndependentThetas := previousVrcftV2IndependentThetas g;
     previousVrcftV2OpennessCombined := previousVrcftV2OpennessCombined g;
     previousVrcftV2OpennessIndependent := previousVrcftV2OpennessIndependent g;
     previousOscEndpoint := previousOscEndpoint g;
     lastClosedTimestampCombined := lastClosedTimestampCombined g;
     lastClosedTimestampLeft := lastClosedTimestampLeft g;
     lastClosedTimestampRight := lastClosedTimestampRight g |}.

Definition set_previousVrcftV1IndependentThetas (v : option IndThetas) (g : Globals) : Globals :=
  {| previousNativeCombinedThetas := previousNativeCombinedThetas g;
     previousNativeIndependentThetas := previousNativeIndependentThetas g;
     previousNativeOpenness := previousNativeOpenness g;
     previousVrcftV1CombinedThetas := previousVrcftV1CombinedThetas g;
     previousVrcftV1IndependentThetas := v;
     previousVrcftV1OpennessCombined := previousVrcftV1OpennessCombined g;
     previousVrcftV1OpennessIndependent := previousVrcftV1OpennessIndependent g;
     previousVrcftV2CombinedThetas := previousVrcftV2CombinedThetas g;
     previousVrcftV2IndependentThetas := previousVrcftV2IndependentThetas g;
     previousVrcftV2OpennessCombined := previousVrcftV2OpennessCombined g;
     previousVrcftV2OpennessIndependent := previousVrcftV2OpennessIndependent g;
     previousOscEndpoint := previousOscEndpoint g;
     lastClosedTimestampCombined := lastClosedTimestampCombined g;
     lastClosedTimestampLeft := lastClosedTimestampLeft g;
     lastClosedTimestampRight := lastClosedTimestampRight g |}.

Definition set_previousVrcftV1OpennessCombined (v : option Q) (g : Globals) : Globals :=
  {| previousNativeCombinedThetas := previousNativeCombinedThetas g;
     previousNativeIndependentThetas := previousNativeIndependentThetas g;
     previousNativeOpenness := previousNativeOpenness g;
     previousVrcftV1CombinedThetas := previousVrcftV1CombinedThetas g;
     previousVrcftV1IndependentThetas := previousVrcftV1IndependentThetas g;
     previousVrcftV1OpennessCombined := v;
     previousVrcftV1OpennessIndependent := previousVrcftV1OpennessIndependent g;
     previousVrcftV2CombinedThetas := previousVrcftV2CombinedThetas g;
     previousVrcftV2IndependentThetas := previousVrcftV2IndependentThetas g;
     previousVrcftV2OpennessCombined := previousVrcftV2OpennessCombined g;
     previousVrcftV2OpennessIndependent := previousVrcftV2OpennessIndependent g;
     previousOscEndpoint := previousOscEndpoint g;
     lastClosedTimestampCombined := lastClosedTimestampCombined g;
     lastClosedTimestampLeft := lastClosedTimestampLeft g;
     lastClosedTimestampRight := lastClosedTimestampRight g |}.

Definition set_previousVrcftV1OpennessIndependent (v : option IndOpenness) (g : Globals) : Globals :=
  {| previousNativeCombinedThetas := previousNativeCombinedThetas g;
     previousNativeIndependentThetas := previousNativeIndependentThetas g;
     previousNativeOpenness := previousNativeOpenness g;
     previousVrcftV1CombinedThetas := previousVrcftV1CombinedThetas g;
     previousVrcftV1IndependentThetas := previousVrcftV1IndependentThetas g;
     previousVrcftV1OpennessCombined := previousVrcftV1OpennessCombined g;
     previousVrcftV1OpennessIndependent := v;
     previousVrcftV2CombinedThetas := previousVrcftV2CombinedThetas g;
     previousVrcftV2IndependentThetas := previousVrcftV2IndependentThetas g;
     previousVrcftV2OpennessCombined := previousVrcftV2OpennessCombined g;
     previousVrcftV2OpennessIndependent := previousVrcftV2OpennessIndependent g;
     previousOscEndpoint := previousOscEndpoint g;
     lastClosedTimestampCombined := lastClosedTimestampCombined g;
     lastClosedTimestampLeft := lastClosedTimestampLeft g;
     lastClosedTimestampRight := lastClosedTimestampRight g |}.

Definition set_previousVrcftV2CombinedThetas (v : option CombinedThetas) (g : Globals) : Globals :=
  {| previousNativeCombinedThetas := previousNativeCombinedThetas g;
     previousNativeIndependentThetas := previousNativeIndependentThetas g;
     previousNativeOpenness := previousNativeOpenness g;
     previousVrcftV1CombinedThetas := previousVrcftV1CombinedThetas g;
     previousVrcftV1IndependentThetas := previousVrcftV1IndependentThetas g;
     previousVrcftV1OpennessCombined := previousVrcftV1OpennessCombined g;
     previousVrcftV1OpennessIndependent := previousVrcftV1OpennessIndependent g;
     previousVrcftV2CombinedThetas := v;
     previousVrcftV2IndependentThetas := previousVrcftV2IndependentThetas g;
     previousVrcftV2OpennessCombined := previousVrcftV2OpennessCombined g;
     previousVrcftV2OpennessIndependent := previousVrcftV2OpennessIndependent g;
     previousOscEndpoint := previousOscEndpoint g;
     lastClosedTimestampCombined := lastClosedTimestampCombined g;
     lastClosedTimestampLeft := lastClosedTimestampLeft g;
     lastClosedTimestampRight := lastClosedTimestampRight g |}.

Definition set_previousVrcftV2IndependentThetas (v : option IndThetas) (g : Globals) : Globals :=
  {| previousNativeCombinedThetas := previousNativeCombinedThetas g;
     previousNativeIndependentThetas := previousNativeIndependentThetas g;
     previousNativeOpenness := previousNativeOpenness g;
     previousVrcftV1CombinedThetas := previousVrcftV1CombinedThetas g;
     previousVrcftV1IndependentThetas := previousVrcftV1IndependentThetas g;
     previousVrcftV1OpennessCombined := previousVrcftV1OpennessCombined g;
     previousVrcftV1OpennessIndependent := previousVrcftV1OpennessIndependent g;
     previousVrcftV2CombinedThetas := previousVrcftV2CombinedThetas g;
     previousVrcftV2IndependentThetas := v;
     previousVrcftV2OpennessCombined := previousVrcftV2OpennessCombined g;
     previousVrcftV2OpennessIndependent := previousVrcftV2OpennessIndependent g;
     previousOscEndpoint := previousOscEndpoint g;
     lastClosedTimestampCombined := lastClosedTimestampCombined g;
     lastClosedTimestampLeft := lastClosedTimestampLeft g;
     lastClosedTimestampRight := lastClosedTimestampRight g |}.

Definition set_previousVrcftV2OpennessCombined (v : option Q) (g : Globals) : Globals :=
  {| previousNativeCombinedThetas := previousNativeCombinedThetas g;
     previousNativeIndependentThetas := previousNativeIndependentThetas g;
     previousNativeOpenness := previousNativeOpenness g;
     previousVrcftV1CombinedThetas := previousVrcftV1CombinedThetas g;
     previousVrcftV1IndependentThetas := previousVrcftV1IndependentThetas g;
     previousVrcftV1OpennessCombined := previousVrcftV1OpennessCombined g;
     previousVrcftV1OpennessIndependent := previousVrcftV1OpennessIndependent g;
     previousVrcftV2CombinedThetas := previousVrcftV2CombinedThetas g;
     previousVrcftV2IndependentThetas := previousVrcftV2IndependentThetas g;
     previousVrcftV2OpennessCombined := v;
     previousVrcftV2OpennessIndependent := previousVrcftV2OpennessIndependent g;
     previousOscEndpoint := previousOscEndpoint g;
     lastClosedTimestampCombined := lastClosedTimestampCombined g;
     lastClosedTimestampLeft := lastClosedTimestampLeft g;
     lastClosedTimestampRight := lastClosedTimestampRight g |}.

Definition set_previousVrcftV2OpennessIndependent (v : option IndOpenness) (g : Globals) : Globals :=
  {| previousNativeCombinedThetas := previousNativeCombinedThetas g;
     previousNativeIndependentThetas := previousNativeIndependentThetas g;
     previousNativeOpenness := previousNativeOpenness g;
     previousVrcftV1CombinedThetas := previousVrcftV1CombinedThetas g;
     previousVrcftV1IndependentThetas := previousVrcftV1IndependentThetas g;
     previousVrcftV1OpennessCombined := previousVrcftV1OpennessCombined g;
     previousVrcftV1OpennessIndependent := previousVrcftV1OpennessIndependent g;
     previousVrcftV2CombinedThetas := previousVrcftV2CombinedThetas g;
     previousVrcftV2IndependentThetas := previousVrcftV2IndependentThetas g;
     previousVrcftV2OpennessCombined := previousVrcftV2OpennessCombined g;
     previousVrcftV2OpennessIndependent := v;
     previousOscEndpoint := previousOscEndpoint g;
     lastClosedTimestampCombined := lastClosedTimestampCombined g;
     lastClosedTimestampLeft := lastClosedTimestampLeft g;
     lastClosedTimestampRight := lastClosedTimestampRight g |}.

Definition set_previousOscEndpoint (v : option string) (g : Globals) : Globals :=
  {| previousNativeCombinedThetas := previousNativeCombinedThetas g;
     previousNativeIndependentThetas := previousNativeIndependentThetas g;
     previousNativeOpenness := previousNativeOpenness g;
     previousVrcftV1CombinedThetas := previousVrcftV1CombinedThetas g;
     previousVrcftV1IndependentThetas := previousVrcftV1IndependentThetas g;
     previousVrcftV1OpennessCombined := previousVrcftV1OpennessCombined g;
     previousVrcftV1OpennessIndependent := previousVrcftV1OpennessIndependent g;
     previousVrcftV2CombinedThetas := previousVrcftV2CombinedThetas g;
     previousVrcftV2IndependentThetas := previousVrcftV2IndependentThetas g;
     previousVrcftV2OpennessCombined := previousVrcftV2OpennessCombined g;
     previousVrcftV2OpennessIndependent := previousVrcftV2OpennessIndependent g;
     previousOscEndpoint := v;
     lastClosedTimestampCombined := lastClosedTimestampCombined g;
     lastClosedTimestampLeft := lastClosedTimestampLeft g;
     lastClosedTimestampRight := lastClosedTimestampRight g |}.

Definition set_lastClosedTimestampCombined (v : Q) (g : Globals) : Globals :=
  {| previousNativeCombinedThetas := previousNativeCombinedThetas g;
     previousNativeIndependentThetas := previousNativeIndependentThetas g;
     previousNativeOpenness := previousNativeOpenness g;
     previousVrcftV1CombinedThetas := previousVrcftV1CombinedThetas g;
     previousVrcftV1IndependentThetas := previousVrcftV1IndependentThetas g;
     previousVrcftV1OpennessCombined := previousVrcftV1OpennessCombined g;
     previousVrcftV1OpennessIndependent := previousVrcftV1OpennessIndependent g;
     previousVrcftV2CombinedThetas := previousVrcftV2CombinedThetas g;
     previousVrcftV2IndependentThetas := previousVrcftV2IndependentThetas g;
     previousVrcftV2OpennessCombined := previousVrcftV2OpennessCombined g;
     previousVrcftV2OpennessIndependent := previousVrcftV2OpennessIndependent g;
     previousOscEndpoint := previousOscEndpoint g;
     lastClosedTimestampCombined := v;
     lastClosedTimestampLeft := lastClosedTimestampLeft g;
     lastClosedTimestampRight := lastClosedTimestampRight g |}.

Definition set_lastClosedTimestampLeft (v : Q) (g : Globals) : Globals :=
  {| previousNativeCombinedThetas := previousNativeCombinedThetas g;
     previousNativeIndependentThetas := previousNativeIndependentThetas g;
     previousNativeOpenness := previousNativeOpenness g;
     previousVrcftV1CombinedThetas := previousVrcftV1CombinedThetas g;
     previousVrcftV1IndependentThetas := previousVrcftV1IndependentThetas g;
     previousVrcftV1OpennessCombined := previousVrcftV1OpennessCombined g;
     previousVrcftV1OpennessIndependent := previousVrcftV1OpennessIndependent g;
     previousVrcftV2CombinedThetas := previousVrcftV2CombinedThetas g;
     previousVrcftV2IndependentThetas := previousVrcftV2IndependentThetas g;
     previousVrcftV2OpennessCombined := previousVrcftV2OpennessCombined g;
     previousVrcftV2OpennessIndependent := previousVrcftV2OpennessIndependent g;
     previousOscEndpoint := previousOscEndpoint g;
     lastClosedTimestampCombined := lastClosedTimestampCombined g;
     lastClosedTimestampLeft := v;
     lastClosedTimestampRight := lastClosedTimestampRight g |}.

Definition set_lastClosedTimestampRight (v : Q) (g : Globals) : Globals :=
  {| previousNativeCombinedThetas := previousNativeCombinedThetas g;
     previousNativeIndependentThetas := previousNativeIndependentThetas g;
     previousNativeOpenness := previousNativeOpenness g;
     previousVrcftV1CombinedThetas := previousVrcftV1CombinedThetas g;
     previousVrcftV1IndependentThetas := previousVrcftV1IndependentThetas g;
     previousVrcftV1OpennessCombined := previousVrcftV1OpennessCombined g;
     previousVrcftV1OpennessIndependent := previousVrcftV1OpennessIndependent g;
     previousVrcftV2CombinedThetas := previousVrcftV2CombinedThetas g;
     previousVrcftV2IndependentThetas := previousVrcftV2IndependentThetas g;
     previousVrcftV2OpennessCombined := previousVrcftV2OpennessCombined g;
     previousVrcftV2OpennessIndependent := previousVrcftV2OpennessIndependent g;
     previousOscEndpoint := previousOscEndpoint g;
     lastClosedTimestampCombined := lastClosedTimestampCombined g;
     lastClosedTimestampLeft := lastClosedTimestampLeft g;
     lastClosedTimestampRight := v |}.

(** [transformOpenness(value, opennessConfig)] *)
Definition transformOpenness (value : Q) (opennessConfig : Q * Q * Q * Q) : Q :=
  let '(h0, h1, h2, h3) := opennessConfig in
  if Num.ltb value h0 then 0
  else if Num.ltb value h1 then ((value - h0) / (h1 - h0)) * (3 # 4)
  else if Num.ltb value h2 then 3 # 4
  else if Num.ltb value h3 then (3 # 4) + ((value - h2) / (h3 - h2)) * (1 # 4)
  else 1.

(** The five pieces of the transform: the range of the raw value and the
    value of the transform on it. *)
Inductive piece (h0 h1 h2 h3 v : Q) : Q -> Prop :=
| Below : v < h0 -> piece h0 h1 h2 h3 v 0
| Ramp1 : h0 <= v -> v < h1 ->
          piece h0 h1 h2 h3 v (((v - h0) / (h1 - h0)) * (3 # 4))
| Flat : h0 <= v -> h1 <= v -> v < h2 -> piece h0 h1 h2 h3 v (3 # 4)
| Ramp2 : h0 <= v -> h1 <= v -> h2 <= v -> v < h3 ->
          piece h0 h1 h2 h3 v ((3 # 4) + ((v - h2) / (h3 - h2)) * (1 # 4))
| Above : h0 <= v -> h1 <= v -> h2 <= v -> h3 <= v -> piece h0 h1 h2 h3 v 1.

(** The calls the service makes on [window.electronAPI] and
    [OscSenderUtils], with their arguments. *)
Inductive OscCall :=
| updateOscClient (endpoint : string)
| sendNativeIndependentPitchYaw (d : IndThetas) (pitchOffset vertical horizontal : Q)
| sendNativeCombinedPitchYaw (d : CombinedThetas) (pitchOffset vertical horizontal : Q)
| sendNativeEyeOpenness (openness : Q) (neutralValue : option Q)
| sendVrcftV1IndependentPitchYaw (d : IndThetas) (pitchOffset vertical horizontal : Q)
| sendVrcftV1CombinedPitchYaw (d : CombinedThetas) (pitchOffset vertical horizontal : Q)
| sendVrcftV1IndependentOpenness (d : IndOpenness)
| sendVrcftV1CombinedOpenness (openness : Q)
| sendVrcftV2IndependentPitchYaw (d : IndThetas) (pitchOffset vertical horizontal : Q)
                                 (oscPrefix : string) (splitOutputY : bool)
| sendVrcftV2CombinedPitchYaw (d : CombinedThetas) (pitchOffset vertical horizontal : Q)
                              (oscPrefix : string) (splitOutputY : bool)
| sendVrcftV2IndependentOpenness (d : IndOpenness) (oscPrefix : string)
| sendVrcftV2CombinedOpenness (openness : Q) (oscPrefix : string).

(** [currentMode]: ['none'], ['native'], ['vrcftV1'] or ['vrcftV2']. *)
Inductive Mode := ModeNone | ModeNative | ModeVrcftV1 | ModeVrcftV2.

#[global] Instance Mode_eq_dec : EqDecision Mode.
Proof. solve_decision. Defined.

(** Step 1 of [startTrackingTransmission]. *)
Definition currentMode (c : ConfigState) : Mode :=
  if trackingForcedOffline c then ModeNone
  else if vrcNative c then ModeNative
  else if vrcftV1 c then ModeVrcftV1
  else if vrcftV2 c then ModeVrcftV2
  else ModeNone.

Definition currentEndpoint (c : ConfigState) : string :=
  if trackingForcedOffline c then ""
  else if vrcNative c then vrcOsc c
  else if vrcftV1 c then vrcOsc c
  else if vrcftV2 c then vrcOsc c
  else "".

(** [!previous || !EqualityUtils.isEqualCombinedThetas(new, previous)] *)
Definition changedCombinedThetas (n : CombinedThetas)
           (previous : option CombinedThetas) : bool :=
  match previous with
  | None => true
  | Some p => negb (isEqualCombinedThetas n p)
  end.

(** [!previous || !EqualityUtils.isEqualIndThetas(new, previous)] *)
Definition changedIndThetas (n : IndThetas) (previous : option IndThetas) : bool :=
  match previous with
  | None => true
  | Some p => negb (isEqualIndThetas n p)
  end.

(** [!previous || !EqualityUtils.isEqualOpenness(new, previous)] *)
Definition changedIndOpenness (n : IndOpenness)
           (previous : option IndOpenness) : bool :=
  match previous with
  | None => true
  | Some p => negb (isEqualOpenness n p)
  end.

(** [previous === null || Math.abs(previous - new) > 0.001] *)
Definition changedOpenness (n : Q) (previous : option Q) : bool :=
  match previous with
  | None => true
  | Some p => Num.gtb (Qabs (p - n)) (1 # 1000)
  end.

(** The blink-release lines, which the service repeats for every openness
    value it sends:
    [if (v === 0) { lastClosed = now; }
     else if (now <= lastClosed + blinkReleaseDelayMs) { v = 0; }].
    The result is the value and the timestamp after them. *)
Definition blinkRelease (v now lastClosed blinkReleaseDelayMs : Q) : Q * Q :=
  if Num.eqb v 0 then (v, now)
  else if Num.leb now (lastClosed + blinkReleaseDelayMs) then (0, lastClosed)
  else (v, lastClosed).

(** Step 2: the OSC client follows the endpoint.  [electronAPI] tells
    whether [window.electronAPI?.updateOscClient] is there. *)
Definition updateEndpoint (c : ConfigState) (electronAPI : bool) (g : Globals)
  : Globals * list OscCall :=
  let mode := currentMode c in
  let endpoint := currentEndpoint c in
  if negb (bool_decide (mode = ModeNone))
     && negb (bool_decide (endpoint = ""))
     && negb (bool_decide (Some endpoint = previousOscEndpoint g))
  then (set_previousOscEndpoint (Some endpoint) g,
        if electronAPI then [updateOscClient endpoint] else [])
  else if bool_decide (mode = ModeNone)
  then (set_previousOscEndpoint (Some "") g, [])
  else (g, []).

(** The eye-movement block of the native branch. *)
Definition nativeThetas (state : RootState) (g : Globals) : Globals * list OscCall :=
  let c := config state in
  if activeEyeTracking c then
    if independentEyes c then
      let newIndThetas := chooseIndependentEyeThetas state in
      if changedIndThetas newIndThetas (previousNativeIndependentThetas g) then
        (set_previousNativeIndependentThetas (Some newIndThetas) g,
         [sendNativeIndependentPitchYaw newIndThetas (pitchOffset c)
            (verticalExaggeration c) (horizontalExaggeration c)])
      else (g, [])
    else
      let newCombinedThetas := chooseCombinedEyeThetas state in
      if changedCombinedThetas newCombinedThetas (previousNativeCombinedThetas g) then
        (set_previousNativeCombinedThetas (Some newCombinedThetas) g,
         [sendNativeCombinedPitchYaw newCombinedThetas (pitchOffset c)
            (verticalExaggeration c) (horizontalExaggeration c)])
      else (g, [])
  else (g, []).

(** The openness block of the native branch. *)
Definition nativeOpenness (state : RootState) (now : Q) (g : Globals)
  : Globals * list OscCall :=
  let c := config state in
  if activeOpennessTracking c then
    let newCombinedOpenness := chooseCombinedEyeOpenness state in
    let newCombinedOpenness :=
      transformOpenness newCombinedOpenness (opennessSliderHandles c) in
    let '(newCombinedOpenness, closed) :=
      blinkRelease newCombinedOpenness now (lastClosedTimestampCombined g)
                   (blinkReleaseDelayMs c) in
    let g := set_lastClosedTimestampCombined closed g in
    if changedOpenness newCombinedOpenness (previousNativeOpenness g) then
      (set_previousNativeOpenness (Some newCombinedOpenness) g,
       [sendNativeEyeOpenness newCombinedOpenness (vrcNativeNeutralValue c)])
    else (g, [])
  else (g, []).

(** The eye-movement block of the vrcftV1 branch. *)
Definition vrcftV1Thetas (state : RootState) (g : Globals) : Globals * list OscCall :=
  let c := config state in
  if activeEyeTracking c then
    if independentEyes c then
      let newIndThetas := chooseIndependentEyeThetas state in
      if changedIndThetas newIndThetas (previousVrcftV1IndependentThetas g) then
        (set_previousVrcftV1IndependentThetas (Some newIndThetas) g,
         [sendVrcftV1IndependentPitchYaw newIndThetas (pitchOffset c)
            (verticalExaggeration c) (horizontalExaggeration c)])
      else (g, [])
    else
      let newCombinedThetas := chooseCombinedEyeThetas state in
      if changedCombinedThetas newCombinedThetas (previousVrcftV1CombinedThetas g) then
        (set_previousVrcftV1CombinedThetas (Some newCombinedThetas) g,
         [sendVrcftV1CombinedPitchYaw newCombinedThetas (pitchOffset c)
            (verticalExaggeration c) (horizontalExaggeration c)])
      else (g, [])
  else (g, []).

(** The openness block of the vrcftV1 branch. *)
Definition vrcftV1Openness (state : RootState) (now : Q) (g : Globals)
  : Globals * list OscCall :=
  let c := config state in
  if activeOpennessTracking c then
    if independentOpenness c then
      let newIndOpenness := chooseIndependentEyeOpenness state in
      let leftOpenness :=
        transformOpenness (o_leftOpenness newIndOpenness) (opennessSliderHandles c) in
      let rightOpenness :=
        transformOpenness (o_rightOpenness newIndOpenness) (opennessSliderHandles c) in
      let '(leftOpenness, closedLeft) :=
        blinkRelease leftOpenness now (lastClosedTimestampLeft g)
                     (blinkReleaseDelayMs c) in
      let g := set_lastClosedTimestampLeft closedLeft g in
      let '(rightOpenness, closedRight) :=
        blinkRelease rightOpenness now (lastClosedTimestampRight g)
                     (blinkReleaseDelayMs c) in
      let g := set_lastClosedTimestampRight closedRight g in
      let newValue := {| o_leftOpenness := leftOpenness;
                         o_rightOpenness := rightOpenness |} in
      if changedIndOpenness newValue (previousVrcftV1OpennessIndependent g) then
        (set_previousVrcftV1OpennessIndependent (Some newValue) g,
         [sendVrcftV1IndependentOpenness newValue])
      else (g, [])
    else
      let newCombinedOpenness := chooseCombinedEyeOpenness state in
      let newCombinedOpenness :=
        transformOpenness newCombinedOpenness (opennessSliderHandles c) in
      let '(finalCombined, closed) :=
        blinkRelease newCombinedOpenness now (lastClosedTimestampCombined g)
                     (blinkReleaseDelayMs c) in
      let g := set_lastClosedTimestampCombined closed g in
      if changedOpenness finalCombined (previousVrcftV1OpennessCombined g) then
        (set_previousVrcftV1OpennessCombined (Some finalCombined) g,
         [sendVrcftV1CombinedOpenness finalCombined])
      else (g, [])
  else (g, []).

(** The eye-movement block of the vrcftV2 branch. *)
Definition vrcftV2Thetas (state : RootState) (g : Globals) : Globals * list OscCall :=
  let c := config state in
  if activeEyeTracking c then
    if independentEyes c then
      let newIndThetas := chooseIndependentEyeThetas state in
      if changedIndThetas newIndThetas (previousVrcftV2IndependentThetas g) then
        (set_previousVrcftV2IndependentThetas (Some newIndThetas) g,
         [sendVrcftV2IndependentPitchYaw newIndThetas (pitchOffset c)
            (verticalExaggeration c) (horizontalExaggeration c)
            (oscPrefix c) (splitOutputY c)])
      else (g, [])
    else
      let newCombinedThetas := chooseCombinedEyeThetas state in
      if changedCombinedThetas newCombinedThetas (previousVrcftV2CombinedThetas g) then
        (set_previousVrcftV2CombinedThetas (Some newCombinedThetas) g,
         [sendVrcftV2CombinedPitchYaw newCombinedThetas (pitchOffset c)
            (verticalExaggeration c) (horizontalExaggeration c)
            (oscPrefix c) (splitOutputY c)])
      else (g, [])
  else (g, []).

(** The openness block of the vrcftV2 branch. *)
Definition vrcftV2Openness (state : RootState) (now : Q) (g : Globals)
  : Globals * list OscCall :=
  let c := config state in
  if activeOpennessTracking c then
    if independentOpenness c then
      let newIndOpenness := chooseIndependentEyeOpenness state in
      let leftOpenness :=
        transformOpenness (o_leftOpenness newIndOpenness) (opennessSliderHandles c) in
      let rightOpenness :=
        transformOpenness (o_rightOpenness newIndOpenness) (opennessSliderHandles c) in
      let '(leftOpenness, closedLeft) :=
        blinkRelease leftOpenness now (lastClosedTimestampLeft g)
                     (blinkReleaseDelayMs c) in
      let g := set_lastClosedTimestampLeft closedLeft g in
      let '(rightOpenness, closedRight) :=
        blinkRelease rightOpenness now (lastClosedTimestampRight g)
                     (blinkReleaseDelayMs c) in
      let g := set_lastClosedTimestampRight closedRight g in
      let newValue := {| o_leftOpenness := leftOpenness;
                         o_rightOpenness := rightOpenness |} in
      if changedIndOpenness newValue (previousVrcftV2OpennessIndependent g) then
        (set_previousVrcftV2OpennessIndependent (Some newValue) g,
         [sendVrcftV2IndependentOpenness newValue (oscPrefix c)])
      else (g, [])
    else
      let newCombinedOpenness := chooseCombinedEyeOpenness state in
      let newCombinedOpenness :=
        transformOpenness newCombinedOpenness (opennessSliderHandles c) in
      let '(finalCombined, closed) :=
        blinkRelease newCombinedOpenness now (lastClosedTimestampCombined g)
                     (blinkReleaseDelayMs c) in
      let g := set_lastClosedTimestampCombined closed g in
      if changedOpenness finalCombined (previousVrcftV2OpennessCombined g) then
        (set_previousVrcftV2OpennessCombined (Some finalCombined) g,
         [sendVrcftV2CombinedOpenness finalCombined (oscPrefix c)])
      else (g, [])
  else (g, []).

(** Steps 3 and 4, the eye-movement half: what the branch of the current
    mode does. *)
Definition thetasPass (state : RootState) (g : Globals) : Globals * list OscCall :=
  match currentMode (config state) with
  | ModeNone => (g, [])
  | ModeNative => nativeThetas state g
  | ModeVrcftV1 => vrcftV1Thetas state g
  | ModeVrcftV2 => vrcftV2Thetas state g
  end.

(** Steps 3 and 4, the openness half. *)
Definition opennessPass (state : RootState) (now : Q) (g : Globals)
  : Globals * list OscCall :=
  match currentMode (config state) with
  | ModeNone => (g, [])
  | ModeNative => nativeOpenness state now g
  | ModeVrcftV1 => vrcftV1Openness state now g
  | ModeVrcftV2 => vrcftV2Openness state now g
  end.

(** [startTrackingTransmission()]: one transmission pass.  [state] is what
    [store.getState()] returns, [now] what [Date.now()] returns; the result
    is the module-level variables after the pass and the calls made, in
    order. *)
Definition startTrackingTransmission (state : RootState) (now : Q)
           (electronAPI : bool) (g : Globals) : Globals * list OscCall :=
  let '(g, calls0) := updateEndpoint (config state) electronAPI g in
  let '(g, calls1) := thetasPass state g in
  let '(g, calls2) := opennessPass state now g in
  (g, calls0 ++ calls1 ++ calls2).

(** A run of passes: each pass has its own store state and clock value. *)
Fixpoint passes (l : list (RootState * Q)) (electronAPI : bool) (g : Globals)
  : Globals :=
  match l with
  | [] => g
  | (state, now) :: l' =>
      passes l' electronAPI (fst (startTrackingTransmission state now electronAPI g))
  end.

End Transmission.

(** Observations on a transmission pass, per openness channel. *)

Module Channel.

Import Transmission.

Inductive t := Combined | Left | Right.

(** The closed-at timestamp of the channel. *)
Definition lastClosed (ch : t) (g : Globals) : Q :=
  match ch with
  | Combined => lastClosedTimestampCombined g
  | Left => lastClosedTimestampLeft g
  | Right => lastClosedTimestampRight g
  end.

(** Whether a pass under configuration [c] runs the blink-release lines of
    the channel: the native branch handles the combined value only, the
    two vrcft branches the combined value or the left and right values,
    by [independentOpenness]. *)
Definition active (ch : t) (c : ConfigState) : bool :=
  activeOpennessTracking c
  && match currentMode c, ch with
     | ModeNone, _ => false
     | ModeNative, Combined => true
     | ModeNative, _ => false
     | _, Combined => negb (independentOpenness c)
     | _, _ => independentOpenness c
     end.

(** The raw reading of the channel. *)
Definition raw (ch : t) (state : RootState) : Q :=
  match ch with
  | Combined => EyeSelectionUtils.chooseCombinedEyeOpenness state
  | Left => o_leftOpenness (EyeSelectionUtils.chooseIndependentEyeOpenness state)
  | Right => o_rightOpenness (EyeSelectionUtils.chooseIndependentEyeOpenness state)
  end.

(** The reading after [transformOpenness]. *)
Definition transformed (ch : t) (state : RootState) : Q :=
  transformOpenness (raw ch state) (opennessSliderHandles (config state)).

(** The value of the channel after the blink-release lines of a pass. *)
Definition output (ch : t) (state : RootState) (now : Q) (g : Globals) : Q :=
  fst (blinkRelease (transformed ch state) now (lastClosed ch g)
                    (blinkReleaseDelayMs (config state))).

(** The value a call carries for the channel, when it is an openness call
    that has one. *)
Definition carried (ch : t) (call : OscCall) : option Q :=
  match call, ch with
  | sendNativeEyeOpenness o _, Combined => Some o
  | sendVrcftV1CombinedOpenness o, Combined => Some o
  | sendVrcftV2CombinedOpenness o _, Combined => Some o
  | sendVrcftV1IndependentOpenness d, Left => Some (o_leftOpenness d)
  | sendVrcftV1IndependentOpenness d, Right => Some (o_rightOpenness d)
  | sendVrcftV2IndependentOpenness d _, Left => Some (o_leftOpenness d)
  | sendVrcftV2IndependentOpenness d _, Right => Some (o_rightOpenness d)
  | _, _ => None
  end.

End Channel.

(** Observations on a transmission pass, per angle path. *)

Module AnglePath.

Import Transmission.

(** The cache of the combined path of a mode: the pair dispatched last. *)
Definition previousCombined (m : Mode) (g : Globals) : option CombinedThetas :=
  match m with
  | ModeNone => None
  | ModeNative => previousNativeCombinedThetas g
  | ModeVrcftV1 => previousVrcftV1CombinedThetas g
  | ModeVrcftV2 => previousVrcftV2CombinedThetas g
  end.

(** The cache of the independent path of a mode. *)
Definition previousIndependent (m : Mode) (g : Globals) : option IndThetas :=
  match m with
  | ModeNone => None
  | ModeNative => previousNativeIndependentThetas g
  | ModeVrcftV1 => previousVrcftV1IndependentThetas g
  | ModeVrcftV2 => previousVrcftV2IndependentThetas g
  end.

(** The dispatch of a combined pair in a mode. *)
Definition combinedCall (m : Mode) (c : ConfigState) (d : CombinedThetas)
  : list OscCall :=
  match m with
  | ModeNone => []
  | ModeNative =>
      [sendNativeCombinedPitchYaw d (pitchOffset c) (verticalExaggeration c)
         (horizontalExaggeration c)]
  | ModeVrcftV1 =>
      [sendVrcftV1CombinedPitchYaw d (pitchOffset c) (verticalExaggeration c)
         (horizontalExaggeration c)]
  | ModeVrcftV2 =>
      [sendVrcftV2CombinedPitchYaw d (pitchOffset c) (verticalExaggeration c)
         (horizontalExaggeration c) (oscPrefix c) (splitOutputY c)]
  end.

(** The dispatch of an independent quadruple in a mode. *)
Definition independentCall (m : Mode) (c : ConfigState) (d : IndThetas)
  : list OscCall :=
  match m with
  | ModeNone => []
  | ModeNative =>
      [sendNativeIndependentPitchYaw d (pitchOffset c) (verticalExaggeration c)
         (horizontalExaggeration c)]
  | ModeVrcftV1 =>
      [sendVrcftV1IndependentPitchYaw d (pitchOffset c) (verticalExaggeration c)
         (horizontalExaggeration c)]
  | ModeVrcftV2 =>
      [sendVrcftV2IndependentPitchYaw d (pitchOffset c) (verticalExaggeration c)
         (horizontalExaggeration c) (oscPrefix c) (splitOutputY c)]
  end.

(** The angle dispatches among the calls of a pass. *)
Definition isAngleCall (call : OscCall) : bool :=
  match call with
  | sendNativeIndependentPitchYaw _ _ _ _
  | sendNativeCombinedPitchYaw _ _ _ _
  | sendVrcftV1IndependentPitchYaw _ _ _ _
  | sendVrcftV1CombinedPitchYaw _ _ _ _
  | sendVrcftV2IndependentPitchYaw _ _ _ _ _ _
  | sendVrcftV2CombinedPitchYaw _ _ _ _ _ _ => true
  | _ => false
  end.

Definition angleCalls (calls : list OscCall) : list OscCall :=
  List.filter isAngleCall calls.

End AnglePath.

(** ** src/services/trackingComputationService.ts: [runTracking] up to the
    decision to process *)

Module TrackingComputation.

(** The module-level variables.  [previousLeftTimestamp] and
    [previousRightTimestamp] start as [Date.now()] at load time. *)
Record Globals := {
  currentModelFolder : string;
  ongoingTracking : bool;
  previousLeftTimestamp : Q;
  previousRightTimestamp : Q
}.

(** The three flags the gates set. *)
Record Gates := {
  proceed : bool;
  validLeft : bool;
  validRight : bool
}.

(** White space that [trim] removes, among the characters of a byte
    string: tab, line feed, vertical tab, form feed, carriage return and
    space. *)
Definition isWhiteSpace (c : ascii) : bool :=
  let n := nat_of_ascii c in
  ((9 <=? n)%nat && (n <=? 13)%nat) || (n =? 32)%nat.

Fixpoint trimStart (s : string) : string :=
  match s with
  | EmptyString => EmptyString
  | String c s' => if isWhiteSpace c then trimStart s' else s
  end.

Fixpoint trimEnd (s : string) : string :=
  match s with
  | EmptyString => EmptyString
  | String c s' =>
      match trimEnd s' with
      | EmptyString => if isWhiteSpace c then EmptyString else String c EmptyString
      | r => String c r
      end
  end.

(** [s.trim()] *)
Definition trim (s : string) : string := trimEnd (trimStart s).

(** [s.trim() !== ''] *)
Definition nonBlank (s : string) : bool := negb (String.eqb (trim s) "").

(** The reload block: [NormalizationUtils.resetNormalization()] runs when
    [modelFile] is non-empty and differs from [currentModelFolder]; the
    loading of the six models has no effect on the variables modelled
    here.  [currentModelFolder] takes the value of [modelFile] either
    way. *)
Definition reloadModels (c : ConfigState) (g : Globals)
           (n : NormalizationUtils.t) : Globals * NormalizationUtils.t :=
  let n' :=
    if negb (String.eqb (modelFile c) "")
       && negb (String.eqb (modelFile c) (currentModelFolder g))
    then NormalizationUtils.resetNormalization n else n in
  ({| currentModelFolder := modelFile c;
      ongoingTracking := ongoingTracking g;
      previousLeftTimestamp := previousLeftTimestamp g;
      previousRightTimestamp := previousRightTimestamp g |}, n').

Definition set_previousLeftTimestamp (v : Q) (g : Globals) : Globals :=
  {| currentModelFolder := currentModelFolder g;
     ongoingTracking := ongoingTracking g;
     previousLeftTimestamp := v;
     previousRightTimestamp := previousRightTimestamp g |}.

Definition set_previousRightTimestamp (v : Q) (g : Globals) : Globals :=
  {| currentModelFolder := currentModelFolder g;
     ongoingTracking := ongoingTracking g;
     previousLeftTimestamp := previousLeftTimestamp g;
     previousRightTimestamp := v |}.

Definition noGates : Gates :=
  {| proceed := false; validLeft := false; validRight := false |}.

(** The conditions for processing frames (the [if] chain on the two
    statuses).  A [null] timestamp is [None]; it is falsy, and so is a
    timestamp of zero. *)
Definition gates (state : RootState) (now : Q) (g : Globals) : Globals * Gates :=
  let leftEye := imageLeftEye state in
  let rightEye := imageRightEye state in
  let trackingRate := trackingRate (config state) in
  if isOnline (status leftEye) && isOnline (status rightEye) then
    match timestamp leftEye, timestamp rightEye with
    | Some leftTs, Some rightTs =>
        if Num.truthy leftTs && Num.truthy rightTs
           && (Num.geb (now - previousLeftTimestamp g) trackingRate
               && Num.geb (now - previousRightTimestamp g) trackingRate)
           && nonBlank (frame leftEye) && nonBlank (frame rightEye)
           && (Num.neqb leftTs (previousLeftTimestamp g)
               || Num.neqb rightTs (previousRightTimestamp g))
        then
          if syncedEyeUpdates (config state) then
            if Num.neqb leftTs (previousLeftTimestamp g)
               && Num.neqb rightTs (previousRightTimestamp g)
               && Num.geb (now - previousLeftTimestamp g) trackingRate
               && Num.geb (now - previousRightTimestamp g) trackingRate
            then
              (set_previousRightTimestamp rightTs (set_previousLeftTimestamp leftTs g),
               {| proceed := true; validLeft := true; validRight := true |})
            else (g, noGates)
          else
            let '(g1, r1) :=
              if Num.neqb leftTs (previousLeftTimestamp g)
                 && Num.geb (now - previousLeftTimestamp g) trackingRate
              then (set_previousLeftTimestamp leftTs g,
                    {| proceed := true; validLeft := true; validRight := true |})
              else (g, noGates) in
            if Num.neqb rightTs (previousRightTimestamp g1)
               && Num.geb (now - previousRightTimestamp g1) trackingRate
            then (set_previousRightTimestamp rightTs g1,
                  {| proceed := true; validLeft := true; validRight := true |})
            else (g1, r1)
        else (g, noGates)
    | _, _ => (g, noGates)
    end
  else if isOnline (status leftEye) then
    match timestamp leftEye with
    | Some leftTs =>
        if Num.truthy leftTs
           && Num.geb (now - previousLeftTimestamp g) trackingRate
           && nonBlank (frame leftEye)
           && Num.neqb leftTs (previousLeftTimestamp g)
        then (set_previousLeftTimestamp leftTs g,
              {| proceed := true; validLeft := true; validRight := false |})
        else (g, noGates)
    | None => (g, noGates)
    end
  else if isOnline (status rightEye) then
    match timestamp rightEye with
    | Some rightTs =>
        if Num.truthy rightTs
           && Num.geb (now - previousRightTimestamp g) trackingRate
           && nonBlank (frame rightEye)
           && Num.neqb rightTs (previousRightTimestamp g)
        then (set_previousRightTimestamp rightTs g,
              {| proceed := true; validLeft := false; validRight := true |})
        else (g, noGates)
    | None => (g, noGates)
    end
  else (g, noGates).

(** [runTracking()] from its first line to the decision to process: [None]
    when the call returns at the re-entrancy guard; otherwise the
    variables (with [ongoingTracking] set), the normalization maxima and
    the gates. *)
Definition runTracking (state : RootState) (now : Q) (g : Globals)
           (n : NormalizationUtils.t)
  : option (Globals * NormalizationUtils.t * Gates) :=
  if ongoingTracking g then None
  else
    let g := {| currentModelFolder := currentModelFolder g;
                ongoingTracking := true;
                previousLeftTimestamp := previousLeftTimestamp g;
                previousRightTimestamp := previousRightTimestamp g |} in
    let '(g, n) := reloadModels (config state) g n in
    let '(g, r) := gates state now g in
    Some (g, n, r).

(** Truthiness of a [number | null]. *)
Definition tsTruthy (ts : option Q) : bool :=
  match ts with
  | Some t => Num.truthy t
  | None => false
  end.

(** [ts !== previous] for a [number | null] and a number. *)
Definition tsDiffers (ts : option Q) (previous : Q) : bool :=
  match ts with
  | Some t => Num.neqb t previous
  | None => true
  end.

(** What the specification calls an eye's own gates:
    a new frame, enough time since the frame processed last, and a
    non-empty frame buffer. *)
Definition ownGates (eye : CameraFrame) (previous now trackingRate : Q) : bool :=
  match timestamp eye with
  | Some ts =>
      Num.neqb ts previous && Num.geb (now - previous) trackingRate
      && nonBlank (frame eye)
  | None => false
  end.

End TrackingComputation.

(** ** src/services/trackingComputationService.ts: the predictions of a
    pass that processes frames *)

Module TrackingPrediction.

(** The three gaze trust variables. *)
Record Trusts := {
  combinedGazeTrust : Q;
  leftGazeTrust : Q;
  rightGazeTrust : Q
}.

Definition defaultTrusts : Trusts :=
  {| combinedGazeTrust := 3 # 4; leftGazeTrust := 3 # 4;
     rightGazeTrust := 3 # 4 |}.

(** The openness models that are run, in order, and the trust variables
    after them.  [prediction ch] is what [makePrediction] of the openness
    model of channel [ch] returns in this pass. *)
Definition opennessPredictions (independentOpenness validLeft validRight : bool)
           (prediction : Channel.t -> Q) : list Channel.t * Trusts :=
  let t := defaultTrusts in
  if negb independentOpenness then
    if validLeft && validRight then
      ([Channel.Combined],
       {| combinedGazeTrust := prediction Channel.Combined;
          leftGazeTrust := leftGazeTrust t;
          rightGazeTrust := rightGazeTrust t |})
    else if validLeft then
      ([Channel.Left],
       {| combinedGazeTrust := combinedGazeTrust t;
          leftGazeTrust := prediction Channel.Left;
          rightGazeTrust := rightGazeTrust t |})
    else if validRight then
      ([Channel.Right],
       {| combinedGazeTrust := combinedGazeTrust t;
          leftGazeTrust := leftGazeTrust t;
          rightGazeTrust := prediction Channel.Right |})
    else ([], t)
  else
    let '(runs, t) :=
      if validLeft then
        ([Channel.Left],
         {| combinedGazeTrust := combinedGazeTrust t;
            leftGazeTrust := prediction Channel.Left;
            rightGazeTrust := rightGazeTrust t |})
      else ([], t) in
    if validRight then
      (runs ++ [Channel.Right],
       {| combinedGazeTrust := combinedGazeTrust t;
          leftGazeTrust := leftGazeTrust t;
          rightGazeTrust := prediction Channel.Right |})
    else (runs, t).

(** [if (!eyelidBasedGazeTrust) { ... }] *)
Definition overrideTrusts (eyelidBasedGazeTrust : bool) (t : Trusts) : Trusts :=
  if negb eyelidBasedGazeTrust then defaultTrusts else t.

(** The theta models that are run, in order, each with the trust it is
    given. *)
Definition thetaPredictions (independentEyes validLeft validRight : bool)
           (t : Trusts) : list (Channel.t * Q) :=
  if negb independentEyes then
    if validLeft && validRight then [(Channel.Combined, combinedGazeTrust t)]
    else if validLeft then [(Channel.Left, leftGazeTrust t)]
    else if validRight then [(Channel.Right, rightGazeTrust t)]
    else []
  else
    (if validLeft && validRight
     then [(Channel.Combined, combinedGazeTrust t)] else [])
    ++ (if validLeft then [(Channel.Left, leftGazeTrust t)] else [])
    ++ (if validRight then [(Channel.Right, rightGazeTrust t)] else []).

(** The predictions of a pass, from the configuration [c] and the two
    valid flags of the gates: the openness models run, and the theta
    models run with their trusts. *)
Definition predictions (c : ConfigState) (validLeft validRight : bool)
           (prediction : Channel.t -> Q)
  : list Channel.t * list (Channel.t * Q) :=
  let '(runs, t) :=
    opennessPredictions (independentOpenness c) validLeft validRight
                        prediction in
  let t := overrideTrusts (eyelidBasedGazeTrust c) t in
  (runs, thetaPredictions (independentEyes c) validLeft validRight t).

(** The frame of the channel's eye, or of both eyes, is valid. *)
Definition validFor (ch : Channel.t) (validLeft validRight : bool) : bool :=
  match ch with
  | Channel.Combined => validLeft && validRight
  | Channel.Left => validLeft
  | Channel.Right => validRight
  end.

Definition sameChannel (a b : Channel.t) : bool :=
  match a, b with
  | Channel.Combined, Channel.Combined
  | Channel.Left, Channel.Left
  | Channel.Right, Channel.Right => true
  | _, _ => false
  end.

(** The openness model of channel [ch] is among the models run. *)
Definition ran (ch : Channel.t) (runs : list Channel.t) : bool :=
  existsb (sameChannel ch) runs.

(** When the model of a channel is run, for the openness models with
    [independent] the independent-openness switch and for the theta
    models with [independent] the independent-eyes switch: the combined
    model when both frames are valid, and the model of one eye when its
    frame is valid and either the switch is on or the other frame is
    not valid.  One exception is in the source: with the switch on, the
    combined openness model is not run. *)
Definition modelRuns (independent : bool) (ch : Channel.t)
           (validLeft validRight : bool) : bool :=
  match ch with
  | Channel.Combined => validLeft && validRight
  | Channel.Left => validLeft && (independent || negb validRight)
  | Channel.Right => validRight && (independent || negb validLeft)
  end.

End TrackingPrediction.

(** ** src/services/cameraService.ts: [connectWithReattempt] *)

Module CameraService.

Inductive Side := leftEyeSide | rightEyeSide.

(** [config[side]] *)
Definition endpointOf (side : Side) (c : ConfigState) : string :=
  match side with
  | leftEyeSide => leftEye c
  | rightEyeSide => rightEye c
  end.

(** [side === 'leftEye' ? config.leftEyeForcedOffline
                        : config.rightEyeForcedOffline] *)
Definition forcedOffline (side : Side) (c : ConfigState) : bool :=
  match side with
  | leftEyeSide => leftEyeForcedOffline c
  | rightEyeSide => rightEyeForcedOffline c
  end.

(** One call of [connectWithReattempt(side, ipPort)] and what surrounds
    it.  [activeConnection] and [closed] are the two variables of the
    closure; connections made by [createMJPEGConnection] are numbered in
    the order they are made, [opened] counts them and [cancelled] lists
    those whose [close] was called.  [timers] holds, for every pending
    [setTimeout(..., 2000)] of an [onError] callback, the clock value at
    which it was set.  [shuttingDown] and [storeConfig] are the module
    variable and the configuration in the store. *)
Record World := {
  side : Side;
  ipPort : string;
  activeConnection : option nat;
  closed : bool;
  opened : nat;
  cancelled : list nat;
  timers : list Q;
  clock : Q;
  shuttingDown : bool;
  storeConfig : ConfigState
}.

Definition backoffMs : Q := 2000.

(** [attemptConnection()] *)
Definition attemptConnection (w : World) : World :=
  if closed w || shuttingDown w then w
  else if forcedOffline (side w) (storeConfig w) then w
  else
    {| side := side w; ipPort := ipPort w;
       activeConnection := Some (opened w);
       closed := closed w;
       opened := S (opened w);
       cancelled := cancelled w;
       timers := timers w;
       clock := clock w;
       shuttingDown := shuttingDown w;
       storeConfig := storeConfig w |}.

(** [connectWithReattempt(side, ipPort)] at clock value [now]: the closure
    is made and the first attempt runs. *)
Definition connectWithReattempt (s : Side) (ip : string) (now : Q)
           (down : bool) (c : ConfigState) : World :=
  attemptConnection
    {| side := s; ipPort := ip; activeConnection := None; closed := false;
       opened := 0; cancelled := []; timers := []; clock := now;
       shuttingDown := down; storeConfig := c |}.

(** The [onError] callback: [setTimeout(..., 2000)]. *)
Definition onError (w : World) : World :=
  {| side := side w; ipPort := ipPort w;
     activeConnection := activeConnection w;
     closed := closed w;
     opened := opened w;
     cancelled := cancelled w;
     timers := timers w ++ [clock w];
     clock := clock w;
     shuttingDown := shuttingDown w;
     storeConfig := storeConfig w |}.

(** The guard of the function given to [setTimeout]. *)
Definition reattemptGuard (w : World) : bool :=
  let currentConfig := storeConfig w in
  negb (closed w)
  && negb (shuttingDown w)
  && String.eqb (endpointOf (side w) currentConfig) (ipPort w)
  && negb (forcedOffline (side w) currentConfig).

(** The function given to [setTimeout]. *)
Definition timerCallback (w : World) : World :=
  if reattemptGuard w then attemptConnection w else w.

(** [close()] of the returned handle. *)
Definition close (w : World) : World :=
  {| side := side w; ipPort := ipPort w;
     activeConnection := activeConnection w;
     closed := true;
     opened := opened w;
     cancelled :=
       match activeConnection w with
       | Some k => k :: cancelled w
       | None => cancelled w
       end;
     timers := timers w;
     clock := clock w;
     shuttingDown := shuttingDown w;
     storeConfig := storeConfig w |}.

(** What can happen to a handle. *)
Inductive Event :=
| ConnectionError            (* a connection calls [onError] *)
| TimerFires (i : nat)       (* the [i]-th pending timer fires *)
| CloseHandle                (* [close()] is called on the handle *)
| ConfigChanges (c : ConfigState)
| ShutDown                   (* [shuttingDown] becomes true *)
| TimePasses (d : Q).

(** One event.  A timer set at [t] fires no earlier than [t + 2000]; the
    clock does not run backwards.  [None]: the event cannot happen in
    this world. *)
Definition step (e : Event) (w : World) : option World :=
  match e with
  | ConnectionError => Some (onError w)
  | TimerFires i =>
      match timers w !! i with
      | Some t =>
          if Num.leb (t + backoffMs) (clock w) then
            Some (timerCallback
                    {| side := side w; ipPort := ipPort w;
                       activeConnection := activeConnection w;
                       closed := closed w;
                       opened := opened w;
                       cancelled := cancelled w;
                       timers := delete i (timers w);
                       clock := clock w;
                       shuttingDown := shuttingDown w;
                       storeConfig := storeConfig w |})
          else None
      | None => None
      end
  | CloseHandle => Some (close w)
  | ConfigChanges c =>
      Some {| side := side w; ipPort := ipPort w;
              activeConnection := activeConnection w;
              closed := closed w;
              opened := opened w;
              cancelled := cancelled w;
              timers := timers w;
              clock := clock w;
              shuttingDown := shuttingDown w;
              storeConfig := c |}
  | ShutDown =>
      Some {| side := side w; ipPort := ipPort w;
              activeConnection := activeConnection w;
              closed := closed w;
              opened := opened w;
              cancelled := cancelled w;
              timers := timers w;
              clock := clock w;
              shuttingDown := true;
              storeConfig := storeConfig w |}
  | TimePasses d =>
      if Num.leb 0 d then
        Some {| side := side w; ipPort := ipPort w;
                activeConnection := activeConnection w;
                closed := closed w;
                opened := opened w;
                cancelled := cancelled w;
                timers := timers w;
                clock := clock w + d;
                shuttingDown := shuttingDown w;
                storeConfig := storeConfig w |}
      else None
  end.

(** A sequence of events. *)
Fixpoint run (es : list Event) (w : World) : option World :=
  match es with
  | [] => Some w
  | e :: es' =>
      match step e w with
      | Some w' => run es' w'
      | None => None
      end
  end.

End CameraService.

(** ** src/utilities/OscSenderUtils.ts *)

Module OscSenderUtils.

Import NormalizationUtils.

(** A number of this class that need not be a rational: the quotient of
    [calculateOffsetFraction] has a zero divisor while both maxima of
    theta1 are 0, and the neutral value of the native mode can be
    [undefined].  The two infinities and [NaN] are values of their own. *)
Inductive Float :=
| Real (q : Q)
| PlusInfinity
| MinusInfinity
| NaN.

(** The calls on [window.electronAPI] that send a message. *)
Inductive Message :=
| sendOscEyeData (pitch yaw : Q)
| sendOscFourEyeData (leftPitch leftYaw rightPitch rightYaw : Q)
| sendOscEyesClosedAmount (value : Float)
| sendOscFloatParam (address : string) (value : Float).

(** [a / b] for two numbers, the divisor being 0 and not -0 when it is
    zero: a number over 0 is an infinity of its sign, 0 over 0 is
    [NaN]. *)
Definition divide (a b : Q) : Float :=
  if Num.eqb b 0 then
    if Num.eqb a 0 then NaN
    else if Num.ltb 0 a then PlusInfinity else MinusInfinity
  else Real (a / b).

(** [value - offset] for a number [value]. *)
Definition minus (value : Q) (offset : Float) : Float :=
  match offset with
  | Real o => Real (value - o)
  | PlusInfinity => MinusInfinity
  | MinusInfinity => PlusInfinity
  | NaN => NaN
  end.

(** [x * multiplier] for a number [multiplier]: an infinity times 0 is
    [NaN]. *)
Definition times (x : Float) (multiplier : Q) : Float :=
  match x with
  | Real r => Real (r * multiplier)
  | PlusInfinity =>
      if Num.eqb multiplier 0 then NaN
      else if Num.ltb 0 multiplier then PlusInfinity else MinusInfinity
  | MinusInfinity =>
      if Num.eqb multiplier 0 then NaN
      else if Num.ltb 0 multiplier then MinusInfinity else PlusInfinity
  | NaN => NaN
  end.

(** [Math.max(min, Math.min(max, value))] *)
Definition clamp (value min max : Q) : Q := Qmax min (Qmin max value).

(** [clamp] on a value that need not be a rational: [Math.min] and
    [Math.max] return [NaN] when an argument is [NaN]. *)
Definition clampFloat (value : Float) (min max : Q) : Float :=
  match value with
  | Real v => Real (clamp v min max)
  | PlusInfinity => Real (Qmax min max)
  | MinusInfinity => Real min
  | NaN => NaN
  end.

Definition scaleAndClamp (value multiplier : Q) : Q :=
  clamp (value * multiplier) (-1) 1.

Definition scaleOffsetAndClamp (value : Q) (offset : Float) (multiplier : Q)
  : Float :=
  clampFloat (times (minus value offset) multiplier) (-1) 1.

(** [-1 * x] *)
Definition negated (x : Float) : Float :=
  match x with
  | Real r => Real (-1 * r)
  | PlusInfinity => MinusInfinity
  | MinusInfinity => PlusInfinity
  | NaN => NaN
  end.

(** [calculateOffsetFraction(pitchOffset)], which reads the two maxima of
    theta1.  No line guards the quotient: with a pitch offset other than
    0 and both maxima 0 it is an infinity. *)
Definition calculateOffsetFraction (pitchOffset : Q) (n : NormalizationUtils.t)
  : Float :=
  if Num.eqb pitchOffset 0 then Real 0
  else
    divide (2 * pitchOffset) (maxPosTheta1 n + Qabs (maxNegTheta1 n)).

(** *** Native tracking *)

Definition sendNativeCombinedPitchYaw (data : CombinedThetas)
           (pitchOffset verticalExaggeration horizontalExaggeration : Q)
  : list Message :=
  let offsetTheta1 := (c_theta1 data - pitchOffset) * verticalExaggeration in
  let scaledTheta2 := c_theta2 data * horizontalExaggeration in
  [sendOscEyeData offsetTheta1 scaledTheta2].

Definition sendNativeIndependentPitchYaw (data : IndThetas)
           (pitchOffset verticalExaggeration horizontalExaggeration : Q)
  : list Message :=
  let leftOffset := (i_leftTheta1 data - pitchOffset) * verticalExaggeration in
  let rightOffset := (i_rightTheta1 data - pitchOffset) * verticalExaggeration in
  let scaledLeftTheta2 := i_leftTheta2 data * horizontalExaggeration in
  let scaledRightTheta2 := i_rightTheta2 data * horizontalExaggeration in
  [sendOscFourEyeData leftOffset scaledLeftTheta2 rightOffset scaledRightTheta2].

(** The value [sendNativeEyeOpenness] sends for a neutral value that is
    a number. *)
Definition eyesClosedValue (openness neutralValue : Q) : Q :=
  let invertedOpenness := 1 - openness in
  let eyesClosedValue :=
    if Num.leb invertedOpenness (1 # 4) then
      neutralValue * (invertedOpenness / (1 # 4))
    else
      neutralValue
      + (1 - neutralValue) * ((invertedOpenness - (1 # 4)) / (3 # 4)) in
  clamp eyesClosedValue 0 1.

(** [sendNativeEyeOpenness(openness, neutralValue)].  With [undefined]
    for the neutral value both branches of the interpolation compute
    [NaN], and the clamp returns it. *)
Definition sendNativeEyeOpenness (openness : Q) (neutralValue : option Q)
  : list Message :=
  match neutralValue with
  | Some neutralValue =>
      [sendOscEyesClosedAmount (Real (eyesClosedValue openness neutralValue))]
  | None => [sendOscEyesClosedAmount NaN]
  end.

(** *** VRCFaceTracking V1 *)

Definition sendVrcftV1CombinedPitchYaw (data : CombinedThetas)
           (pitchOffset verticalExaggeration horizontalExaggeration : Q)
           (n : NormalizationUtils.t)
  : NormalizationUtils.t * list Message :=
  let '(n, normTheta1) := normalizeTheta1 n (c_theta1 data) in
  let '(n, normTheta2) := normalizeTheta2 n (c_theta2 data) in
  let offsetFraction := calculateOffsetFraction pitchOffset n in
  let offsetNormTheta1 :=
    scaleOffsetAndClamp normTheta1 offsetFraction verticalExaggeration in
  let scaledTheta2 := scaleAndClamp normTheta2 horizontalExaggeration in
  (n, [sendOscFloatParam "/avatar/parameters/LeftEyeX" (Real scaledTheta2);
       sendOscFloatParam "/avatar/parameters/RightEyeX" (Real scaledTheta2);
       sendOscFloatParam "/avatar/parameters/EyesY" (negated offsetNormTheta1)]).

Definition sendVrcftV1IndependentPitchYaw (data : IndThetas)
           (pitchOffset verticalExaggeration horizontalExaggeration : Q)
           (n : NormalizationUtils.t)
  : NormalizationUtils.t * list Message :=
  let '(n, normLeftTheta1) := normalizeTheta1 n (i_leftTheta1 data) in
  let '(n, normLeftTheta2) := normalizeTheta2 n (i_leftTheta2 data) in
  let '(n, normRightTheta2) := normalizeTheta2 n (i_rightTheta2 data) in
  let offsetFraction := calculateOffsetFraction pitchOffset n in
  let leftOffset :=
    scaleOffsetAndClamp normLeftTheta1 offsetFraction verticalExaggeration in
  let scaledLeftTheta2 := scaleAndClamp normLeftTheta2 horizontalExaggeration in
  let scaledRightTheta2 :=
    scaleAndClamp normRightTheta2 horizontalExaggeration in
  (n, [sendOscFloatParam "/avatar/parameters/LeftEyeX" (Real scaledLeftTheta2);
       sendOscFloatParam "/avatar/parameters/RightEyeX" (Real scaledRightTheta2);
       sendOscFloatParam "/avatar/parameters/EyesY" (negated leftOffset)]).

Definition sendVrcftV1CombinedOpenness (openness : Q) : list Message :=
  [sendOscFloatParam "/avatar/parameters/CombinedEyeLid" (Real openness)].

Definition sendVrcftV1IndependentOpenness (data : IndOpenness) : list Message :=
  [sendOscFloatParam "/avatar/parameters/LeftEyeLid"
                     (Real (o_leftOpenness data));
   sendOscFloatParam "/avatar/parameters/RightEyeLid"
                     (Real (o_rightOpenness data))].

(** *** VRCFaceTracking V2 *)

Definition isSlash (c : ascii) : bool := Ascii.eqb c "/"%char.

(** What the alternative [^\/+] of the pattern removes. *)
Fixpoint stripLeadingSlashes (s : string) : string :=
  match s with
  | String c s' => if isSlash c then stripLeadingSlashes s' else s
  | EmptyString => EmptyString
  end.

(** What the alternative [\/+$] of the pattern removes. *)
Fixpoint stripTrailingSlashes (s : string) : string :=
  match s with
  | String c s' =>
      match stripTrailingSlashes s' with
      | EmptyString => if isSlash c then EmptyString else String c EmptyString
      | r => String c r
      end
  | EmptyString => EmptyString
  end.

(** [getVrcftV2Prefix(oscPrefix)] *)
Definition getVrcftV2Prefix (oscPrefix : string) : string :=
  let prefix := oscPrefix in
  let prefix := stripTrailingSlashes (stripLeadingSlashes prefix) in
  if String.eqb prefix "" then "/avatar/parameters/v2/"
  else ("/avatar/parameters/" ++ prefix ++ "/v2/")%string.

Definition sendVrcftV2CombinedPitchYaw (data : CombinedThetas)
           (pitchOffset verticalExaggeration horizontalExaggeration : Q)
           (oscPrefix : string) (splitOutputY : bool)
           (n : NormalizationUtils.t)
  : NormalizationUtils.t * list Message :=
  let '(n, normTheta1) := normalizeTheta1 n (c_theta1 data) in
  let '(n, normTheta2) := normalizeTheta2 n (c_theta2 data) in
  let offsetFraction := calculateOffsetFraction pitchOffset n in
  let offsetNormTheta1 :=
    scaleOffsetAndClamp normTheta1 offsetFraction verticalExaggeration in
  let scaledTheta2 := scaleAndClamp normTheta2 horizontalExaggeration in
  let prefix := getVrcftV2Prefix oscPrefix in
  if splitOutputY then
    (n, [sendOscFloatParam (prefix ++ "EyeLeftX") (Real scaledTheta2);
         sendOscFloatParam (prefix ++ "EyeLeftY") (negated offsetNormTheta1);
         sendOscFloatParam (prefix ++ "EyeRightX") (Real scaledTheta2);
         sendOscFloatParam (prefix ++ "EyeRightY") (negated offsetNormTheta1)])
  else
    (n, [sendOscFloatParam (prefix ++ "EyeLeftX") (Real scaledTheta2);
         sendOscFloatParam (prefix ++ "EyeRightX") (Real scaledTheta2);
         sendOscFloatParam (prefix ++ "EyeY") (negated offsetNormTheta1)]).

Definition sendVrcftV2IndependentPitchYaw (data : IndThetas)
           (pitchOffset verticalExaggeration horizontalExaggeration : Q)
           (oscPrefix : string) (splitOutputY : bool)
           (n : NormalizationUtils.t)
  : NormalizationUtils.t * list Message :=
  let '(n, normLeftTheta1) := normalizeTheta1 n (i_leftTheta1 data) in
  let '(n, normRightTheta1) := normalizeTheta1 n (i_rightTheta1 data) in
  let '(n, normLeftTheta2) := normalizeTheta2 n (i_leftTheta2 data) in
  let '(n, normRightTheta2) := normalizeTheta2 n (i_rightTheta2 data) in
  let offsetFraction := calculateOffsetFraction pitchOffset n in
  let leftOffset :=
    scaleOffsetAndClamp normLeftTheta1 offsetFraction verticalExaggeration in
  let rightOffset :=
    scaleOffsetAndClamp normRightTheta1 offsetFraction verticalExaggeration in
  let scaledLeftTheta2 := scaleAndClamp normLeftTheta2 horizontalExaggeration in
  let scaledRightTheta2 :=
    scaleAndClamp normRightTheta2 horizontalExaggeration in
  let prefix := getVrcftV2Prefix oscPrefix in
  if splitOutputY then
    (n, [sendOscFloatParam (prefix ++ "EyeLeftX") (Real scaledLeftTheta2);
         sendOscFloatParam (prefix ++ "EyeRightX") (Real scaledRightTheta2);
         sendOscFloatParam (prefix ++ "EyeLeftY") (negated leftOffset);
         sendOscFloatParam (prefix ++ "EyeRightY") (negated rightOffset)])
  else
    (n, [sendOscFloatParam (prefix ++ "EyeLeftX") (Real scaledLeftTheta2);
         sendOscFloatParam (prefix ++ "EyeRightX") (Real scaledRightTheta2);
         sendOscFloatParam (prefix ++ "EyeY") (negated leftOffset)]).

Definition sendVrcftV2CombinedOpenness (openness : Q) (oscPrefix : string)
  : list Message :=
  let prefix := getVrcftV2Prefix oscPrefix in
  [sendOscFloatParam (prefix ++ "EyeLidLeft") (Real openness);
   sendOscFloatParam (prefix ++ "EyeLidRight") (Real openness)].

Definition sendVrcftV2IndependentOpenness (data : IndOpenness)
           (oscPrefix : string) : list Message :=
  let prefix := getVrcftV2Prefix oscPrefix in
  [sendOscFloatParam (prefix ++ "EyeLidLeft") (Real (o_leftOpenness data));
   sendOscFloatParam (prefix ++ "EyeLidRight") (Real (o_rightOpenness data))].

(** The messages of a call that the transmission service makes on
    [OscSenderUtils], and the maxima of [NormalizationUtils] after it;
    [updateOscClient] sends none. *)
Definition send (call : Transmission.OscCall) (n : NormalizationUtils.t)
  : NormalizationUtils.t * list Message :=
  match call with
  | Transmission.updateOscClient _ => (n, [])
  | Transmission.sendNativeIndependentPitchYaw d p v h =>
      (n, sendNativeIndependentPitchYaw d p v h)
  | Transmission.sendNativeCombinedPitchYaw d p v h =>
      (n, sendNativeCombinedPitchYaw d p v h)
  | Transmission.sendNativeEyeOpenness o nv =>
      (n, sendNativeEyeOpenness o nv)
  | Transmission.sendVrcftV1IndependentPitchYaw d p v h =>
      sendVrcftV1IndependentPitchYaw d p v h n
  | Transmission.sendVrcftV1CombinedPitchYaw d p v h =>
      sendVrcftV1CombinedPitchYaw d p v h n
  | Transmission.sendVrcftV1IndependentOpenness d =>
      (n, sendVrcftV1IndependentOpenness d)
  | Transmission.sendVrcftV1CombinedOpenness o =>
      (n, sendVrcftV1CombinedOpenness o)
  | Transmission.sendVrcftV2IndependentPitchYaw d p v h pre sp =>
      sendVrcftV2IndependentPitchYaw d p v h pre sp n
  | Transmission.sendVrcftV2CombinedPitchYaw d p v h pre sp =>
      sendVrcftV2CombinedPitchYaw d p v h pre sp n
  | Transmission.sendVrcftV2IndependentOpenness d pre =>
      (n, sendVrcftV2IndependentOpenness d pre)
  | Transmission.sendVrcftV2CombinedOpenness o pre =>
      (n, sendVrcftV2CombinedOpenness o pre)
  end.

(** The calls for gaze angles of the two VRCFaceTracking modes. *)
Definition isVrcftPitchYaw (call : Transmission.OscCall) : bool :=
  match call with
  | Transmission.sendVrcftV1IndependentPitchYaw _ _ _ _
  | Transmission.sendVrcftV1CombinedPitchYaw _ _ _ _
  | Transmission.sendVrcftV2IndependentPitchYaw _ _ _ _ _ _
  | Transmission.sendVrcftV2CombinedPitchYaw _ _ _ _ _ _ => true
  | _ => false
  end.

(** The pitch offset and the vertical exaggeration a call for gaze angles
    is made with. *)
Definition pitchOffsetOf (call : Transmission.OscCall) : Q :=
  match call with
  | Transmission.sendNativeIndependentPitchYaw _ p _ _
  | Transmission.sendNativeCombinedPitchYaw _ p _ _
  | Transmission.sendVrcftV1IndependentPitchYaw _ p _ _
  | Transmission.sendVrcftV1CombinedPitchYaw _ p _ _
  | Transmission.sendVrcftV2IndependentPitchYaw _ p _ _ _ _
  | Transmission.sendVrcftV2CombinedPitchYaw _ p _ _ _ _ => p
  | _ => 0
  end.

Definition verticalExaggerationOf (call : Transmission.OscCall) : Q :=
  match call with
  | Transmission.sendNativeIndependentPitchYaw _ _ v _
  | Transmission.sendNativeCombinedPitchYaw _ _ v _
  | Transmission.sendVrcftV1IndependentPitchYaw _ _ v _
  | Transmission.sendVrcftV1CombinedPitchYaw _ _ v _
  | Transmission.sendVrcftV2IndependentPitchYaw _ _ v _ _ _
  | Transmission.sendVrcftV2CombinedPitchYaw _ _ v _ _ _ => v
  | _ => 0
  end.

(** A message is a float parameter with a value in [-1, 1]. *)
Definition unitParam (m : Message) : Prop :=
  match m with
  | sendOscFloatParam _ (Real value) => -1 <= value <= 1
  | _ => False
  end.

(** A message is a float parameter whose value is [NaN]. *)
Definition nanParam (m : Message) : Prop :=
  match m with
  | sendOscFloatParam _ NaN => True
  | _ => False
  end.

(** The quotient of [calculateOffsetFraction] is taken and its divisor is
    0: the pitch offset is not 0 and both maxima of theta1 are 0. *)
Definition offsetInfinite (pitchOffset : Q) (n : NormalizationUtils.t) : Prop :=
  ~ pitchOffset == 0 /\ maxPosTheta1 n + Qabs (maxNegTheta1 n) == 0.

(** The value before the clamp, as a function of the inverted openness. *)
Definition closedAmount (neutralValue inverted : Q) : Q :=
  if Num.leb inverted (1 # 4) then neutralValue * (inverted / (1 # 4))
  else neutralValue + (1 - neutralValue) * ((inverted - (1 # 4)) / (3 # 4)).

(** The first, and the last, character of a string is a slash. *)
Definition startsWithSlash (s : string) : bool :=
  match s with
  | String c _ => isSlash c
  | EmptyString => false
  end.

Fixpoint endsWithSlash (s : string) : bool :=
  match s with
  | String c EmptyString => isSlash c
  | String _ s' => endsWithSlash s'
  | EmptyString => false
  end.

(** [prefix] after the [replace] of [getVrcftV2Prefix]. *)
Definition strippedPrefix (oscPrefix : string) : string :=
  stripTrailingSlashes (stripLeadingSlashes oscPrefix).

End OscSenderUtils.

(** ** src/services/cameraService.ts: [startCameraService] *)

Module StartCameraService.

Import CameraService.

(** The two module variables of one side: [leftConn] and
    [currentLeftIpPort], or [rightConn] and [currentRightIpPort].  A
    handle is the closure of the [connectWithReattempt] call that made
    it. *)
Record SideState := {
  conn : option World;
  currentIpPort : option string
}.

(** The module variables of the service, and the handles on which
    [close()] was called, latest first. *)
Record Service := {
  left : SideState;
  right : SideState;
  released : list World
}.

(** Truthiness of a string. *)
Definition nonEmpty (s : string) : bool := negb (String.eqb s "").

(** [newLeft !== currentLeftIpPort] *)
Definition ipDiffers (newIp : string) (current : option string) : bool :=
  match current with
  | Some ip => negb (String.eqb newIp ip)
  | None => true
  end.

(** [if (leftConn) { leftConn.close(); leftConn = null; }] *)
Definition closeConn (s : SideState) (rel : list World)
  : SideState * list World :=
  match conn s with
  | Some h => ({| conn := None; currentIpPort := currentIpPort s |},
               close h :: rel)
  | None => (s, rel)
  end.

(** The first statements of [startCameraService] for one side, with the
    store holding the configuration [c] and the clock at [now]. *)
Definition startSide (sd : Side) (c : ConfigState) (now : Q) : SideState :=
  let current := endpointOf sd c in
  {| conn := if nonEmpty current && negb (forcedOffline sd c)
             then Some (connectWithReattempt sd current now false c)
             else None;
     currentIpPort := Some current |}.

Definition startCameraService (c : ConfigState) (now : Q) : Service :=
  {| left := startSide leftEyeSide c now;
     right := startSide rightEyeSide c now;
     released := [] |}.

(** The block of the subscriber for one side.  The two blocks of the
    source differ in the side only. *)
Definition updateSide (sd : Side) (c : ConfigState) (now : Q)
           (s : SideState) (rel : list World) : SideState * list World :=
  let newIp := endpointOf sd c in
  let forced := forcedOffline sd c in
  if forced then closeConn s rel
  else
    let '(s, rel) :=
      if ipDiffers newIp (currentIpPort s) then
        let '(s, rel) :=
          closeConn {| conn := conn s; currentIpPort := Some newIp |} rel in
        if nonEmpty newIp && negb forced
        then ({| conn := Some (connectWithReattempt sd newIp now false c);
                 currentIpPort := currentIpPort s |}, rel)
        else (s, rel)
      else (s, rel) in
    if negb (bool_decide (is_Some (conn s))) && nonEmpty newIp && negb forced
    then ({| conn := Some (connectWithReattempt sd newIp now false c);
             currentIpPort := currentIpPort s |}, rel)
    else (s, rel).

(** The function given to [store.subscribe]: one call, with the store
    holding the configuration [c]. *)
Definition subscriber (c : ConfigState) (now : Q) (s : Service) : Service :=
  let '(l, rel) := updateSide leftEyeSide c now (left s) (released s) in
  let '(r, rel) := updateSide rightEyeSide c now (right s) rel in
  {| left := l; right := r; released := rel |}.

(** The service from its start through a sequence of store changes, each
    given by the configuration in the store after it and the clock. *)
Fixpoint storeChanges (changes : list (ConfigState * Q)) (s : Service)
  : Service :=
  match changes with
  | [] => s
  | (c, now) :: changes' => storeChanges changes' (subscriber c now s)
  end.

(** The configuration in the store after the changes. *)
Fixpoint lastConfig (c : ConfigState) (changes : list (ConfigState * Q))
  : ConfigState :=
  match changes with
  | [] => c
  | (c', _) :: changes' => lastConfig c' changes'
  end.

(** The variables of a side. *)
Definition sideOf (sd : Side) (s : Service) : SideState :=
  match sd with
  | leftEyeSide => left s
  | rightEyeSide => right s
  end.

(** What a side looks like after a call of the subscriber under the
    configuration [c]: there is a handle exactly when the side is not
    forced offline and has an endpoint, and the handle is an open one for
    this side and this endpoint. *)
Definition settled (sd : Side) (c : ConfigState) (s : SideState) : Prop :=
  match conn s with
  | Some h =>
      forcedOffline sd c = false
      /\ endpointOf sd c <> ""
      /\ side h = sd
      /\ ipPort h = endpointOf sd c
      /\ closed h = false
      /\ currentIpPort s = Some (endpointOf sd c)
  | None => forcedOffline sd c = true \/ endpointOf sd c = ""
  end.

(** A handle that a side holds is an open handle of that side for the
    endpoint the side has recorded, which is not empty. *)
Definition coherent (sd : Side) (s : SideState) : Prop :=
  match conn s with
  | Some h =>
      side h = sd /\ closed h = false
      /\ currentIpPort s = Some (ipPort h) /\ ipPort h <> ""
  | None => True
  end.

End StartCameraService.

(** ** src/services/cameraConnection.ts: the MJPEG stream parser *)

Module CameraConnection.

(** [a !== b] on two array elements; an index out of range reads
    [undefined], here [None]. *)
Definition elementDiffers (x y : option byte) : bool :=
  match x, y with
  | Some a, Some b => negb (Byte.eqb a b)
  | None, None => false
  | _, _ => true
  end.

(** [concatUint8Arrays(a, b)]: a new array of length
    [a.length + b.length] with [a] set at 0 and [b] at [a.length]. *)
Definition concatUint8Arrays (a b : list byte) : list byte := a ++ b.

(** The inner loop of [findSequence] from index [j], with [n] iterations
    left: [found] at its end. *)
Fixpoint matchFrom (buffer seq : list byte) (i j n : nat) : bool :=
  match n with
  | O => true
  | S n' =>
      if elementDiffers (buffer !! (i + j)%nat) (seq !! j) then false
      else matchFrom buffer seq i (S j) n'
  end.

(** The outer loop of [findSequence] from index [i], with [n] iterations
    left.  The result [-1] is [None]. *)
Fixpoint searchFrom (buffer seq : list byte) (i n : nat) : option nat :=
  match n with
  | O => None
  | S n' =>
      if matchFrom buffer seq i 0 (length seq) then Some i
      else searchFrom buffer seq (S i) n'
  end.

(** [findSequence(buffer, seq)]: [i] runs from 0 to
    [buffer.length - seq.length], which is no iteration at all when the
    sequence is longer than the buffer. *)
Definition findSequence (buffer seq : list byte) : option nat :=
  searchFrom buffer seq 0 (S (length buffer) - length seq).

Definition CRLF : string :=
  String (ascii_of_nat 13) (String (ascii_of_nat 10) EmptyString).

Definition boundaryStr : string :=
  (CRLF ++ "--123456789000000000000987654321" ++ CRLF)%string.

(** [new TextEncoder().encode(boundaryStr)] *)
Definition boundary : list byte := list_byte_of_string boundaryStr.

(** [new TextEncoder().encode("\r\n\r\n")] *)
Definition headerTerminator : list byte :=
  list_byte_of_string (CRLF ++ CRLF)%string.

(** The loop [while (boundaryIndex !== -1)] of the reader: the JPEG
    buffers given to [processFrame], in order, and the buffer that is
    left.  Every iteration removes at least the boundary from the buffer;
    [fuel] bounds the number of iterations. *)
Fixpoint extractFrames (fuel : nat) (buffer : list byte)
  : list (list byte) * list byte :=
  match fuel with
  | O => ([], buffer)
  | S fuel' =>
      match findSequence buffer boundary with
      | None => ([], buffer)
      | Some boundaryIndex =>
          let part := take boundaryIndex buffer in
          let buffer := drop (boundaryIndex + length boundary)%nat buffer in
          let processed :=
            match findSequence part headerTerminator with
            | Some headerEnd =>
                let jpegData :=
                  drop (headerEnd + length headerTerminator)%nat part in
                if (0 <? length jpegData)%nat then [jpegData] else []
            | None => []
            end in
          let '(frames, rest) := extractFrames fuel' buffer in
          (processed ++ frames, rest)
      end
  end.

(** One iteration of the reader loop on a chunk [value] that was read:
    the chunk is appended to the buffer and the frames are taken out. *)
Definition onChunk (buffer value : list byte) : list (list byte) * list byte :=
  let buffer := concatUint8Arrays buffer value in
  extractFrames (S (length buffer)) buffer.

(** The reader loop over the chunks of a stream, on a connection that is
    not cancelled, until the stream is done. *)
Fixpoint readStream (chunks : list (list byte)) (buffer : list byte)
  : list (list byte) * list byte :=
  match chunks with
  | [] => ([], buffer)
  | value :: chunks' =>
      let '(frames, buffer) := onChunk buffer value in
      let '(later, rest) := readStream chunks' buffer in
      (frames ++ later, rest)
  end.

(** [seq] occurs in [buffer] at index [i]. *)
Definition occursAt (buffer seq : list byte) (i : nat) : Prop :=
  exists pre post, buffer = pre ++ seq ++ post /\ length pre = i.

End CameraConnection.

(** ** Conditions and orders used to state properties of the filter *)

Module KalmanFacts.

Import AdaptiveKalmanFilter.

(** A filter whose error covariance and process noises are not negative
    and whose base measurement noise is positive, as the filters the
    manager builds from a configuration with such values are. *)
Definition wellFormed (f : t) : Prop :=
  0 <= errorCovariance f
  /\ 0 <= processNoiseSmall f
  /\ 0 <= processNoiseLarge f
  /\ 0 < measurementNoiseVariance f.

(** The order on effective measurement noises, with [Infinity] on top. *)
Definition noise_le (a b : noise) : Prop :=
  match a, b with
  | Finite x, Finite y => x <= y
  | _, Infinite => True
  | Infinite, Finite _ => False
  end.

(** [predictedErrorCovariance] of a call of [update]. *)
Definition predictedErrorCovariance (f : t) (measurement : Q) : Q :=
  errorCovariance f
  + (if Num.gtb (Qabs (measurement - stateEstimate f)) (changeThreshold f)
     then processNoiseLarge f else processNoiseSmall f).

End KalmanFacts.

(** Observations on a transmission pass: the OSC client and the openness
    caches. *)

Module OpennessPath.

Import Transmission.

(** The calls that re-point the OSC client. *)
Definition isClientCall (call : OscCall) : bool :=
  match call with
  | updateOscClient _ => true
  | _ => false
  end.

Definition clientCalls (calls : list OscCall) : list OscCall :=
  List.filter isClientCall calls.

(** The openness dispatches among the calls of a pass. *)
Definition isOpennessCall (call : OscCall) : bool :=
  match call with
  | sendNativeEyeOpenness _ _
  | sendVrcftV1IndependentOpenness _
  | sendVrcftV1CombinedOpenness _
  | sendVrcftV2IndependentOpenness _ _
  | sendVrcftV2CombinedOpenness _ _ => true
  | _ => false
  end.

Definition opennessCalls (calls : list OscCall) : list OscCall :=
  List.filter isOpennessCall calls.

(** The cache of the combined openness of a mode: the value dispatched
    last. *)
Definition previousCombined (m : Mode) (g : Globals) : option Q :=
  match m with
  | ModeNone => None
  | ModeNative => previousNativeOpenness g
  | ModeVrcftV1 => previousVrcftV1OpennessCombined g
  | ModeVrcftV2 => previousVrcftV2OpennessCombined g
  end.

(** The cache of the independent openness of a mode; the native mode has
    none. *)
Definition previousIndependent (m : Mode) (g : Globals) : option IndOpenness :=
  match m with
  | ModeVrcftV1 => previousVrcftV1OpennessIndependent g
  | ModeVrcftV2 => previousVrcftV2OpennessIndependent g
  | _ => None
  end.

(** The dispatch of a combined openness in a mode. *)
Definition combinedCall (m : Mode) (c : ConfigState) (v : Q) : list OscCall :=
  match m with
  | ModeNone => []
  | ModeNative => [sendNativeEyeOpenness v (vrcNativeNeutralValue c)]
  | ModeVrcftV1 => [sendVrcftV1CombinedOpenness v]
  | ModeVrcftV2 => [sendVrcftV2CombinedOpenness v (oscPrefix c)]
  end.

(** The dispatch of an independent openness pair in a mode. *)
Definition independentCall (m : Mode) (c : ConfigState) (d : IndOpenness)
  : list OscCall :=
  match m with
  | ModeVrcftV1 => [sendVrcftV1IndependentOpenness d]
  | ModeVrcftV2 => [sendVrcftV2IndependentOpenness d (oscPrefix c)]
  | _ => []
  end.

(** The pair of the left and right channel values of a pass. *)
Definition independentOutput (state : RootState) (now : Q) (g : Globals)
  : IndOpenness :=
  {| o_leftOpenness := Channel.output Channel.Left state now g;
     o_rightOpenness := Channel.output Channel.Right state now g |}.

End OpennessPath.

(** Both eyes of a pair hold one combined pair. *)
Definition duplicated (c : CombinedThetas) : IndThetas :=
  {| i_leftTheta1 := c_theta1 c; i_leftTheta2 := c_theta2 c;
     i_rightTheta1 := c_theta1 c; i_rightTheta2 := c_theta2 c |}.

(** The value of one axis as a function of its two maxima. *)
Definition axisValue (maxPos maxNeg deg : Q) : Q :=
  if Num.geb deg 0 then
    let maxPos' := if Num.gtb deg maxPos then deg else maxPos in
    if Num.eqb maxPos' 0 then 0 else deg / maxPos'
  else
    let maxNeg' := if Num.ltb deg maxNeg then deg else maxNeg in
    if Num.eqb maxNeg' 0 then 0 else deg / Qabs maxNeg'.

(** The initial configuration with the settings of the tracking
    computation changed: the tracking interval, the synced-update policy
    and the eyelid-based gaze trust. *)
Definition trackingConfig (rate : Q) (synced gazeTrust : bool) : ConfigState :=
  {| leftEye := leftEye initialState;
     rightEye := rightEye initialState;
     vrcOsc := vrcOsc initialState;
     vrcNative := vrcNative initialState;
     trackingRate := rate;
     modelFile := modelFile initialState;
     leftEyeForcedOffline := leftEyeForcedOffline initialState;
     rightEyeForcedOffline := rightEyeForcedOffline initialState;
     trackingForcedOffline := trackingForcedOffline initialState;
     measurementNoise := measurementNoise initialState;
     kalmanQLow := kalmanQLow initialState;
     kalmanQHigh := kalmanQHigh initialState;
     kalmanThreshold := kalmanThreshold initialState;
     kalmanThresholdOpenness := kalmanThresholdOpenness initialState;
     vrcftV1 := vrcftV1 initialState;
     vrcftV2 := vrcftV2 initialState;
     pitchOffset := pitchOffset initialState;
     independentEyes := independentEyes initialState;
     independentOpenness := independentOpenness initialState;
     activeEyeTracking := activeEyeTracking initialState;
     activeOpennessTracking := activeOpennessTracking initialState;
     opennessSliderHandles := opennessSliderHandles initialState;
     verticalExaggeration := verticalExaggeration initialState;
     horizontalExaggeration := horizontalExaggeration initialState;
     oscPrefix := oscPrefix initialState;
     splitOutputY := splitOutputY initialState;
     syncedEyeUpdates := synced;
     blinkReleaseDelayMs := blinkReleaseDelayMs initialState;
     eyelidBasedGazeTrust := gazeTrust;
     vrcNativeNeutralValue := vrcNativeNeutralValue initialState |}.

(** ** Example states *)

(** The manager after one [filterTwoAngles] call for the key
    ['combinedTheta'] with angles 10 and 20 and one [filterOpenness] call
    for the key ['leftOpenness'] with openness 0.75, both under the
    initial configuration. *)
Definition exampleManager : KalmanFilterManager.t :=
  let m0 := KalmanFilterManager.new in
  let m1 :=
    match KalmanFilterManager.filterTwoAngles m0 "combinedTheta" 10 20
                                              initialState 1 with
    | Some (m, _) => m
    | None => m0
    end in
  match KalmanFilterManager.filterOpenness m1 "leftOpenness" (3 # 4)
                                           initialState with
  | Some (m, _) => m
  | None => m1
  end.

(** The filters that manager holds. *)
Definition exampleAngleFilter (angle : Q) : AdaptiveKalmanFilter.t :=
  fst (AdaptiveKalmanFilter.update
         (KalmanFilterManager.newAngleFilter initialState angle) angle 1).

Definition exampleOpennessFilter : AdaptiveKalmanFilter.t :=
  fst (AdaptiveKalmanFilter.update
         (KalmanFilterManager.newOpennessFilter initialState (3 # 4)) (3 # 4) 1).

(** A store state with both cameras online, with the given frames and
    frame timestamps. *)
Definition twoCameras (c : ConfigState) (leftFrame : string) (leftTs : Q)
           (rightFrame : string) (rightTs : Q) : RootState :=
  {| config := c;
     imageLeftEye := {| frame := leftFrame; timestamp := Some leftTs;
                        status := online |};
     imageRightEye := {| frame := rightFrame; timestamp := Some rightTs;
                         status := online |};
     tracking := thetas 0 0 0 0 0 0 |}.

(** The variables of the tracking computation with the given last-processed
    timestamps, no model folder and no pass under way. *)
Definition lastProcessed (left right : Q) : TrackingComputation.Globals :=
  {| TrackingComputation.currentModelFolder := "";
     TrackingComputation.ongoingTracking := false;
     TrackingComputation.previousLeftTimestamp := left;
     TrackingComputation.previousRightTimestamp := right |}.

(** A store state with the left camera online and the right camera
    offline without a frame. *)
Definition leftCameraOnly (c : ConfigState) (leftFrame : string) (leftTs : Q)
  : RootState :=
  {| config := c;
     imageLeftEye := {| frame := leftFrame; timestamp := Some leftTs;
                        status := online |};
     imageRightEye := {| frame := ""; timestamp := None; status := offline |};
     tracking := thetas 0 0 0 0 0 0 |}.

(** A handle for the left camera at 192.168.0.10:81, made at clock 0, whose
    connection reported an error at once, [ms] milliseconds later. *)
Definition backoffWorld (ms : Q) : CameraService.World :=
  let w0 :=
    CameraService.connectWithReattempt
      CameraService.leftEyeSide "192.168.0.10:81" 0 false
      (cameraConfig "192.168.0.10:81" "" false false) in
  match CameraService.run
          [CameraService.ConnectionError; CameraService.TimePasses ms] w0 with
  | Some w => w
  | None => w0
  end.

(** * Properties *)

(** ** Comparisons *)

Section Comparisons.

Lemma ltb_true (x y : Q) : Num.ltb x y = true <-> x < y.
Proof.
  unfold Num.ltb. rewrite negb_true_iff, <- not_true_iff_false, Qle_bool_iff.
  split; [apply Qnot_le_lt | apply Qlt_not_le].
Qed.

Lemma ltb_false (x y : Q) : Num.ltb x y = false <-> y <= x.
Proof. unfold Num.ltb. rewrite negb_false_iff. apply Qle_bool_iff. Qed.

Lemma leb_true (x y : Q) : Num.leb x y = true <-> x <= y.
Proof. apply Qle_bool_iff. Qed.

Lemma leb_false (x y : Q) : Num.leb x y = false <-> y < x.
Proof.
  unfold Num.leb. rewrite <- not_true_iff_false, Qle_bool_iff.
  split; [apply Qnot_le_lt | apply Qlt_not_le].
Qed.

Lemma eqb_true (x y : Q) : Num.eqb x y = true <-> x == y.
Proof. apply Qeq_bool_iff. Qed.

Lemma eqb_false (x y : Q) : Num.eqb x y = false <-> ~ x == y.
Proof.
  unfold Num.eqb. rewrite <- not_true_iff_false, Qeq_bool_iff. reflexivity.
Qed.

Lemma neqb_true (x y : Q) : Num.neqb x y = true <-> ~ x == y.
Proof. unfold Num.neqb. rewrite negb_true_iff. apply eqb_false. Qed.

Lemma neqb_false (x y : Q) : Num.neqb x y = false <-> x == y.
Proof. unfold Num.neqb. rewrite negb_false_iff. apply eqb_true. Qed.

End Comparisons.

(** Turns the boolean comparisons among the hypotheses into order facts. *)
Ltac reflect_num :=
  repeat match goal with
  | H : Num.ltb _ _ = true |- _ => apply ltb_true in H
  | H : Num.ltb _ _ = false |- _ => apply ltb_false in H
  | H : Num.gtb _ _ = true |- _ => apply ltb_true in H
  | H : Num.gtb _ _ = false |- _ => apply ltb_false in H
  | H : Num.leb _ _ = true |- _ => apply leb_true in H
  | H : Num.leb _ _ = false |- _ => apply leb_false in H
  | H : Num.geb _ _ = true |- _ => apply leb_true in H
  | H : Num.geb _ _ = false |- _ => apply leb_false in H
  | H : Num.eqb _ _ = true |- _ => apply eqb_true in H
  | H : Num.eqb _ _ = false |- _ => apply eqb_false in H
  | H : Num.neqb _ _ = true |- _ => apply neqb_true in H
  | H : Num.neqb _ _ = false |- _ => apply neqb_false in H
  end.

(** ** The functions on some inputs *)

(** A jump of 10 degrees at full trust takes the high process noise:
    the gain is 51/55. *)
Example update_after_jump :
  Qred (snd (AdaptiveKalmanFilter.update
               (AdaptiveKalmanFilter.new 0 1 4 (3 # 100) 50 2) 10 1))
  = 102 # 11.
Proof. reflexivity. Qed.

(** The transform under the initial handles 0.15, 0.65, 0.95 and 1. *)
Example transformOpenness_initial_handles :
  List.map (fun v => Qred (Transmission.transformOpenness
                             v (opennessSliderHandles initialState)))
           [1 # 10; 4 # 10; 8 # 10; 975 # 1000; 1; 2]
  = [0; 3 # 8; 3 # 4; 7 # 8; 1; 1].
Proof. reflexivity. Qed.

(** Inputs 10, -4 and -2 on a fresh first axis, and input 0 on a fresh
    one. *)
Example normalizeTheta1_sequence :
  let s1 := NormalizationUtils.normalizeTheta1 NormalizationUtils.initial 10 in
  let s2 := NormalizationUtils.normalizeTheta1 (fst s1) (-4) in
  let s3 := NormalizationUtils.normalizeTheta1 (fst s2) (-2) in
  (Qred (snd s1), Qred (snd s2), Qred (snd s3),
   snd (NormalizationUtils.normalizeTheta1 NormalizationUtils.initial 0))
  = (1, -1, -1 # 2, 0).
Proof. reflexivity. Qed.

Example trim_spaces :
  TrackingComputation.trim "  ab c  " = "ab c"
  /\ TrackingComputation.nonBlank "   " = false
  /\ TrackingComputation.nonBlank " x" = true.
Proof. repeat split. Qed.

(** ** The adaptive Kalman filter *)

Section KalmanUpdate.

Import AdaptiveKalmanFilter.

Lemma clampedTrust_range (trust : Q) : 0 <= clampedTrust trust <= 1.
Proof.
  unfold clampedTrust.
  destruct (Q.max_spec 0 (Qmin trust 1)) as [[? E]|[? E]];
    destruct (Q.min_spec trust 1) as [[? E']|[? E']];
    rewrite E; try rewrite E'; lra.
Qed.

(** The clamped trust of a trust at or above 0.75 is at or above 0.75, and
    the clamped trust of a trust at or below 0 is 0. *)
Lemma clampedTrust_high (trust : Q) : 3 # 4 <= trust -> 3 # 4 <= clampedTrust trust.
Proof.
  intros H. unfold clampedTrust.
  destruct (Q.max_spec 0 (Qmin trust 1)) as [[? E]|[? E]];
    destruct (Q.min_spec trust 1) as [[? E']|[? E']];
    rewrite E; try rewrite E'; lra.
Qed.

Lemma clampedTrust_low (trust : Q) : trust <= 0 -> clampedTrust trust == 0.
Proof.
  intros H. unfold clampedTrust.
  destruct (Q.max_spec 0 (Qmin trust 1)) as [[? E]|[? E]];
    destruct (Q.min_spec trust 1) as [[? E']|[? E']];
    rewrite E; try rewrite E'; lra.
Qed.

(** The value [update] returns is the prediction corrected by the gain
    computed from the effective measurement noise. *)
Lemma update_returns (f : t) (measurement trust : Q) :
  let processNoise :=
    if Num.gtb (Qabs (measurement - stateEstimate f)) (changeThreshold f)
    then processNoiseLarge f else processNoiseSmall f in
  snd (update f measurement trust)
  = stateEstimate f
    + gain (errorCovariance f + processNoise) (effectiveMeasurementNoise f trust)
      * (measurement - stateEstimate f).
Proof. reflexivity. Qed.



End KalmanUpdate.

(** ** The openness transform *)

Section OpennessTransform.

Import Transmission.

Lemma ramp_range (a b x : Q) : a <= x -> x < b -> 0 <= (x - a) / (b - a) < 1.
Proof.
  intros Hax Hxb. split.
  - apply Qle_shift_div_l; lra.
  - apply Qlt_shift_div_r; lra.
Qed.

Lemma ramp_mono (a b x y : Q) :
  a < b -> x <= y -> (x - a) / (b - a) <= (y - a) / (b - a).
Proof.
  intros Hab Hxy. unfold Qdiv. apply Qmult_le_compat_r; [lra|].
  apply Qlt_le_weak, Qinv_lt_0_compat. lra.
Qed.

Variables h0 h1 h2 h3 : Q.

Let T (v : Q) : Q := transformOpenness v (h0, h1, h2, h3).

Lemma transform_below (v : Q) : v < h0 -> T v = 0.
Proof.
  intros H. unfold T, transformOpenness.
  apply ltb_true in H. rewrite H. reflexivity.
Qed.

Lemma transform_ramp1 (v : Q) :
  h0 <= v -> v < h1 -> T v = ((v - h0) / (h1 - h0)) * (3 # 4).
Proof.
  intros H0 H1. unfold T, transformOpenness.
  apply ltb_false in H0. apply ltb_true in H1. rewrite H0, H1. reflexivity.
Qed.

Lemma transform_flat (v : Q) : h0 <= v -> h1 <= v -> v < h2 -> T v = 3 # 4.
Proof.
  intros H0 H1 H2. unfold T, transformOpenness.
  apply ltb_false in H0, H1. apply ltb_true in H2.
  rewrite H0, H1, H2. reflexivity.
Qed.

Lemma transform_ramp2 (v : Q) :
  h0 <= v -> h1 <= v -> h2 <= v -> v < h3 ->
  T v = (3 # 4) + ((v - h2) / (h3 - h2)) * (1 # 4).
Proof.
  intros H0 H1 H2 H3. unfold T, transformOpenness.
  apply ltb_false in H0, H1, H2. apply ltb_true in H3.
  rewrite H0, H1, H2, H3. reflexivity.
Qed.

Lemma transform_above (v : Q) :
  h0 <= v -> h1 <= v -> h2 <= v -> h3 <= v -> T v = 1.
Proof.
  intros H0 H1 H2 H3. unfold T, transformOpenness.
  apply ltb_false in H0, H1, H2, H3. rewrite H0, H1, H2, H3. reflexivity.
Qed.

(** The transform takes one of its five pieces, whatever the order of the
    handles. *)
Lemma transform_piece (v : Q) : piece h0 h1 h2 h3 v (T v).
Proof.
  destruct (Qlt_le_dec v h0) as [L0|L0];
    [rewrite transform_below by assumption; constructor; assumption|].
  destruct (Qlt_le_dec v h1) as [L1|L1];
    [rewrite transform_ramp1 by assumption; constructor; assumption|].
  destruct (Qlt_le_dec v h2) as [L2|L2];
    [rewrite transform_flat by assumption; constructor; assumption|].
  destruct (Qlt_le_dec v h3) as [L3|L3];
    [rewrite transform_ramp2 by assumption; constructor; assumption|].
  rewrite transform_above by assumption. constructor; assumption.
Qed.

Hypothesis H01 : h0 <= h1.
Hypothesis H12 : h1 <= h2.
Hypothesis H23 : h2 <= h3.

Lemma transform_mono (v w : Q) : v <= w -> T v <= T w.
Proof.
  intros Hvw.
  destruct (transform_piece v) as [?|A0 A1|?|A0 A1 A2 A3|?];
    destruct (transform_piece w) as [?|B0 B1|?|B0 B1 B2 B3|?];
    try lra;
    try pose proof (ramp_range h0 h1 v A0 A1);
    try pose proof (ramp_range h0 h1 w B0 B1);
    try pose proof (ramp_range h2 h3 v A2 A3);
    try pose proof (ramp_range h2 h3 w B2 B3);
    try (assert (h0 < h1) by lra; pose proof (ramp_mono h0 h1 v w ltac:(assumption) Hvw));
    try (assert (h2 < h3) by lra; pose proof (ramp_mono h2 h3 v w ltac:(assumption) Hvw));
    lra.
Qed.

Lemma transform_range (v : Q) : 0 <= T v <= 1.
Proof.
  destruct (transform_piece v) as [?|A0 A1|?|A0 A1 A2 A3|?];
    try pose proof (ramp_range h0 h1 v A0 A1);
    try pose proof (ramp_range h2 h3 v A2 A3);
    lra.
Qed.

Lemma transform_h1 : h1 < h3 -> T h1 == 3 # 4.
Proof.
  intros H.
  destruct (transform_piece h1) as [?|A0 A1|?|A0 A1 A2 A3|?]; try lra.
  assert (E : h1 == h2) by lra.
  assert (E' : h1 - h2 == 0) by lra.
  rewrite E'. unfold Qdiv. ring.
Qed.

Lemma transform_h2 : h2 < h3 -> T h2 == 3 # 4.
Proof.
  intros H.
  destruct (transform_piece h2) as [?|A0 A1|?|A0 A1 A2 A3|?]; try lra.
  assert (E' : h2 - h2 == 0) by lra.
  rewrite E'. unfold Qdiv. ring.
Qed.

End OpennessTransform.

(** C2, as the code has it.  For handles in order, the transform is 0 below
    the first handle, the ramp from 0 to 0.75 between the first and the
    second, 0.75 from the second up to (not including) the third, the ramp
    from 0.75 to 1 from the third up to (not including) the fourth, and 1
    from the fourth upwards; it is monotonic and stays in [0,1].  At the
    second handle it is 0.75 when that handle is below the fourth, at the
    third it is 0.75 when the third is below the fourth, and 1 when the
    third and fourth coincide. *)
Theorem transformOpenness_piecewise (h0 h1 h2 h3 : Q) :
  h0 <= h1 -> h1 <= h2 -> h2 <= h3 ->
  let T v := Transmission.transformOpenness v (h0, h1, h2, h3) in
  (forall v, v < h0 -> T v == 0)
  /\ (forall v, h0 <= v < h1 -> T v == ((v - h0) / (h1 - h0)) * (3 # 4))
  /\ (forall v, h1 <= v < h2 -> T v == 3 # 4)
  /\ (forall v, h2 <= v < h3 -> T v == (3 # 4) + ((v - h2) / (h3 - h2)) * (1 # 4))
  /\ (forall v, h3 <= v -> T v == 1)
  /\ (h1 < h3 -> T h1 == 3 # 4)
  /\ (h2 < h3 -> T h2 == 3 # 4)
  /\ (h2 == h3 -> T h2 == 1)
  /\ (forall v w, v <= w -> T v <= T w)
  /\ (forall v, 0 <= T v <= 1).
Proof.
  intros H01 H12 H23 T.
  split; [intros v H; unfold T; rewrite transform_below by assumption; reflexivity|].
  split; [intros v [Ha Hb]; unfold T; rewrite transform_ramp1 by assumption; reflexivity|].
  split; [intros v [Ha Hb]; unfold T; rewrite transform_flat by lra; reflexivity|].
  split; [intros v [Ha Hb]; unfold T; rewrite transform_ramp2 by lra; reflexivity|].
  split; [intros v H; unfold T; rewrite transform_above by lra; reflexivity|].
  split; [apply transform_h1; assumption|].
  split; [apply transform_h2; assumption|].
  split; [intros E; unfold T; rewrite transform_above by lra; reflexivity|].
  split; [intros v w; apply transform_mono; assumption|].
  intros v; apply transform_range; assumption.
Qed.

(** The handles the configuration starts with: 0.15, 0.65, 0.95 and 1. *)
Lemma transformOpenness_piecewise_witness :
  let T v := Transmission.transformOpenness v (15 # 100, 65 # 100, 95 # 100, 1) in
  T (65 # 100) == 3 # 4 /\ T (95 # 100) == 3 # 4 /\ T (1 # 10) <= T (2 # 10).
Proof.
  intros T.
  destruct (transformOpenness_piecewise (15 # 100) (65 # 100) (95 # 100) 1)
    as (_ & _ & _ & _ & _ & A & B & _ & M & _);
    [discriminate | discriminate | discriminate |].
  split; [apply A; reflexivity|].
  split; [apply B; reflexivity|].
  apply M. discriminate.
Defined.

(** C2 as stated fails where the third and the fourth handle coincide: with
    handles 0.15, 0.65, 1 and 1 the transform at the third handle is 1. *)
Lemma transformOpenness_h2_counterexample :
  ~ (forall h0 h1 h2 h3 : Q,
       h0 <= h1 -> h1 <= h2 -> h2 <= h3 ->
       Transmission.transformOpenness h2 (h0, h1, h2, h3) == 3 # 4).
Proof.
  intros H.
  specialize (H (15 # 100) (65 # 100) 1 1).
  assert (E : Transmission.transformOpenness 1 (15 # 100, 65 # 100, 1, 1) = 1)
    by reflexivity.
  rewrite E in H.
  assert (C : 1 == 3 # 4) by (apply H; discriminate).
  discriminate C.
Qed.

(** ** The choice between combined and per-eye angles *)

Section IndependentThetas.

Import EyeSelectionUtils.

(** C5.  With both eyes online and [leftTheta2 - rightTheta2 < 0], the
    independent query returns the combined pair for the left and for the
    right eye. *)
Theorem independent_divergent_returns_combined (state : RootState) :
  status (imageLeftEye state) = online ->
  status (imageRightEye state) = online ->
  leftTheta2 (tracking state) - rightTheta2 (tracking state) < 0 ->
  chooseIndependentEyeThetas state
  = {| i_leftTheta1 := theta1 (tracking state);
       i_leftTheta2 := theta2 (tracking state);
       i_rightTheta1 := theta1 (tracking state);
       i_rightTheta2 := theta2 (tracking state) |}.
Proof.
  intros HL HR Hdiv. unfold chooseIndependentEyeThetas.
  rewrite HL, HR. cbn [isOnline andb].
  apply ltb_true in Hdiv. rewrite Hdiv. reflexivity.
Qed.

(** C10.  With both eyes online the independent query returns the
    combined theta1 for both eyes, in the convergent case too, where the
    theta2 values returned are the per-eye ones; the stored per-eye
    theta1 values have no influence on the result. *)
Theorem independent_theta1_is_combined (state : RootState) :
  status (imageLeftEye state) = online ->
  status (imageRightEye state) = online ->
  let r := chooseIndependentEyeThetas state in
  i_leftTheta1 r = theta1 (tracking state)
  /\ i_rightTheta1 r = theta1 (tracking state)
  /\ (0 <= leftTheta2 (tracking state) - rightTheta2 (tracking state) ->
      i_leftTheta2 r = leftTheta2 (tracking state)
      /\ i_rightTheta2 r = rightTheta2 (tracking state))
  /\ (forall t' : TrackingData,
        theta1 t' = theta1 (tracking state) ->
        theta2 t' = theta2 (tracking state) ->
        leftTheta2 t' = leftTheta2 (tracking state) ->
        rightTheta2 t' = rightTheta2 (tracking state) ->
        chooseIndependentEyeThetas (withTracking state t') = r).
Proof.
  intros HL HR r. subst r. unfold chooseIndependentEyeThetas.
  rewrite HL, HR. cbn [isOnline andb withTracking tracking imageLeftEye
                         imageRightEye status].
  repeat split.
  - destruct (Num.ltb _ _); reflexivity.
  - destruct (Num.ltb _ _); reflexivity.
  - apply ltb_false in H. rewrite H. reflexivity.
  - apply ltb_false in H. rewrite H. reflexivity.
  - intros t' E1 E2 E3 E4. rewrite HL, HR, E1, E2, E3, E4. reflexivity.
Qed.

End IndependentThetas.

(** Both eyes online, left theta2 of 1 below right theta2 of 2. *)
Lemma independent_divergent_returns_combined_witness :
  EyeSelectionUtils.chooseIndependentEyeThetas
    (bothOnline initialState (thetas 3 4 5 1 6 2))
  = {| i_leftTheta1 := 3; i_leftTheta2 := 4;
       i_rightTheta1 := 3; i_rightTheta2 := 4 |}.
Proof.
  apply (independent_divergent_returns_combined
           (bothOnline initialState (thetas 3 4 5 1 6 2)));
    reflexivity.
Defined.

(** Both eyes online, left theta2 of 2 above right theta2 of 1: the per-eye
    theta1 values 5 and 6 are not returned. *)
Lemma independent_theta1_is_combined_witness :
  let r := EyeSelectionUtils.chooseIndependentEyeThetas
             (bothOnline initialState (thetas 3 4 5 2 6 1)) in
  i_leftTheta1 r = 3 /\ i_rightTheta1 r = 3
  /\ i_leftTheta2 r = 2 /\ i_rightTheta2 r = 1.
Proof.
  destruct (independent_theta1_is_combined
              (bothOnline initialState (thetas 3 4 5 2 6 1)))
    as (A & B & C & _); [reflexivity | reflexivity |].
  destruct C as [C1 C2]; [discriminate|].
  repeat split; assumption.
Defined.

(** Splits every conditional and every pair binding of the goal. *)
Ltac split_branches :=
  repeat match goal with
  | |- context [let '(_, _) := ?p in _] => destruct p eqn:?
  | |- context [if ?b then _ else _] => destruct b eqn:?
  end.

(** ** Change suppression of the angle dispatches *)

Section AngleSuppression.

Import Transmission AnglePath EyeSelectionUtils EqualityUtils.

Lemma angleCalls_app (l1 l2 : list OscCall) :
  angleCalls (l1 ++ l2) = angleCalls l1 ++ angleCalls l2.
Proof. apply List.filter_app. Qed.

(** Step 2 leaves the angle caches alone and dispatches no angles. *)
Lemma updateEndpoint_angles (c : ConfigState) (api : bool) (g : Globals) (m : Mode) :
  previousCombined m (fst (updateEndpoint c api g)) = previousCombined m g
  /\ previousIndependent m (fst (updateEndpoint c api g)) = previousIndependent m g
  /\ angleCalls (snd (updateEndpoint c api g)) = [].
Proof.
  unfold updateEndpoint. split_branches; destruct m; repeat split; reflexivity.
Qed.

(** So does the openness half of a pass. *)
Lemma opennessPass_angles (state : RootState) (now : Q) (g : Globals) (m : Mode) :
  previousCombined m (fst (opennessPass state now g)) = previousCombined m g
  /\ previousIndependent m (fst (opennessPass state now g)) = previousIndependent m g
  /\ angleCalls (snd (opennessPass state now g)) = [].
Proof.
  unfold opennessPass, nativeOpenness, vrcftV1Openness, vrcftV2Openness.
  destruct (currentMode (config state)); split_branches;
    destruct m; repeat split; reflexivity.
Qed.

Lemma isEqualCombinedThetas_true (a b : CombinedThetas) :
  isEqualCombinedThetas a b = true
  <-> Qabs (c_theta1 a - c_theta1 b) < EPSILON
      /\ Qabs (c_theta2 a - c_theta2 b) < EPSILON.
Proof.
  unfold isEqualCombinedThetas. rewrite andb_true_iff, !ltb_true. reflexivity.
Qed.

Lemma isEqualCombinedThetas_false (a b : CombinedThetas) :
  isEqualCombinedThetas a b = false
  <-> EPSILON <= Qabs (c_theta1 a - c_theta1 b)
      \/ EPSILON <= Qabs (c_theta2 a - c_theta2 b).
Proof.
  unfold isEqualCombinedThetas. rewrite andb_false_iff, !ltb_false. reflexivity.
Qed.

Lemma isEqualIndThetas_true (a b : IndThetas) :
  isEqualIndThetas a b = true
  <-> Qabs (i_leftTheta1 a - i_leftTheta1 b) < EPSILON
      /\ Qabs (i_leftTheta2 a - i_leftTheta2 b) < EPSILON
      /\ Qabs (i_rightTheta1 a - i_rightTheta1 b) < EPSILON
      /\ Qabs (i_rightTheta2 a - i_rightTheta2 b) < EPSILON.
Proof.
  unfold isEqualIndThetas. rewrite !andb_true_iff, !ltb_true. tauto.
Qed.

Lemma isEqualIndThetas_false (a b : IndThetas) :
  isEqualIndThetas a b = false
  <-> EPSILON <= Qabs (i_leftTheta1 a - i_leftTheta1 b)
      \/ EPSILON <= Qabs (i_leftTheta2 a - i_leftTheta2 b)
      \/ EPSILON <= Qabs (i_rightTheta1 a - i_rightTheta1 b)
      \/ EPSILON <= Qabs (i_rightTheta2 a - i_rightTheta2 b).
Proof.
  unfold isEqualIndThetas. rewrite !andb_false_iff, !ltb_false. tauto.
Qed.

(** The combined path of the eye-movement half: nothing happens when the new
    pair equals the cached one within the tolerance, and the new pair is
    dispatched and cached when it does not. *)
Lemma thetasPass_combined (state : RootState) (g : Globals) (p : CombinedThetas) :
  let c := config state in
  let m := currentMode c in
  let n := chooseCombinedEyeThetas state in
  m <> ModeNone -> activeEyeTracking c = true -> independentEyes c = false ->
  previousCombined m g = Some p ->
  (isEqualCombinedThetas n p = true -> thetasPass state g = (g, []))
  /\ (isEqualCombinedThetas n p = false ->
      snd (thetasPass state g) = combinedCall m c n
      /\ previousCombined m (fst (thetasPass state g)) = Some n).
Proof.
  intros c m n Hm Ha Hi Hp. subst c m n.
  unfold thetasPass, nativeThetas, vrcftV1Thetas, vrcftV2Thetas.
  destruct (currentMode (config state)); [congruence| | |];
    rewrite Ha, Hi; cbn [previousCombined] in Hp; rewrite Hp;
    cbn [changedCombinedThetas]; split; intros E; rewrite E; cbn;
    repeat split; reflexivity.
Qed.

(** The independent path of the eye-movement half. *)
Lemma thetasPass_independent (state : RootState) (g : Globals) (p : IndThetas) :
  let c := config state in
  let m := currentMode c in
  let n := chooseIndependentEyeThetas state in
  m <> ModeNone -> activeEyeTracking c = true -> independentEyes c = true ->
  previousIndependent m g = Some p ->
  (isEqualIndThetas n p = true -> thetasPass state g = (g, []))
  /\ (isEqualIndThetas n p = false ->
      snd (thetasPass state g) = independentCall m c n
      /\ previousIndependent m (fst (thetasPass state g)) = Some n).
Proof.
  intros c m n Hm Ha Hi Hp. subst c m n.
  unfold thetasPass, nativeThetas, vrcftV1Thetas, vrcftV2Thetas.
  destruct (currentMode (config state)); [congruence| | |];
    rewrite Ha, Hi; cbn [previousIndependent] in Hp; rewrite Hp;
    cbn [changedIndThetas]; split; intros E; rewrite E; cbn;
    repeat split; reflexivity.
Qed.

(** The angle dispatches and the angle caches of a whole pass are those of
    its eye-movement half, run on the variables as step 2 leaves them. *)
Lemma pass_angles (state : RootState) (now : Q) (api : bool) (g : Globals) (m : Mode) :
  let g0 := fst (updateEndpoint (config state) api g) in
  let r := startTrackingTransmission state now api g in
  angleCalls (snd r) = angleCalls (snd (thetasPass state g0))
  /\ previousCombined m (fst r) = previousCombined m (fst (thetasPass state g0))
  /\ previousIndependent m (fst r) = previousIndependent m (fst (thetasPass state g0)).
Proof.
  intros g0 r. subst g0 r. unfold startTrackingTransmission.
  pose proof (updateEndpoint_angles (config state) api g m) as (_ & _ & U).
  destruct (updateEndpoint (config state) api g) as [g0 calls0].
  cbn [fst snd] in *.
  destruct (thetasPass state g0) as [g1 calls1].
  pose proof (opennessPass_angles state now g1 m) as (O1 & O2 & O3).
  destruct (opennessPass state now g1) as [g2 calls2].
  cbn [fst snd] in *.
  rewrite !angleCalls_app, U, O3, app_nil_r. auto.
Qed.

Lemma angleCalls_combinedCall (m : Mode) (c : ConfigState) (d : CombinedThetas) :
  angleCalls (combinedCall m c d) = combinedCall m c d.
Proof. destruct m; reflexivity. Qed.

Lemma angleCalls_independentCall (m : Mode) (c : ConfigState) (d : IndThetas) :
  angleCalls (independentCall m c d) = independentCall m c d.
Proof. destruct m; reflexivity. Qed.

(** C4.  In a pass in a mode other than off with eye tracking active, on
    the combined path and on the independent path alike: when every
    component of the new angles differs from the cached value, which is the
    value dispatched last, by less than 0.001, nothing is dispatched and
    the cache keeps that value; when some component differs from it by
    0.001 or more, the new angles are dispatched and become the cached
    value. *)
Theorem angle_change_suppression
        (state : RootState) (now : Q) (api : bool) (g : Globals) :
  let c := config state in
  let m := currentMode c in
  let r := startTrackingTransmission state now api g in
  m <> ModeNone -> activeEyeTracking c = true ->
  (independentEyes c = false ->
   forall p, previousCombined m g = Some p ->
   let n := chooseCombinedEyeThetas state in
   (Qabs (c_theta1 n - c_theta1 p) < EPSILON
    /\ Qabs (c_theta2 n - c_theta2 p) < EPSILON ->
    angleCalls (snd r) = [] /\ previousCombined m (fst r) = Some p)
   /\ (EPSILON <= Qabs (c_theta1 n - c_theta1 p)
       \/ EPSILON <= Qabs (c_theta2 n - c_theta2 p) ->
       angleCalls (snd r) = combinedCall m c n
       /\ previousCombined m (fst r) = Some n))
  /\ (independentEyes c = true ->
      forall p, previousIndependent m g = Some p ->
      let n := chooseIndependentEyeThetas state in
      (Qabs (i_leftTheta1 n - i_leftTheta1 p) < EPSILON
       /\ Qabs (i_leftTheta2 n - i_leftTheta2 p) < EPSILON
       /\ Qabs (i_rightTheta1 n - i_rightTheta1 p) < EPSILON
       /\ Qabs (i_rightTheta2 n - i_rightTheta2 p) < EPSILON ->
       angleCalls (snd r) = [] /\ previousIndependent m (fst r) = Some p)
      /\ (EPSILON <= Qabs (i_leftTheta1 n - i_leftTheta1 p)
          \/ EPSILON <= Qabs (i_leftTheta2 n - i_leftTheta2 p)
          \/ EPSILON <= Qabs (i_rightTheta1 n - i_rightTheta1 p)
          \/ EPSILON <= Qabs (i_rightTheta2 n - i_rightTheta2 p) ->
          angleCalls (snd r) = independentCall m c n
          /\ previousIndependent m (fst r) = Some n)).
Proof.
  intros c m r Hm Ha. subst r.
  pose proof (pass_angles state now api g m) as (P1 & P2 & P3).
  pose proof (updateEndpoint_angles (config state) api g m) as (U1 & U2 & _).
  cbv zeta in P1, P2, P3. rewrite P1, P2, P3. clear P1 P2 P3.
  set (g0 := fst (updateEndpoint (config state) api g)) in *.
  split.
  - intros Hi p Hp n. rewrite <- U1 in Hp.
    destruct (thetasPass_combined state g0 p Hm Ha Hi Hp) as [Eq Ne].
    split.
    + intros H. apply isEqualCombinedThetas_true in H.
      rewrite (Eq H). split; [reflexivity | exact Hp].
    + intros H. apply isEqualCombinedThetas_false in H.
      destruct (Ne H) as [N1 N2]. rewrite N1, angleCalls_combinedCall.
      split; [reflexivity | exact N2].
  - intros Hi p Hp n. rewrite <- U2 in Hp.
    destruct (thetasPass_independent state g0 p Hm Ha Hi Hp) as [Eq Ne].
    split.
    + intros H. apply isEqualIndThetas_true in H.
      rewrite (Eq H). split; [reflexivity | exact Hp].
    + intros H. apply isEqualIndThetas_false in H.
      destruct (Ne H) as [N1 N2]. rewrite N1, angleCalls_independentCall.
      split; [reflexivity | exact N2].
Qed.

End AngleSuppression.

(** Native mode, combined path, pair (0,0) dispatched last: a new pair
    (0.0005, 0) is not dispatched, a new pair (0.002, 0) is. *)
Lemma angle_change_suppression_witness :
  let c := transmissionConfig true false false false false false in
  let g := Transmission.set_previousNativeCombinedThetas
             (Some {| c_theta1 := 0; c_theta2 := 0 |}) Transmission.initial in
  AnglePath.angleCalls
    (snd (Transmission.startTrackingTransmission
            (bothOnline c (thetas (5 # 10000) 0 0 0 0 0)) 1000 true g)) = []
  /\ AnglePath.angleCalls
       (snd (Transmission.startTrackingTransmission
               (bothOnline c (thetas (2 # 1000) 0 0 0 0 0)) 1000 true g))
     = [Transmission.sendNativeCombinedPitchYaw
          {| c_theta1 := 2 # 1000; c_theta2 := 0 |} 0 1 1].
Proof.
  intros c g. split.
  - destruct (angle_change_suppression
                (bothOnline c (thetas (5 # 10000) 0 0 0 0 0)) 1000 true g)
      as [H _]; [discriminate | reflexivity |].
    destruct (H eq_refl {| c_theta1 := 0; c_theta2 := 0 |} eq_refl) as [H1 _].
    apply H1. split; reflexivity.
  - destruct (angle_change_suppression
                (bothOnline c (thetas (2 # 1000) 0 0 0 0 0)) 1000 true g)
      as [H _]; [discriminate | reflexivity |].
    destruct (H eq_refl {| c_theta1 := 0; c_theta2 := 0 |} eq_refl) as [_ H2].
    apply H2. left. discriminate.
Defined.

(** In every pass the angle caches follow the dispatches: either no angles
    are dispatched and both caches of the mode are as before, or one
    dispatch is made and its cache holds what was dispatched. *)
Lemma angle_cache_holds_last_dispatch
      (state : RootState) (now : Q) (api : bool) (g : Transmission.Globals) :
  let c := config state in
  let m := Transmission.currentMode c in
  let r := Transmission.startTrackingTransmission state now api g in
  (AnglePath.angleCalls (snd r) = []
   /\ AnglePath.previousCombined m (fst r) = AnglePath.previousCombined m g
   /\ AnglePath.previousIndependent m (fst r) = AnglePath.previousIndependent m g)
  \/ (exists n, AnglePath.angleCalls (snd r) = AnglePath.combinedCall m c n
                /\ AnglePath.previousCombined m (fst r) = Some n
                /\ m <> Transmission.ModeNone)
  \/ (exists n, AnglePath.angleCalls (snd r) = AnglePath.independentCall m c n
                /\ AnglePath.previousIndependent m (fst r) = Some n
                /\ m <> Transmission.ModeNone).
Proof.
  intros c m r. subst r.
  pose proof (pass_angles state now api g m) as (P1 & P2 & P3).
  pose proof (updateEndpoint_angles (config state) api g m) as (U1 & U2 & _).
  cbv zeta in P1, P2, P3. rewrite P1, P2, P3, <- U1, <- U2. clear P1 P2 P3 U1 U2.
  generalize (fst (Transmission.updateEndpoint (config state) api g)). intros g0.
  subst m c.
  unfold Transmission.thetasPass, Transmission.nativeThetas,
    Transmission.vrcftV1Thetas, Transmission.vrcftV2Thetas.
  destruct (Transmission.currentMode (config state)); split_branches;
    solve [ left; repeat split; reflexivity
          | right; left; eexists; repeat split; try reflexivity; discriminate
          | right; right; eexists; repeat split; try reflexivity; discriminate ].
Qed.

(** The comparison is with the pair dispatched last, not with the pair
    computed last: after (0,0) has been dispatched, (0.0006, 0) is held
    back, and (0.0012, 0), which is within the tolerance of (0.0006, 0), is
    dispatched. *)
Lemma angle_drift_is_dispatched :
  let c := transmissionConfig true false false false false false in
  let pass t g :=
    Transmission.startTrackingTransmission
      (bothOnline c (thetas t 0 0 0 0 0)) 1000 true g in
  let r1 := pass 0 Transmission.initial in
  let r2 := pass (6 # 10000) (fst r1) in
  let r3 := pass (12 # 10000) (fst r2) in
  AnglePath.angleCalls (snd r1)
  = [Transmission.sendNativeCombinedPitchYaw {| c_theta1 := 0; c_theta2 := 0 |} 0 1 1]
  /\ AnglePath.angleCalls (snd r2) = []
  /\ AnglePath.angleCalls (snd r3)
     = [Transmission.sendNativeCombinedPitchYaw
          {| c_theta1 := 12 # 10000; c_theta2 := 0 |} 0 1 1].
Proof. repeat split. Qed.

(** ** Blink-release hysteresis *)

(** Uses the equations that [split_branches] leaves for the blink-release
    lines. *)
Ltac use_blinkRelease :=
  repeat match goal with
  | H : Transmission.blinkRelease _ _ _ _ = _ |- _ =>
      cbn [Transmission.lastClosedTimestampCombined
           Transmission.lastClosedTimestampLeft
           Transmission.lastClosedTimestampRight
           Transmission.set_lastClosedTimestampCombined
           Transmission.set_lastClosedTimestampLeft
           Transmission.set_lastClosedTimestampRight] in H;
      try rewrite H; clear H
  end.


Section BlinkRelease.

Import Transmission.

Lemma blinkRelease_hold (v now lastClosed delay : Q) :
  now <= lastClosed + delay -> fst (blinkRelease v now lastClosed delay) == 0.
Proof.
  intros H. unfold blinkRelease.
  destruct (Num.eqb v 0) eqn:E; [apply eqb_true in E; exact E|].
  apply leb_true in H. rewrite H. reflexivity.
Qed.

Lemma blinkRelease_release (v now lastClosed delay : Q) :
  lastClosed + delay < now -> fst (blinkRelease v now lastClosed delay) = v.
Proof.
  intros H. unfold blinkRelease.
  destruct (Num.eqb v 0); [reflexivity|].
  apply leb_false in H. rewrite H. reflexivity.
Qed.

Lemma blinkRelease_latch (v now lastClosed delay : Q) :
  snd (blinkRelease v now lastClosed delay)
  = if Num.eqb v 0 then now else lastClosed.
Proof.
  unfold blinkRelease.
  destruct (Num.eqb v 0); [reflexivity|].
  destruct (Num.leb now (lastClosed + delay)); reflexivity.
Qed.

(** Step 2 and the eye-movement half of a pass leave the closed-at
    timestamps alone and dispatch no openness. *)
Lemma updateEndpoint_openness (ch : Channel.t) (c : ConfigState) (api : bool)
      (g : Globals) :
  Channel.lastClosed ch (fst (updateEndpoint c api g)) = Channel.lastClosed ch g
  /\ (forall call, In call (snd (updateEndpoint c api g)) ->
                   Channel.carried ch call = None).
Proof.
  unfold updateEndpoint. split_branches; destruct ch; cbn;
    (split; [reflexivity | intros call; intuition (subst; reflexivity)]).
Qed.

Lemma thetasPass_openness (ch : Channel.t) (state : RootState) (g : Globals) :
  Channel.lastClosed ch (fst (thetasPass state g)) = Channel.lastClosed ch g
  /\ (forall call, In call (snd (thetasPass state g)) ->
                   Channel.carried ch call = None).
Proof.
  unfold thetasPass, nativeThetas, vrcftV1Thetas, vrcftV2Thetas.
  destruct (currentMode (config state)); split_branches; destruct ch; cbn;
    (split; [reflexivity | intros call; intuition (subst; reflexivity)]).
Qed.

(** The openness half moves the closed-at timestamp of a channel exactly
    when the channel is handled and its transformed value is 0. *)
Lemma opennessPass_lastClosed (ch : Channel.t) (state : RootState) (now : Q)
      (g : Globals) :
  Channel.lastClosed ch (fst (opennessPass state now g))
  = if Channel.active ch (config state)
    then snd (blinkRelease (Channel.transformed ch state) now
                           (Channel.lastClosed ch g)
                           (blinkReleaseDelayMs (config state)))
    else Channel.lastClosed ch g.
Proof.
  unfold opennessPass, nativeOpenness, vrcftV1Openness, vrcftV2Openness,
    Channel.active, Channel.transformed, Channel.raw.
  destruct (currentMode (config state));
    destruct (activeOpennessTracking (config state)); cbn [andb];
    try destruct (independentOpenness (config state)); cbn [negb];
    destruct ch; cbn [Channel.lastClosed];
    split_branches; use_blinkRelease; reflexivity.
Qed.

(** Every openness value it dispatches is the value of the channel after
    the blink-release lines. *)
Lemma opennessPass_carried (ch : Channel.t) (state : RootState) (now : Q)
      (g : Globals) (call : OscCall) (v : Q) :
  In call (snd (opennessPass state now g)) ->
  Channel.carried ch call = Some v ->
  v = Channel.output ch state now g.
Proof.
  unfold opennessPass, nativeOpenness, vrcftV1Openness, vrcftV2Openness,
    Channel.output, Channel.transformed, Channel.raw.
  destruct (currentMode (config state));
    split_branches; cbn [snd fst In];
    intros Hin Hc;
    repeat match goal with
           | H : _ \/ _ |- _ => destruct H
           | H : False |- _ => destruct H
           end;
    subst; destruct ch; cbn in Hc; try discriminate;
    injection Hc as <-; cbn [Channel.lastClosed]; use_blinkRelease; reflexivity.
Qed.

Lemma pass_lastClosed (ch : Channel.t) (state : RootState) (now : Q) (api : bool)
      (g : Globals) :
  Channel.lastClosed ch (fst (startTrackingTransmission state now api g))
  = if Channel.active ch (config state)
    then snd (blinkRelease (Channel.transformed ch state) now
                           (Channel.lastClosed ch g)
                           (blinkReleaseDelayMs (config state)))
    else Channel.lastClosed ch g.
Proof.
  unfold startTrackingTransmission.
  pose proof (updateEndpoint_openness ch (config state) api g) as [U _].
  destruct (updateEndpoint (config state) api g) as [g0 calls0].
  pose proof (thetasPass_openness ch state g0) as [P _].
  destruct (thetasPass state g0) as [g1 calls1].
  pose proof (opennessPass_lastClosed ch state now g1) as O.
  destruct (opennessPass state now g1) as [g2 calls2].
  cbn [fst snd] in *. rewrite O, P, U. reflexivity.
Qed.

Lemma pass_carried (ch : Channel.t) (state : RootState) (now : Q) (api : bool)
      (g : Globals) (call : OscCall) (v : Q) :
  In call (snd (startTrackingTransmission state now api g)) ->
  Channel.carried ch call = Some v ->
  v = Channel.output ch state now g.
Proof.
  unfold startTrackingTransmission.
  pose proof (updateEndpoint_openness ch (config state) api g) as [U U'].
  destruct (updateEndpoint (config state) api g) as [g0 calls0].
  pose proof (thetasPass_openness ch state g0) as [P P'].
  destruct (thetasPass state g0) as [g1 calls1].
  pose proof (opennessPass_carried ch state now g1 call v) as O.
  destruct (opennessPass state now g1) as [g2 calls2].
  cbn [fst snd] in *. intros Hin Hc.
  apply in_app_or in Hin. destruct Hin as [Hin|Hin];
    [rewrite (U' call Hin) in Hc; discriminate|].
  apply in_app_or in Hin. destruct Hin as [Hin|Hin];
    [rewrite (P' call Hin) in Hc; discriminate|].
  rewrite (O Hin Hc). unfold Channel.output. rewrite P, U. reflexivity.
Qed.

End BlinkRelease.

Section BlinkReleaseRuns.

Import Transmission.

(** Passes whose clock is at or after [T] keep the closed-at timestamp at or
    after [T]. *)
Lemma passes_lastClosed_ge (ch : Channel.t) (api : bool) (T : Q)
      (l : list (RootState * Q)) (g : Globals) :
  (forall p, In p l -> T <= snd p) ->
  T <= Channel.lastClosed ch g ->
  T <= Channel.lastClosed ch (passes l api g).
Proof.
  revert g. induction l as [|[state now] l IH]; intros g Hl Hg; [exact Hg|].
  cbn [passes]. apply IH.
  - intros p Hp. apply Hl. right. exact Hp.
  - rewrite pass_lastClosed.
    destruct (Channel.active ch (config state)); [|exact Hg].
    rewrite blinkRelease_latch.
    destruct (Num.eqb _ 0); [|exact Hg].
    apply (Hl (state, now)). left. reflexivity.
Qed.

(** Passes in which the channel, where handled, is never at 0 leave its
    closed-at timestamp where it is. *)
Lemma passes_lastClosed_same (ch : Channel.t) (api : bool)
      (l : list (RootState * Q)) (g : Globals) :
  (forall p, In p l ->
             Channel.active ch (config (fst p)) = true ->
             ~ Channel.transformed ch (fst p) == 0) ->
  Channel.lastClosed ch (passes l api g) = Channel.lastClosed ch g.
Proof.
  revert g. induction l as [|[state now] l IH]; intros g Hl; [reflexivity|].
  cbn [passes]. rewrite IH.
  - rewrite pass_lastClosed.
    destruct (Channel.active ch (config state)) eqn:A; [|reflexivity].
    rewrite blinkRelease_latch.
    destruct (Num.eqb _ 0) eqn:E; [|reflexivity].
    apply eqb_true in E. exfalso. exact (Hl (state, now) (or_introl eq_refl) A E).
  - intros p Hp. apply Hl. right. exact Hp.
Qed.

(** C3, as the code has it.  Let a pass at time [T] handle a channel whose
    transformed value is 0, and let the passes after it have clocks at or
    after [T].  Then a pass at a time up to and including
    [T + blinkReleaseDelayMs] has 0 as the value of the channel, whatever
    the raw reading; a pass at a time strictly after
    [T + blinkReleaseDelayMs], with no pass in between in which the channel
    was at 0, has the transformed value as the value of the channel; and
    every openness value the pass dispatches for the channel is that
    value. *)
Theorem blink_release_hysteresis
        (ch : Channel.t) (api : bool) (g0 : Globals)
        (closing : RootState) (T : Q) (between : list (RootState * Q))
        (state : RootState) (now : Q) :
  Channel.active ch (config closing) = true ->
  Channel.transformed ch closing == 0 ->
  (forall p, In p between -> T <= snd p) ->
  let g := passes ((closing, T) :: between) api g0 in
  let delay := blinkReleaseDelayMs (config state) in
  (now <= T + delay -> Channel.output ch state now g == 0)
  /\ (T + delay < now ->
      (forall p, In p between ->
                 Channel.active ch (config (fst p)) = true ->
                 ~ Channel.transformed ch (fst p) == 0) ->
      Channel.output ch state now g = Channel.transformed ch state)
  /\ (forall call v,
        In call (snd (startTrackingTransmission state now api g)) ->
        Channel.carried ch call = Some v ->
        v = Channel.output ch state now g).
Proof.
  intros Hact Hzero Hclock g delay.
  assert (Hlatch : Channel.lastClosed ch
                     (fst (startTrackingTransmission closing T api g0)) = T).
  { rewrite pass_lastClosed, Hact, blinkRelease_latch.
    apply eqb_true in Hzero. rewrite Hzero. reflexivity. }
  split; [|split].
  - intros Hnow. unfold Channel.output. apply blinkRelease_hold.
    assert (T <= Channel.lastClosed ch g).
    { subst g. cbn [passes]. apply passes_lastClosed_ge; [exact Hclock|].
      rewrite Hlatch. apply Qle_refl. }
    fold delay. lra.
  - intros Hnow Hnz. unfold Channel.output. apply blinkRelease_release.
    subst g. cbn [passes]. rewrite passes_lastClosed_same by exact Hnz.
    rewrite Hlatch. exact Hnow.
  - intros call v. apply pass_carried.
Qed.

End BlinkReleaseRuns.

(** Native mode with openness tracking on and the initial delay of 25 ms:
    the combined value is 0 at time 1000; at 1020 a reading of 0.8 gives 0,
    at 1026 it gives its transformed value 0.75. *)
Lemma blink_release_hysteresis_witness :
  let c := transmissionConfig true false false false false true in
  let g := Transmission.passes [(bothOnline c (opennesses 0 0 0), 1000)]
                               true Transmission.initial in
  let state := bothOnline c (opennesses (8 # 10) 0 0) in
  Channel.output Channel.Combined state 1020 g == 0
  /\ Channel.output Channel.Combined state 1026 g
     = Channel.transformed Channel.Combined state.
Proof.
  intros c g state. split.
  - apply (blink_release_hysteresis Channel.Combined true Transmission.initial
             (bothOnline c (opennesses 0 0 0)) 1000 [] state 1020);
      [reflexivity | reflexivity | intros p [] | discriminate].
  - apply (blink_release_hysteresis Channel.Combined true Transmission.initial
             (bothOnline c (opennesses 0 0 0)) 1000 [] state 1026);
      [reflexivity | reflexivity | intros p [] | reflexivity | intros p []].
Defined.

(** C3 as stated fails at the boundary: a pass exactly at
    [T + blinkReleaseDelayMs] still has 0 as the value of the channel.
    Native mode, delay 25 ms, combined value 0 at time 1000; at time 1025 a
    reading of 0.8, whose transformed value is 0.75, gives 0. *)
Lemma blink_release_boundary_counterexample :
  ~ (forall (ch : Channel.t) (api : bool) (g0 : Transmission.Globals)
            (closing : RootState) (T : Q) (state : RootState) (now : Q),
        Channel.active ch (config closing) = true ->
        Channel.transformed ch closing == 0 ->
        T + blinkReleaseDelayMs (config state) <= now ->
        Channel.output ch state now
          (Transmission.passes [(closing, T)] api g0)
        == Channel.transformed ch state).
Proof.
  intros H.
  set (c := transmissionConfig true false false false false true).
  specialize (H Channel.Combined true Transmission.initial
                (bothOnline c (opennesses 0 0 0)) 1000
                (bothOnline c (opennesses (8 # 10) 0 0)) 1025).
  assert (E : Channel.output Channel.Combined
                (bothOnline c (opennesses (8 # 10) 0 0)) 1025
                (Transmission.passes [(bothOnline c (opennesses 0 0 0), 1000)]
                                     true Transmission.initial) = 0)
    by reflexivity.
  assert (E' : Channel.transformed Channel.Combined
                 (bothOnline c (opennesses (8 # 10) 0 0)) = 3 # 4)
    by reflexivity.
  rewrite E, E' in H.
  assert (C : 0 == 3 # 4)
    by (apply H; [reflexivity | reflexivity | discriminate]).
  discriminate C.
Qed.

(** ** The filter manager *)

Section FilterManager.

Import KalmanFilterManager.

Lemma anglesConfigChanged_true (config : ConfigState) (last : KalmanConfig) :
  anglesConfigChanged config (Some last) = true
  <-> ~ measurementNoise config == kc_measurementNoise last
      \/ ~ kalmanQLow config == kc_kalmanQLow last
      \/ ~ kalmanQHigh config == kc_kalmanQHigh last
      \/ ~ kalmanThreshold config == kc_kalmanThreshold last.
Proof.
  unfold anglesConfigChanged. rewrite !orb_true_iff, !neqb_true. tauto.
Qed.

Lemma anglesConfigChanged_false (config : ConfigState) (last : KalmanConfig) :
  anglesConfigChanged config (Some last) = false
  <-> measurementNoise config == kc_measurementNoise last
      /\ kalmanQLow config == kc_kalmanQLow last
      /\ kalmanQHigh config == kc_kalmanQHigh last
      /\ kalmanThreshold config == kc_kalmanThreshold last.
Proof.
  unfold anglesConfigChanged. rewrite !orb_false_iff, !neqb_false. tauto.
Qed.

Lemma opennessConfigChanged_true (config : ConfigState) (last : KalmanConfig) :
  opennessConfigChanged config (Some last) = true
  <-> ~ measurementNoise config == kc_measurementNoise last
      \/ ~ kalmanQLow config == kc_kalmanQLow last
      \/ ~ kalmanQHigh config == kc_kalmanQHigh last
      \/ ~ kalmanThreshold config == kc_kalmanThreshold last
      \/ ~ kalmanThresholdOpenness config == kc_kalmanThresholdOpenness last.
Proof.
  unfold opennessConfigChanged. rewrite !orb_true_iff, !neqb_true. tauto.
Qed.

Lemma opennessConfigChanged_false (config : ConfigState) (last : KalmanConfig) :
  opennessConfigChanged config (Some last) = false
  <-> measurementNoise config == kc_measurementNoise last
      /\ kalmanQLow config == kc_kalmanQLow last
      /\ kalmanQHigh config == kc_kalmanQHigh last
      /\ kalmanThreshold config == kc_kalmanThreshold last
      /\ kalmanThresholdOpenness config == kc_kalmanThresholdOpenness last.
Proof.
  unfold opennessConfigChanged. rewrite !orb_false_iff, !neqb_false. tauto.
Qed.

(** Neither method ever calls [update] on a [null] filter. *)
Lemma filterTwoAngles_returns (m : t) (modelId : string) (angle1 angle2 : Q)
      (config : ConfigState) (trust : Q) :
  is_Some (filterTwoAngles m modelId angle1 angle2 config trust).
Proof.
  unfold filterTwoAngles, anglesReinitialize.
  destruct (anglesEntry m modelId) as [[f1|] [f2|] last]; cbn;
    try destruct (anglesConfigChanged config last); cbn; eauto.
Qed.

Lemma filterOpenness_returns (m : t) (modelId : string) (openness : Q)
      (config : ConfigState) :
  is_Some (filterOpenness m modelId openness config).
Proof.
  unfold filterOpenness, opennessReinitialize.
  destruct (opennessEntry m modelId) as [[f|] last]; cbn;
    try destruct (opennessConfigChanged config last); cbn; eauto.
Qed.

(** A key the manager has not seen gets new filters. *)
Lemma filterTwoAngles_first_call (m : t) (modelId : string) (angle1 angle2 : Q)
      (config : ConfigState) (trust : Q) :
  filterMap m !! modelId = None ->
  filterTwoAngles m modelId angle1 angle2 config trust
  = Some (updateAngles m modelId (newAngleFilter config angle1)
                       (newAngleFilter config angle2)
                       (Some (snapshot config)) angle1 angle2 trust).
Proof.
  intros H. unfold filterTwoAngles, anglesReinitialize, anglesEntry.
  rewrite H. reflexivity.
Qed.

Lemma filterOpenness_first_call (m : t) (modelId : string) (openness : Q)
      (config : ConfigState) :
  opennessFilterMap m !! modelId = None ->
  filterOpenness m modelId openness config
  = Some (updateOpenness m modelId (newOpennessFilter config openness)
                         (Some (snapshot config)) openness).
Proof.
  intros H. unfold filterOpenness, opennessReinitialize, opennessEntry.
  rewrite H. reflexivity.
Qed.

(** C6, as the code has it.  For a channel key whose filters exist with a
    stored snapshot: [filterTwoAngles] discards both filters and builds new
    ones from the current configuration when the base measurement noise,
    the low or high process noise or the angle threshold differs from the
    snapshot, and keeps and updates the existing filters when these four
    agree (the openness threshold is not looked at); [filterOpenness]
    discards its filter and builds a new one when any of the five
    parameters differs from the snapshot, and keeps and updates the
    existing filter when all five agree. *)
Theorem manager_reinitialization (m : t) (modelId : string) (config : ConfigState) :
  (forall f1 f2 last angle1 angle2 trust,
      filterMap m !! modelId
      = Some {| filter1 := Some f1; filter2 := Some f2;
                lastKalmanConfig := Some last |} ->
      (~ measurementNoise config == kc_measurementNoise last
       \/ ~ kalmanQLow config == kc_kalmanQLow last
       \/ ~ kalmanQHigh config == kc_kalmanQHigh last
       \/ ~ kalmanThreshold config == kc_kalmanThreshold last ->
       filterTwoAngles m modelId angle1 angle2 config trust
       = Some (updateAngles m modelId (newAngleFilter config angle1)
                            (newAngleFilter config angle2)
                            (Some (snapshot config)) angle1 angle2 trust))
      /\ (measurementNoise config == kc_measurementNoise last
          /\ kalmanQLow config == kc_kalmanQLow last
          /\ kalmanQHigh config == kc_kalmanQHigh last
          /\ kalmanThreshold config == kc_kalmanThreshold last ->
          filterTwoAngles m modelId angle1 angle2 config trust
          = Some (updateAngles m modelId f1 f2 (Some last)
                               angle1 angle2 trust)))
  /\ (forall f last openness,
        opennessFilterMap m !! modelId
        = Some {| filter := Some f; o_lastKalmanConfig := Some last |} ->
        (~ measurementNoise config == kc_measurementNoise last
         \/ ~ kalmanQLow config == kc_kalmanQLow last
         \/ ~ kalmanQHigh config == kc_kalmanQHigh last
         \/ ~ kalmanThreshold config == kc_kalmanThreshold last
         \/ ~ kalmanThresholdOpenness config == kc_kalmanThresholdOpenness last ->
         filterOpenness m modelId openness config
         = Some (updateOpenness m modelId (newOpennessFilter config openness)
                                (Some (snapshot config)) openness))
        /\ (measurementNoise config == kc_measurementNoise last
            /\ kalmanQLow config == kc_kalmanQLow last
            /\ kalmanQHigh config == kc_kalmanQHigh last
            /\ kalmanThreshold config == kc_kalmanThreshold last
            /\ kalmanThresholdOpenness config == kc_kalmanThresholdOpenness last ->
            filterOpenness m modelId openness config
            = Some (updateOpenness m modelId f (Some last) openness))).
Proof.
  split.
  - intros f1 f2 last angle1 angle2 trust He.
    unfold filterTwoAngles, anglesReinitialize, anglesEntry. rewrite He.
    cbn [filter1 filter2 lastKalmanConfig].
    rewrite !bool_decide_eq_true_2 by eauto. cbn [negb orb].
    split; intros H.
    + apply anglesConfigChanged_true in H. rewrite H. reflexivity.
    + apply anglesConfigChanged_false in H. rewrite H. reflexivity.
  - intros f last openness He.
    unfold filterOpenness, opennessReinitialize, opennessEntry. rewrite He.
    cbn [filter o_lastKalmanConfig].
    rewrite !bool_decide_eq_true_2 by eauto. cbn [negb orb].
    split; intros H.
    + apply opennessConfigChanged_true in H. rewrite H. reflexivity.
    + apply opennessConfigChanged_false in H. rewrite H. reflexivity.
Qed.

End FilterManager.

Lemma exampleManager_angles :
  KalmanFilterManager.filterMap exampleManager !! "combinedTheta"
  = Some {| KalmanFilterManager.filter1 := Some (exampleAngleFilter 10);
            KalmanFilterManager.filter2 := Some (exampleAngleFilter 20);
            KalmanFilterManager.lastKalmanConfig :=
              Some (KalmanFilterManager.snapshot initialState) |}.
Proof. reflexivity. Qed.

Lemma exampleManager_openness :
  KalmanFilterManager.opennessFilterMap exampleManager !! "leftOpenness"
  = Some {| KalmanFilterManager.filter := Some exampleOpennessFilter;
            KalmanFilterManager.o_lastKalmanConfig :=
              Some (KalmanFilterManager.snapshot initialState) |}.
Proof. reflexivity. Qed.

(** On the example manager: a call of [filterTwoAngles] with the base
    measurement noise changed from 4 to 5 builds new filters, and a call of
    [filterOpenness] with the initial configuration keeps the filter. *)
Lemma manager_reinitialization_witness :
  KalmanFilterManager.filterTwoAngles exampleManager "combinedTheta" 0 0
    (kalmanConfig 5 (3 # 100) 50 2 (3 # 100)) 1
  = Some (KalmanFilterManager.updateAngles exampleManager "combinedTheta"
            (KalmanFilterManager.newAngleFilter
               (kalmanConfig 5 (3 # 100) 50 2 (3 # 100)) 0)
            (KalmanFilterManager.newAngleFilter
               (kalmanConfig 5 (3 # 100) 50 2 (3 # 100)) 0)
            (Some (KalmanFilterManager.snapshot
                     (kalmanConfig 5 (3 # 100) 50 2 (3 # 100)))) 0 0 1)
  /\ KalmanFilterManager.filterOpenness exampleManager "leftOpenness" 0
       initialState
     = Some (KalmanFilterManager.updateOpenness exampleManager "leftOpenness"
               exampleOpennessFilter
               (Some (KalmanFilterManager.snapshot initialState)) 0).
Proof.
  split.
  - destruct (manager_reinitialization exampleManager "combinedTheta"
                (kalmanConfig 5 (3 # 100) 50 2 (3 # 100))) as [H _].
    destruct (H _ _ _ 0 0 1 exampleManager_angles) as [H1 _].
    apply H1. left. discriminate.
  - destruct (manager_reinitialization exampleManager "leftOpenness"
                initialState) as [_ H].
    destruct (H _ _ 0 exampleManager_openness) as [_ H2].
    apply H2. repeat split.
Defined.

(** C6 as stated fails for [filterTwoAngles]: a change of the openness
    threshold alone, here from 0.03 to 0.05, does not discard the angle
    filters.  On the example manager the call with angles 0 and 0 returns
    the estimate of the kept filter, which is not the 0 that a new filter
    would return. *)
Lemma filterTwoAngles_openness_threshold_counterexample :
  ~ (forall (m : KalmanFilterManager.t) (modelId : string)
            (config : ConfigState) f1 f2 last angle1 angle2 trust,
        KalmanFilterManager.filterMap m !! modelId
        = Some {| KalmanFilterManager.filter1 := Some f1;
                  KalmanFilterManager.filter2 := Some f2;
                  KalmanFilterManager.lastKalmanConfig := Some last |} ->
        ~ kalmanThresholdOpenness config
          == KalmanFilterManager.kc_kalmanThresholdOpenness last ->
        KalmanFilterManager.filterTwoAngles m modelId angle1 angle2 config trust
        = Some (KalmanFilterManager.updateAngles m modelId
                  (KalmanFilterManager.newAngleFilter config angle1)
                  (KalmanFilterManager.newAngleFilter config angle2)
                  (Some (KalmanFilterManager.snapshot config))
                  angle1 angle2 trust)).
Proof.
  intros H.
  specialize (H exampleManager "combinedTheta"
                (kalmanConfig 4 (3 # 100) 50 2 (5 # 100))
                _ _ _ 0 0 1 exampleManager_angles).
  assert (D : ~ kalmanThresholdOpenness (kalmanConfig 4 (3 # 100) 50 2 (5 # 100))
                == KalmanFilterManager.kc_kalmanThresholdOpenness
                     (KalmanFilterManager.snapshot initialState))
    by discriminate.
  specialize (H D).
  apply (f_equal (fun r : option (KalmanFilterManager.t * (Q * Q)) =>
                    match r with
                    | Some (_, (x, _)) => Some (Qnum x)
                    | None => None
                    end)) in H.
  vm_compute in H. discriminate H.
Qed.

(** ** The gates of the tracking computation *)

Section TrackingGates.

Import TrackingComputation.

(** C7, as the code has it.  With both eyes online and the synced policy
    off, a pass processes frames exactly when both frame timestamps are
    present and non-zero, the time since the last-processed timestamp of
    each eye is at least the tracking interval, both frame buffers are
    non-empty and at least one eye has a frame timestamp that differs from
    its last-processed timestamp; both eyes are then processed together,
    and the last-processed timestamp advances for the eyes that have a new
    frame only. *)
Theorem unsynced_gates (state : RootState) (now : Q) (g : Globals) :
  status (imageLeftEye state) = online ->
  status (imageRightEye state) = online ->
  syncedEyeUpdates (config state) = false ->
  let left := imageLeftEye state in
  let right := imageRightEye state in
  let rate := trackingRate (config state) in
  let leftNew := tsDiffers (timestamp left) (previousLeftTimestamp g) in
  let rightNew := tsDiffers (timestamp right) (previousRightTimestamp g) in
  let r := snd (gates state now g) in
  let g' := fst (gates state now g) in
  proceed r
  = tsTruthy (timestamp left) && tsTruthy (timestamp right)
    && Num.geb (now - previousLeftTimestamp g) rate
    && Num.geb (now - previousRightTimestamp g) rate
    && nonBlank (frame left) && nonBlank (frame right)
    && (leftNew || rightNew)
  /\ validLeft r = proceed r
  /\ validRight r = proceed r
  /\ Some (previousLeftTimestamp g')
     = (if proceed r && leftNew then timestamp left
        else Some (previousLeftTimestamp g))
  /\ Some (previousRightTimestamp g')
     = (if proceed r && rightNew then timestamp right
        else Some (previousRightTimestamp g)).
Proof.
  intros HL HR Hs left right rate leftNew rightNew r g'.
  subst r g' leftNew rightNew rate left right. unfold gates.
  rewrite HL, HR, Hs. cbn [isOnline andb].
  destruct (timestamp (imageLeftEye state)) as [leftTs|],
    (timestamp (imageRightEye state)) as [rightTs|];
    cbn [tsTruthy tsDiffers].
  - destruct (Num.neqb leftTs (previousLeftTimestamp g)),
      (Num.geb (now - previousLeftTimestamp g) (trackingRate (config state)));
      cbn [andb orb fst snd proceed validLeft validRight noGates
           previousLeftTimestamp previousRightTimestamp
           set_previousLeftTimestamp set_previousRightTimestamp];
      destruct (Num.truthy leftTs), (Num.truthy rightTs),
        (Num.geb (now - previousRightTimestamp g) (trackingRate (config state))),
        (nonBlank (frame (imageLeftEye state))),
        (nonBlank (frame (imageRightEye state))),
        (Num.neqb rightTs (previousRightTimestamp g));
      cbn [andb orb fst snd proceed validLeft validRight noGates
           previousLeftTimestamp previousRightTimestamp
           set_previousLeftTimestamp set_previousRightTimestamp];
      repeat split; reflexivity.
  - destruct (Num.truthy leftTs); cbn; repeat split; reflexivity.
  - cbn; repeat split; reflexivity.
  - cbn; repeat split; reflexivity.
Qed.

End TrackingGates.

(** Interval 25 ms, both frames present, last-processed timestamps 1000 and
    1000, clock 1100: a new left frame (timestamp 1090) with an old right
    frame (timestamp 1000) is enough for the pass to process both eyes, and
    only the left last-processed timestamp advances. *)
Lemma unsynced_gates_witness :
  let state := twoCameras initialState "data:L" 1090 "data:R" 1000 in
  let out := TrackingComputation.gates state 1100 (lastProcessed 1000 1000) in
  TrackingComputation.proceed (snd out) = true
  /\ TrackingComputation.validRight (snd out) = true
  /\ Some (TrackingComputation.previousLeftTimestamp (fst out)) = Some 1090
  /\ Some (TrackingComputation.previousRightTimestamp (fst out)) = Some 1000.
Proof.
  intros state out.
  destruct (unsynced_gates state 1100 (lastProcessed 1000 1000))
    as (A & B & C & D & E); try reflexivity.
  fold out in A, B, C, D, E.
  split; [exact A|]. split; [rewrite C; exact A|].
  split; [exact D | exact E].
Defined.

(** C7 as stated fails: an eye whose own gates pass is not processed while
    the other eye was processed less than the tracking interval ago.
    Interval 25 ms, clock 1100; the left eye has a new frame (timestamp
    1095, last processed 1000); the right eye was processed at 1090. *)
Lemma unsynced_own_gates_counterexample :
  ~ (forall (state : RootState) (now : Q) (g : TrackingComputation.Globals),
        status (imageLeftEye state) = online ->
        status (imageRightEye state) = online ->
        syncedEyeUpdates (config state) = false ->
        TrackingComputation.ownGates
          (imageLeftEye state) (TrackingComputation.previousLeftTimestamp g)
          now (trackingRate (config state)) = true ->
        TrackingComputation.validLeft
          (snd (TrackingComputation.gates state now g)) = true).
Proof.
  intros H.
  specialize (H (twoCameras initialState "data:L" 1095 "data:R" 1090)
                1100 (lastProcessed 1000 1090)
                eq_refl eq_refl eq_refl eq_refl).
  discriminate H.
Qed.

(** ** Range normalization *)

(** Closes the conjuncts that remain once the branch is fixed. *)
Ltac finish_cases :=
  repeat split; intros; try reflexivity; try lra; try contradiction.


Section Normalization.

Import NormalizationUtils.

Lemma pos_ratio (d m : Q) : 0 <= d -> d <= m -> ~ m == 0 -> 0 <= d / m <= 1.
Proof.
  intros Hd Hm Hz. assert (0 < m) by lra. split.
  - apply Qle_shift_div_l; lra.
  - apply Qle_shift_div_r; lra.
Qed.

Lemma neg_ratio (d m : Q) : d < 0 -> m <= d -> -1 <= d / Qabs m <= 0.
Proof.
  intros Hd Hm.
  assert (E : Qabs m == - m) by (apply Qabs_neg; lra).
  rewrite E. split.
  - apply Qle_shift_div_l; lra.
  - apply Qle_shift_div_r; lra.
Qed.

Lemma normalizeTheta1_signed (s : t) (deg : Q) :
  signed s -> signed (fst (normalizeTheta1 s deg)).
Proof.
  intros (A & B & C & D). unfold normalizeTheta1, signed.
  destruct (Num.geb deg 0) eqn:E0; cbn [fst];
    [destruct (Num.gtb deg (maxPosTheta1 s)) eqn:E1
    |destruct (Num.ltb deg (maxNegTheta1 s)) eqn:E1];
    cbn; reflect_num; repeat split; lra.
Qed.

Lemma normalizeTheta2_signed (s : t) (deg : Q) :
  signed s -> signed (fst (normalizeTheta2 s deg)).
Proof.
  intros (A & B & C & D). unfold normalizeTheta2, signed.
  destruct (Num.geb deg 0) eqn:E0; cbn [fst];
    [destruct (Num.gtb deg (maxPosTheta2 s)) eqn:E1
    |destruct (Num.ltb deg (maxNegTheta2 s)) eqn:E1];
    cbn; reflect_num; repeat split; lra.
Qed.

Lemma reachable_signed (s : t) : reachable s -> signed s.
Proof.
  induction 1 as [|s deg _ IH|s deg _ IH|s _ IH].
  - unfold signed; cbn; repeat split; lra.
  - apply normalizeTheta1_signed, IH.
  - apply normalizeTheta2_signed, IH.
  - unfold signed; cbn; repeat split; lra.
Qed.

Lemma normalizeTheta1_contract (s : t) (deg : Q) :
  signed s ->
  let s' := fst (normalizeTheta1 s deg) in
  contract (maxPosTheta1 s) (maxNegTheta1 s) (maxPosTheta1 s') (maxNegTheta1 s')
           deg (snd (normalizeTheta1 s deg))
  /\ maxPosTheta2 s' = maxPosTheta2 s
  /\ maxNegTheta2 s' = maxNegTheta2 s.
Proof.
  intros (A & B & C & D) s'. subst s'. unfold normalizeTheta1, contract.
  destruct (Num.geb deg 0) eqn:E0; reflect_num.
  - destruct (Num.gtb deg (maxPosTheta1 s)) eqn:E1; reflect_num;
      cbn [fst snd maxPosTheta1 maxNegTheta1 maxPosTheta2 maxNegTheta2].
    + destruct (Num.eqb deg 0) eqn:E2; reflect_num; [exfalso; lra|].
      pose proof (pos_ratio deg deg E0 (Qle_refl deg) E2). finish_cases.
    + destruct (Num.eqb (maxPosTheta1 s) 0) eqn:E2; reflect_num;
        [|pose proof (pos_ratio deg (maxPosTheta1 s) E0 E1 E2)]; finish_cases.
  - destruct (Num.ltb deg (maxNegTheta1 s)) eqn:E1; reflect_num;
      cbn [fst snd maxPosTheta1 maxNegTheta1 maxPosTheta2 maxNegTheta2].
    + destruct (Num.eqb deg 0) eqn:E2; reflect_num; [exfalso; lra|].
      pose proof (neg_ratio deg deg E0 (Qle_refl deg)). finish_cases.
    + destruct (Num.eqb (maxNegTheta1 s) 0) eqn:E2; reflect_num; [exfalso; lra|].
      pose proof (neg_ratio deg (maxNegTheta1 s) E0 E1). finish_cases.
Qed.

Lemma normalizeTheta2_contract (s : t) (deg : Q) :
  signed s ->
  let s' := fst (normalizeTheta2 s deg) in
  contract (maxPosTheta2 s) (maxNegTheta2 s) (maxPosTheta2 s') (maxNegTheta2 s')
           deg (snd (normalizeTheta2 s deg))
  /\ maxPosTheta1 s' = maxPosTheta1 s
  /\ maxNegTheta1 s' = maxNegTheta1 s.
Proof.
  intros (A & B & C & D) s'. subst s'. unfold normalizeTheta2, contract.
  destruct (Num.geb deg 0) eqn:E0; reflect_num.
  - destruct (Num.gtb deg (maxPosTheta2 s)) eqn:E1; reflect_num;
      cbn [fst snd maxPosTheta1 maxNegTheta1 maxPosTheta2 maxNegTheta2].
    + destruct (Num.eqb deg 0) eqn:E2; reflect_num; [exfalso; lra|].
      pose proof (pos_ratio deg deg E0 (Qle_refl deg) E2). finish_cases.
    + destruct (Num.eqb (maxPosTheta2 s) 0) eqn:E2; reflect_num;
        [|pose proof (pos_ratio deg (maxPosTheta2 s) E0 E1 E2)]; finish_cases.
  - destruct (Num.ltb deg (maxNegTheta2 s)) eqn:E1; reflect_num;
      cbn [fst snd maxPosTheta1 maxNegTheta1 maxPosTheta2 maxNegTheta2].
    + destruct (Num.eqb deg 0) eqn:E2; reflect_num; [exfalso; lra|].
      pose proof (neg_ratio deg deg E0 (Qle_refl deg)). finish_cases.
    + destruct (Num.eqb (maxNegTheta2 s) 0) eqn:E2; reflect_num; [exfalso; lra|].
      pose proof (neg_ratio deg (maxNegTheta2 s) E0 E1). finish_cases.
Qed.

(** The gates do not touch the model folder. *)
Lemma gates_modelFolder (state : RootState) (now : Q)
      (g : TrackingComputation.Globals) :
  TrackingComputation.currentModelFolder
    (fst (TrackingComputation.gates state now g))
  = TrackingComputation.currentModelFolder g.
Proof.
  unfold TrackingComputation.gates.
  destruct (timestamp (imageLeftEye state)), (timestamp (imageRightEye state));
    repeat (cbv beta iota;
            match goal with
            | |- context [if ?b then _ else _] => destruct b
            end);
    reflexivity.
Qed.

(** The reload block of [runTracking] resets the maxima when the model
    folder of the configuration is set and differs from the current one. *)
Lemma runTracking_resets (state : RootState) (now : Q)
      (g : TrackingComputation.Globals) (s : t) :
  TrackingComputation.ongoingTracking g = false ->
  modelFile (config state) <> "" ->
  modelFile (config state) <> TrackingComputation.currentModelFolder g ->
  exists g' r,
    TrackingComputation.runTracking state now g s = Some (g', initial, r)
    /\ TrackingComputation.currentModelFolder g' = modelFile (config state).
Proof.
  intros Hon Hne Hch.
  unfold TrackingComputation.runTracking, TrackingComputation.reloadModels.
  rewrite Hon. cbn [TrackingComputation.currentModelFolder].
  apply String.eqb_neq in Hne, Hch. rewrite Hne, Hch. cbn [negb andb].
  match goal with
  | |- context [TrackingComputation.gates ?a ?b ?c] =>
      pose proof (gates_modelFolder a b c) as K;
      destruct (TrackingComputation.gates a b c) as [g' r]
  end.
  exists g', r. split; [reflexivity | exact K].
Qed.

(** C8.  On maxima that calls of the class can produce, [normalizeTheta1]
    and [normalizeTheta2] first enlarge the stored maximum on the side of
    the sign of the input when the input lies beyond it, then return the
    input divided by the magnitude of that maximum (0 when it is 0), a
    value in [-1,1]; the other axis is not touched.  [resetNormalization]
    sets the four maxima to 0, and [runTracking] calls it when the model
    folder has changed. *)
Theorem normalization_contract (s : t) (deg : Q) :
  reachable s ->
  (let s' := fst (normalizeTheta1 s deg) in
   contract (maxPosTheta1 s) (maxNegTheta1 s) (maxPosTheta1 s') (maxNegTheta1 s')
            deg (snd (normalizeTheta1 s deg))
   /\ maxPosTheta2 s' = maxPosTheta2 s /\ maxNegTheta2 s' = maxNegTheta2 s)
  /\ (let s' := fst (normalizeTheta2 s deg) in
      contract (maxPosTheta2 s) (maxNegTheta2 s) (maxPosTheta2 s') (maxNegTheta2 s')
               deg (snd (normalizeTheta2 s deg))
      /\ maxPosTheta1 s' = maxPosTheta1 s /\ maxNegTheta1 s' = maxNegTheta1 s)
  /\ resetNormalization s
     = {| maxPosTheta1 := 0; maxNegTheta1 := 0;
          maxPosTheta2 := 0; maxNegTheta2 := 0 |}
  /\ (forall state now g,
        TrackingComputation.ongoingTracking g = false ->
        modelFile (config state) <> "" ->
        modelFile (config state) <> TrackingComputation.currentModelFolder g ->
        exists g' r,
          TrackingComputation.runTracking state now g s
          = Some (g', resetNormalization s, r)).
Proof.
  intros Hr. apply reachable_signed in Hr.
  split; [apply normalizeTheta1_contract; exact Hr|].
  split; [apply normalizeTheta2_contract; exact Hr|].
  split; [reflexivity|].
  intros state now g H1 H2 H3.
  destruct (runTracking_resets state now g s H1 H2 H3) as (g' & r & E & _).
  exists g', r. exact E.
Qed.

End Normalization.

(** The maxima after one call with 10 degrees on the first axis: a call
    with 5 degrees returns a value in [-1,1] and leaves the maximum at
    10. *)
Lemma normalization_contract_witness :
  let s := fst (NormalizationUtils.normalizeTheta1 NormalizationUtils.initial 10) in
  -1 <= snd (NormalizationUtils.normalizeTheta1 s 5) <= 1
  /\ NormalizationUtils.maxPosTheta1 (fst (NormalizationUtils.normalizeTheta1 s 5))
     = 10.
Proof.
  intros s.
  destruct (normalization_contract s 5
              (NormalizationUtils.reach_theta1 _ 10 NormalizationUtils.reach_initial))
    as ((C & _) & _).
  destruct C as (Cpos & _ & Crange).
  split; [exact Crange|].
  destruct Cpos as (_ & Keep & _); [discriminate|].
  apply Keep. discriminate.
Defined.

(** ** Reconnection of a camera *)

Section Reconnect.

Import CameraService.

Lemma attemptConnection_cases (w : World) :
  (attemptConnection w = w)
  \/ (closed w = false /\ shuttingDown w = false
      /\ forcedOffline (side w) (storeConfig w) = false
      /\ opened (attemptConnection w) = S (opened w)
      /\ activeConnection (attemptConnection w) = Some (opened w)
      /\ closed (attemptConnection w) = false).
Proof.
  unfold attemptConnection.
  destruct (closed w) eqn:C; [left; reflexivity|].
  destruct (shuttingDown w) eqn:D; [left; reflexivity|].
  destruct (forcedOffline (side w) (storeConfig w)) eqn:F; [left; reflexivity|].
  right. cbn. repeat split; reflexivity.
Qed.

Lemma reattemptGuard_true (w : World) :
  reattemptGuard w = true
  <-> closed w = false /\ shuttingDown w = false
      /\ endpointOf (side w) (storeConfig w) = ipPort w
      /\ forcedOffline (side w) (storeConfig w) = false.
Proof.
  unfold reattemptGuard.
  rewrite !andb_true_iff, !negb_true_iff, String.eqb_eq. tauto.
Qed.

(** A closed handle stays closed and opens nothing. *)
Lemma step_closed (e : Event) (w w' : World) :
  closed w = true -> step e w = Some w' ->
  closed w' = true /\ opened w' = opened w.
Proof.
  intros Hc Hs. destruct e; cbn in Hs.
  - injection Hs as <-. cbn. auto.
  - destruct (timers w !! i) as [t|]; [|discriminate].
    destruct (Num.leb (t + backoffMs) (clock w)); [|discriminate].
    injection Hs as <-. unfold timerCallback, reattemptGuard. cbn.
    rewrite Hc. cbn. auto.
  - injection Hs as <-. cbn. auto.
  - injection Hs as <-. cbn. auto.
  - injection Hs as <-. cbn. auto.
  - destruct (Num.leb 0 d); [|discriminate]. injection Hs as <-. cbn. auto.
Qed.

Lemma run_closed (es : list Event) (w w' : World) :
  closed w = true -> run es w = Some w' ->
  closed w' = true /\ opened w' = opened w.
Proof.
  revert w. induction es as [|e es IH]; intros w Hc Hr; cbn in Hr.
  - injection Hr as <-. auto.
  - destruct (step e w) as [w1|] eqn:S1; [|discriminate].
    destruct (step_closed e w w1 Hc S1) as [C1 O1].
    destruct (IH w1 C1 Hr) as [C2 O2]. split; [exact C2 | congruence].
Qed.

(** C9.  An event opens a connection for a handle only when it is the
    firing of a timer that an [onError] callback set at least 2000 ms
    earlier and, at that moment, the handle is not closed, the service is
    not shutting down, the endpoint configured for the side is the one the
    handle was made with, and the side is not forced offline.  Once
    [close()] has been called on the handle, whatever happens afterwards,
    pending timers included, opens no connection. *)
Theorem reconnect_only_after_backoff (w : World) :
  (forall e w',
      step e w = Some w' -> opened w' <> opened w ->
      exists i t,
        e = TimerFires i /\ timers w !! i = Some t
        /\ t + 2000 <= clock w
        /\ closed w = false /\ shuttingDown w = false
        /\ endpointOf (side w) (storeConfig w) = ipPort w
        /\ forcedOffline (side w) (storeConfig w) = false
        /\ opened w' = S (opened w)
        /\ activeConnection w' = Some (opened w))
  /\ (forall es w',
        run (CloseHandle :: es) w = Some w' ->
        closed w' = true /\ opened w' = opened w).
Proof.
  split.
  - intros e w' Hs Hne. destruct e; cbn in Hs;
      try (injection Hs as <-; cbn in Hne; congruence).
    + destruct (timers w !! i) as [t|] eqn:L; [|discriminate].
      destruct (Num.leb (t + backoffMs) (clock w)) eqn:B; [|discriminate].
      injection Hs as <-. apply leb_true in B.
      unfold timerCallback in *.
      match goal with
      | |- context [reattemptGuard ?x] =>
          destruct (reattemptGuard x) eqn:G;
          [apply reattemptGuard_true in G; cbn in G;
           destruct (attemptConnection_cases x) as [E|E];
           [rewrite E in Hne; cbn in Hne; congruence|]
          | cbn in Hne; congruence]
      end.
      cbn in E. destruct G as (G1 & G2 & G3 & G4).
      destruct E as (_ & _ & _ & E1 & E2 & _).
      exists i, t. unfold backoffMs in B. repeat split; assumption.
    + destruct (Num.leb 0 d); [|discriminate].
      injection Hs as <-. cbn in Hne. congruence.
  - intros es w' Hr. cbn in Hr.
    destruct (run_closed es (close w) w' eq_refl Hr) as [C O].
    split; [exact C | exact O].
Qed.

End Reconnect.

(** The left camera reports an error at clock 0.  When the timer fires
    2000 ms later, a second connection is opened; when [close()] is called
    1000 ms after the error, the timer that fires at 2000 ms opens
    nothing. *)
Lemma reconnect_only_after_backoff_witness :
  (exists w' i t,
      CameraService.step (CameraService.TimerFires 0) (backoffWorld 2000) = Some w'
      /\ CameraService.timers (backoffWorld 2000) !! i = Some t
      /\ t + 2000 <= CameraService.clock (backoffWorld 2000)
      /\ CameraService.opened w' = 2%nat)
  /\ (exists w',
        CameraService.run
          [CameraService.CloseHandle; CameraService.TimePasses 1000;
           CameraService.TimerFires 0] (backoffWorld 1000) = Some w'
        /\ CameraService.opened w' = 1%nat).
Proof.
  split.
  - pose (w' := CameraService.timerCallback
                  {| CameraService.side := CameraService.leftEyeSide;
                     CameraService.ipPort := "192.168.0.10:81";
                     CameraService.activeConnection := Some 0%nat;
                     CameraService.closed := false;
                     CameraService.opened := 1;
                     CameraService.cancelled := [];
                     CameraService.timers := [];
                     CameraService.clock := 0 + 2000;
                     CameraService.shuttingDown := false;
                     CameraService.storeConfig :=
                       cameraConfig "192.168.0.10:81" "" false false |}).
    assert (Hstep : CameraService.step (CameraService.TimerFires 0)
                                       (backoffWorld 2000)
                    = Some w') by reflexivity.
    destruct (reconnect_only_after_backoff (backoffWorld 2000)) as [H _].
    assert (N : CameraService.opened w'
                <> CameraService.opened (backoffWorld 2000)) by discriminate.
    destruct (H _ _ Hstep N) as (i & t & _ & L & B & _ & _ & _ & _ & O & _).
    exists w', i, t.
    split; [exact Hstep|]. split; [exact L|]. split; [exact B | exact O].
  - destruct (reconnect_only_after_backoff (backoffWorld 1000)) as [_ H].
    eexists. split; [reflexivity|].
    refine (proj2 (H [CameraService.TimePasses 1000; CameraService.TimerFires 0]
                     _ eq_refl)).
Defined.

(** * Further properties *)

(** ** The adaptive Kalman filter: estimates and covariances *)

Section KalmanBehaviour.

Import AdaptiveKalmanFilter KalmanFacts.

Lemma convex_between (x m k : Q) :
  0 <= k <= 1 -> Qmin x m <= x + k * (m - x) <= Qmax x m.
Proof.
  intros [K0 K1].
  destruct (Q.min_spec x m) as [[L E]|[L E]];
    destruct (Q.max_spec x m) as [[L' E']|[L' E']];
    rewrite E, E'; try lra.
  - assert (0 <= k * (m - x)) by (apply Qmult_le_0_compat; lra).
    assert (0 <= (1 - k) * (m - x)) by (apply Qmult_le_0_compat; lra).
    lra.
  - assert (0 <= k * (x - m)) by (apply Qmult_le_0_compat; lra).
    assert (0 <= (1 - k) * (x - m)) by (apply Qmult_le_0_compat; lra).
    lra.
Qed.

Lemma gain_finite_range (p r : Q) : 0 <= p -> 0 < r -> 0 <= p / (p + r) < 1.
Proof.
  intros Hp Hr. split.
  - apply Qle_shift_div_l; lra.
  - apply Qlt_shift_div_r; lra.
Qed.

(** The effective noise of a well-formed filter is positive when finite. *)
Lemma effectiveMeasurementNoise_positive (f : t) (trust r : Q) :
  wellFormed f -> effectiveMeasurementNoise f trust = Finite r -> 0 < r.
Proof.
  intros (_ & _ & _ & Hn) E. unfold effectiveMeasurementNoise in E.
  pose proof (clampedTrust_range trust) as R.
  destruct (Num.eqb (clampedTrust trust) 0) eqn:E0; [discriminate|].
  destruct (Num.ltb (clampedTrust trust) (3 # 4)) eqn:E1; reflect_num;
    injection E as <-; [|exact Hn].
  unfold maxInterpolationFactor.
  apply Qmult_lt_0_compat; [exact Hn|].
  assert (K : (20 - 1) / (3 # 4) == 76 # 3) by reflexivity.
  apply Qlt_minus_iff. rewrite K. lra.
Qed.

Lemma gain_range (f : t) (measurement trust : Q) :
  wellFormed f ->
  0 <= gain (predictedErrorCovariance f measurement)
            (effectiveMeasurementNoise f trust) < 1.
Proof.
  intros W. pose proof W as (Hc & Hs & Hl & Hn).
  assert (Hp : 0 <= predictedErrorCovariance f measurement).
  { unfold predictedErrorCovariance. destruct (Num.gtb _ _); lra. }
  destruct (effectiveMeasurementNoise f trust) as [r|] eqn:E; cbn.
  - apply gain_finite_range; [exact Hp|].
    exact (effectiveMeasurementNoise_positive f trust r W E).
  - lra.
Qed.

(** X1.  On a well-formed filter the estimate that [update] returns lies
    between the estimate before the call and the measurement, whatever the
    trust. *)
Theorem update_estimate_between (f : t) (measurement trust : Q) :
  wellFormed f ->
  Qmin (stateEstimate f) measurement
  <= snd (update f measurement trust)
  <= Qmax (stateEstimate f) measurement.
Proof.
  intros W. rewrite update_returns. cbv zeta.
  pose proof (gain_range f measurement trust W) as [G0 G1].
  unfold predictedErrorCovariance in G0, G1.
  apply convex_between. split; [exact G0 | apply Qlt_le_weak; exact G1].
Qed.

(** X2.  [update] keeps a well-formed filter well-formed; the error
    covariance after the call is not negative, not above the predicted
    one, and not above the effective measurement noise when that is
    finite. *)
Theorem update_covariance_bounded (f : t) (measurement trust : Q) :
  wellFormed f ->
  let f' := fst (update f measurement trust) in
  wellFormed f'
  /\ errorCovariance f' <= predictedErrorCovariance f measurement
  /\ (forall r, effectiveMeasurementNoise f trust = Finite r ->
                errorCovariance f' <= r).
Proof.
  intros W f'. pose proof W as (Hc & Hs & Hl & Hn).
  pose proof (gain_range f measurement trust W) as [G0 G1].
  assert (Hp : 0 <= predictedErrorCovariance f measurement).
  { unfold predictedErrorCovariance. destruct (Num.gtb _ _); lra. }
  assert (E : errorCovariance f'
              = (1 - gain (predictedErrorCovariance f measurement)
                          (effectiveMeasurementNoise f trust))
                * predictedErrorCovariance f measurement) by reflexivity.
  set (k := gain (predictedErrorCovariance f measurement)
                 (effectiveMeasurementNoise f trust)) in *.
  set (p := predictedErrorCovariance f measurement) in *.
  assert (0 <= (1 - k) * p) by (apply Qmult_le_0_compat; lra).
  assert (0 <= k * p) by (apply Qmult_le_0_compat; lra).
  split; [|split].
  - unfold wellFormed. rewrite E. cbn. repeat split; assumption.
  - rewrite E. lra.
  - intros r Er. rewrite E.
    pose proof (effectiveMeasurementNoise_positive f trust r W Er) as Hr.
    subst k. rewrite Er. cbn [gain plus over].
    assert (D : (1 - p / (p + r)) * p == r * (p / (p + r)))
      by (field; lra).
    rewrite D.
    pose proof (gain_finite_range p r Hp Hr) as [K0 K1].
    assert (0 <= r * (1 - p / (p + r))) by (apply Qmult_le_0_compat; lra).
    lra.
Qed.

End KalmanBehaviour.

(** A filter at estimate 0 with covariance 1, base noise 4, process noises
    0.03 and 50 and threshold 2. *)
Lemma wellFormed_example :
  KalmanFacts.wellFormed (AdaptiveKalmanFilter.new 0 1 4 (3 # 100) 50 2).
Proof. repeat split; discriminate. Qed.

Lemma update_estimate_between_witness :
  let f := AdaptiveKalmanFilter.new 0 1 4 (3 # 100) 50 2 in
  Qmin 0 10 <= snd (AdaptiveKalmanFilter.update f 10 (1 # 2)) <= Qmax 0 10.
Proof.
  intros f. exact (update_estimate_between f 10 (1 # 2) wellFormed_example).
Defined.

Lemma update_covariance_bounded_witness :
  let f := AdaptiveKalmanFilter.new 0 1 4 (3 # 100) 50 2 in
  AdaptiveKalmanFilter.errorCovariance
    (fst (AdaptiveKalmanFilter.update f 10 1)) <= 4.
Proof.
  intros f.
  destruct (update_covariance_bounded f 10 1 wellFormed_example) as (_ & _ & H).
  apply H. reflexivity.
Defined.

Section KalmanTrust.

Import AdaptiveKalmanFilter KalmanFacts.

Lemma clampedTrust_mono (t1 t2 : Q) :
  t1 <= t2 -> clampedTrust t1 <= clampedTrust t2.
Proof.
  intros H. unfold clampedTrust.
  destruct (Q.max_spec 0 (Qmin t1 1)) as [[? E1]|[? E1]];
    destruct (Q.min_spec t1 1) as [[? E1']|[? E1']];
    destruct (Q.max_spec 0 (Qmin t2 1)) as [[? E2]|[? E2]];
    destruct (Q.min_spec t2 1) as [[? E2']|[? E2']];
    rewrite E1, E2; try rewrite E1'; try rewrite E2'; lra.
Qed.

Lemma scale_le (a b c : Q) : 0 <= a -> b <= c -> a * b <= a * c.
Proof.
  intros Ha Hbc.
  assert (0 <= a * (c - b)) by (apply Qmult_le_0_compat; lra).
  lra.
Qed.

(** X3.  For a base measurement noise that is not negative, a lower trust
    never gives a smaller effective measurement noise. *)
Theorem lower_trust_more_noise (f : t) (trust1 trust2 : Q) :
  0 <= measurementNoiseVariance f ->
  trust1 <= trust2 ->
  noise_le (effectiveMeasurementNoise f trust2)
           (effectiveMeasurementNoise f trust1).
Proof.
  intros Hn Ht. pose proof (clampedTrust_mono trust1 trust2 Ht) as Hc.
  pose proof (clampedTrust_range trust1) as R1.
  pose proof (clampedTrust_range trust2) as R2.
  unfold effectiveMeasurementNoise, maxInterpolationFactor.
  set (c1 := clampedTrust trust1) in *. set (c2 := clampedTrust trust2) in *.
  assert (K : (20 - 1) / (3 # 4) == 76 # 3) by reflexivity.
  destruct (Num.eqb c1 0) eqn:A1; reflect_num.
  - destruct (Num.eqb c2 0); [exact I|].
    destruct (Num.ltb c2 (3 # 4)); exact I.
  - destruct (Num.eqb c2 0) eqn:A2; reflect_num; [exfalso; lra|].
    destruct (Num.ltb c1 (3 # 4)) eqn:B1, (Num.ltb c2 (3 # 4)) eqn:B2;
      reflect_num; cbn [noise_le]; try lra.
    + apply scale_le; [exact Hn|].
      assert (0 <= (76 # 3) * (c2 - c1)) by (apply Qmult_le_0_compat; lra).
      apply Qle_minus_iff. rewrite K. lra.
    + assert (E : measurementNoiseVariance f * (20 - (20 - 1) / (3 # 4) * c1)
                  == measurementNoiseVariance f
                     + measurementNoiseVariance f * (19 - (76 # 3) * c1))
        by (rewrite K; ring).
      rewrite E.
      assert (0 <= measurementNoiseVariance f * (19 - (76 # 3) * c1))
        by (apply Qmult_le_0_compat; lra).
      lra.
Qed.

End KalmanTrust.

(** Trusts 0.2 and 0.5 on the example filter. *)
Lemma lower_trust_more_noise_witness :
  KalmanFacts.noise_le
    (AdaptiveKalmanFilter.effectiveMeasurementNoise
       (AdaptiveKalmanFilter.new 0 1 4 (3 # 100) 50 2) (1 # 2))
    (AdaptiveKalmanFilter.effectiveMeasurementNoise
       (AdaptiveKalmanFilter.new 0 1 4 (3 # 100) 50 2) (1 # 5)).
Proof.
  apply (lower_trust_more_noise
           (AdaptiveKalmanFilter.new 0 1 4 (3 # 100) 50 2) (1 # 5) (1 # 2));
    discriminate.
Defined.

(** ** The filter manager: first results, keys and snapshots *)

Section ManagerBehaviour.

Import KalmanFilterManager.

(** A filter updated with the measurement it was built at returns that
    measurement. *)
Lemma update_at_estimate (f : AKF.t) (trust : Q) :
  snd (AKF.update f (AKF.stateEstimate f) trust) == AKF.stateEstimate f.
Proof. rewrite update_returns. cbv zeta. ring. Qed.

(** X4.  A call that builds new filters (a key not seen before, a missing
    filter or a changed configuration) returns the raw measurements
    themselves, whatever the trust. *)
Theorem reinitialization_returns_measurement
        (m : t) (modelId : string) (config : ConfigState) :
  (forall angle1 angle2 trust,
      anglesReinitialize m modelId config = true ->
      exists m' r1 r2,
        filterTwoAngles m modelId angle1 angle2 config trust = Some (m', (r1, r2))
        /\ r1 == angle1 /\ r2 == angle2)
  /\ (forall openness,
        opennessReinitialize m modelId config = true ->
        exists m' r,
          filterOpenness m modelId openness config = Some (m', r)
          /\ r == openness).
Proof.
  split.
  - intros angle1 angle2 trust H. unfold filterTwoAngles. rewrite H.
    cbn [filter1 filter2 lastKalmanConfig]. unfold updateAngles.
    pose proof (update_at_estimate (newAngleFilter config angle1) trust) as E1.
    pose proof (update_at_estimate (newAngleFilter config angle2) trust) as E2.
    cbn [newAngleFilter AKF.new AKF.stateEstimate] in E1, E2.
    destruct (AKF.update (newAngleFilter config angle1) angle1 trust) as [f1 r1].
    destruct (AKF.update (newAngleFilter config angle2) angle2 trust) as [f2 r2].
    eexists _, r1, r2. split; [reflexivity|]. split; assumption.
  - intros openness H. unfold filterOpenness. rewrite H.
    cbn [filter o_lastKalmanConfig]. unfold updateOpenness.
    pose proof (update_at_estimate (newOpennessFilter config openness) 1) as E.
    cbn [newOpennessFilter AKF.new AKF.stateEstimate] in E.
    destruct (AKF.update (newOpennessFilter config openness) openness 1) as [f r].
    eexists _, r. split; [reflexivity | assumption].
Qed.

(** X5.  A call for one key leaves the filters of every other key, and the
    whole map of the other method, as they are. *)
Theorem manager_keys_independent (m : t) (modelId : string) (config : ConfigState) :
  (forall angle1 angle2 trust m' r,
      filterTwoAngles m modelId angle1 angle2 config trust = Some (m', r) ->
      (forall other, other <> modelId ->
                     filterMap m' !! other = filterMap m !! other)
      /\ opennessFilterMap m' = opennessFilterMap m)
  /\ (forall openness m' r,
        filterOpenness m modelId openness config = Some (m', r) ->
        (forall other, other <> modelId ->
                       opennessFilterMap m' !! other = opennessFilterMap m !! other)
        /\ filterMap m' = filterMap m).
Proof.
  split.
  - intros angle1 angle2 trust m' r H. unfold filterTwoAngles in H.
    repeat match type of H with
           | match ?o with Some _ => _ | None => _ end = _ =>
               destruct o; [|discriminate]
           end.
    unfold updateAngles in H.
    repeat match type of H with
           | context [AKF.update ?a ?b ?c] => destruct (AKF.update a b c)
           end.
    injection H as <- _. cbn. split; [|reflexivity].
    intros other Hne. apply lookup_insert_ne. congruence.
  - intros openness m' r H. unfold filterOpenness in H.
    repeat match type of H with
           | match ?o with Some _ => _ | None => _ end = _ =>
               destruct o; [|discriminate]
           end.
    unfold updateOpenness in H.
    repeat match type of H with
           | context [AKF.update ?a ?b ?c] => destruct (AKF.update a b c)
           end.
    injection H as <- _. cbn. split; [|reflexivity].
    intros other Hne. apply lookup_insert_ne. congruence.
Qed.

Lemma neqb_same (x : Q) : Num.neqb x x = false.
Proof. apply neqb_false. reflexivity. Qed.

(** X6.  After a call, an immediate call for the same key under the same
    configuration builds no new filter: the stored snapshot agrees with the
    configuration on every parameter the method compares. *)
Theorem manager_settles (m : t) (modelId : string) (config : ConfigState) :
  (forall angle1 angle2 trust m' r,
      filterTwoAngles m modelId angle1 angle2 config trust = Some (m', r) ->
      anglesReinitialize m' modelId config = false)
  /\ (forall openness m' r,
        filterOpenness m modelId openness config = Some (m', r) ->
        opennessReinitialize m' modelId config = false).
Proof.
  split.
  - intros angle1 angle2 trust m' r H. unfold filterTwoAngles in H.
    destruct (anglesReinitialize m modelId config) eqn:R.
    + cbn [filter1 filter2 lastKalmanConfig] in H. unfold updateAngles in H.
      repeat match type of H with
             | context [AKF.update ?a ?b ?c] => destruct (AKF.update a b c)
             end.
      injection H as <- _.
      unfold anglesReinitialize, anglesEntry. cbn [filterMap].
      rewrite lookup_insert_eq. cbn [filter1 filter2 lastKalmanConfig].
      rewrite !bool_decide_eq_true_2 by eauto.
      unfold anglesConfigChanged, snapshot. cbn. rewrite !neqb_same. reflexivity.
    + unfold anglesReinitialize in R.
      destruct (anglesEntry m modelId) as [[f1|] [f2|] last]; cbn in R;
        try discriminate.
      cbn [filter1 filter2 lastKalmanConfig] in H. unfold updateAngles in H.
      repeat match type of H with
             | context [AKF.update ?a ?b ?c] => destruct (AKF.update a b c)
             end.
      injection H as <- _.
      unfold anglesReinitialize, anglesEntry. cbn [filterMap].
      rewrite lookup_insert_eq. cbn [filter1 filter2 lastKalmanConfig].
      rewrite !bool_decide_eq_true_2 by eauto. cbn [negb orb].
      exact R.
  - intros openness m' r H. unfold filterOpenness in H.
    destruct (opennessReinitialize m modelId config) eqn:R.
    + cbn [filter o_lastKalmanConfig] in H. unfold updateOpenness in H.
      repeat match type of H with
             | context [AKF.update ?a ?b ?c] => destruct (AKF.update a b c)
             end.
      injection H as <- _.
      unfold opennessReinitialize, opennessEntry. cbn [opennessFilterMap].
      rewrite lookup_insert_eq. cbn [filter o_lastKalmanConfig].
      rewrite !bool_decide_eq_true_2 by eauto.
      unfold opennessConfigChanged, snapshot. cbn. rewrite !neqb_same. reflexivity.
    + unfold opennessReinitialize in R.
      destruct (opennessEntry m modelId) as [[f|] last]; cbn in R;
        try discriminate.
      cbn [filter o_lastKalmanConfig] in H. unfold updateOpenness in H.
      repeat match type of H with
             | context [AKF.update ?a ?b ?c] => destruct (AKF.update a b c)
             end.
      injection H as <- _.
      unfold opennessReinitialize, opennessEntry. cbn [opennessFilterMap].
      rewrite lookup_insert_eq. cbn [filter o_lastKalmanConfig].
      rewrite !bool_decide_eq_true_2 by eauto. cbn [negb orb].
      exact R.
Qed.

End ManagerBehaviour.

(** A first call on a new manager, at trust 0.5. *)
Lemma reinitialization_returns_measurement_witness :
  exists m' r1 r2,
    KalmanFilterManager.filterTwoAngles
      KalmanFilterManager.new "combinedTheta" 10 20 initialState (1 # 2)
    = Some (m', (r1, r2))
    /\ r1 == 10 /\ r2 == 20.
Proof.
  destruct (reinitialization_returns_measurement
              KalmanFilterManager.new "combinedTheta" initialState) as [H _].
  apply H. reflexivity.
Defined.

(** A call for ['combinedTheta'] on the example manager leaves the openness
    filter of ['leftOpenness'] alone. *)
Lemma manager_keys_independent_witness :
  match KalmanFilterManager.filterTwoAngles exampleManager "combinedTheta" 0 0
                                            initialState 1 with
  | Some (m', _) =>
      KalmanFilterManager.opennessFilterMap m'
      = KalmanFilterManager.opennessFilterMap exampleManager
  | None => False
  end.
Proof.
  destruct (KalmanFilterManager.filterTwoAngles exampleManager "combinedTheta"
              0 0 initialState 1) as [[m' r]|] eqn:E.
  - destruct (manager_keys_independent exampleManager "combinedTheta" initialState)
      as [H _].
    exact (proj2 (H _ _ _ _ _ E)).
  - destruct (filterTwoAngles_returns exampleManager "combinedTheta" 0 0
                                      initialState 1) as [x Hx].
    congruence.
Defined.

(** After a call with the base noise changed to 5, a second call under the
    same configuration keeps the filters. *)
Lemma manager_settles_witness :
  match KalmanFilterManager.filterTwoAngles exampleManager "combinedTheta" 0 0
          (kalmanConfig 5 (3 # 100) 50 2 (3 # 100)) 1 with
  | Some (m', _) =>
      KalmanFilterManager.anglesReinitialize
        m' "combinedTheta" (kalmanConfig 5 (3 # 100) 50 2 (3 # 100)) = false
  | None => False
  end.
Proof.
  destruct (KalmanFilterManager.filterTwoAngles exampleManager "combinedTheta"
              0 0 (kalmanConfig 5 (3 # 100) 50 2 (3 # 100)) 1)
    as [[m' r]|] eqn:E.
  - destruct (manager_settles exampleManager "combinedTheta"
                (kalmanConfig 5 (3 # 100) 50 2 (3 # 100))) as [H _].
    exact (H _ _ _ _ _ E).
  - destruct (filterTwoAngles_returns exampleManager "combinedTheta" 0 0
                (kalmanConfig 5 (3 # 100) 50 2 (3 # 100)) 1) as [x Hx].
    congruence.
Defined.

(** ** The selection of eye signals *)

Section Selection.

Import EyeSelectionUtils.

(** X7.  Whatever the state, the independent angle query returns the same
    theta1 for both eyes and never a left theta2 below the right
    theta2. *)
Theorem independent_thetas_never_divergent (state : RootState) :
  let r := chooseIndependentEyeThetas state in
  i_leftTheta1 r = i_rightTheta1 r
  /\ i_rightTheta2 r <= i_leftTheta2 r.
Proof.
  unfold chooseIndependentEyeThetas.
  destruct (isOnline (status (imageLeftEye state))),
    (isOnline (status (imageRightEye state))); cbn [andb];
    try (split; [reflexivity | apply Qle_refl]).
  destruct (Num.ltb _ 0) eqn:E; cbn; (split; [reflexivity|]).
  - apply Qle_refl.
  - apply ltb_false in E. lra.
Qed.

(** X8.  Unless both eyes are online, the independent queries return for
    both eyes what the combined queries return, and that is: the angles
    and the openness stored for the left eye when only the left eye is
    online, those stored for the right eye when only the right eye is
    online, and zeros when none is. *)
Theorem single_eye_queries_agree (state : RootState) :
  isOnline (status (imageLeftEye state))
  && isOnline (status (imageRightEye state)) = false ->
  chooseIndependentEyeThetas state = duplicated (chooseCombinedEyeThetas state)
  /\ chooseIndependentEyeOpenness state
     = {| o_leftOpenness := chooseCombinedEyeOpenness state;
          o_rightOpenness := chooseCombinedEyeOpenness state |}
  /\ (isOnline (status (imageLeftEye state)) = false ->
      isOnline (status (imageRightEye state)) = false ->
      chooseCombinedEyeThetas state = {| c_theta1 := 0; c_theta2 := 0 |}
      /\ chooseCombinedEyeOpenness state = 0)
  /\ (isOnline (status (imageLeftEye state)) = true ->
      chooseCombinedEyeThetas state
      = {| c_theta1 := leftTheta1 (tracking state);
           c_theta2 := leftTheta2 (tracking state) |}
      /\ chooseCombinedEyeOpenness state = leftOpenness (tracking state))
  /\ (isOnline (status (imageRightEye state)) = true ->
      chooseCombinedEyeThetas state
      = {| c_theta1 := rightTheta1 (tracking state);
           c_theta2 := rightTheta2 (tracking state) |}
      /\ chooseCombinedEyeOpenness state = rightOpenness (tracking state)).
Proof.
  unfold chooseIndependentEyeThetas, chooseCombinedEyeThetas,
    chooseIndependentEyeOpenness, chooseCombinedEyeOpenness, duplicated.
  destruct (isOnline (status (imageLeftEye state))),
    (isOnline (status (imageRightEye state))); cbn; intros H;
    try discriminate; repeat split; intros; try discriminate; reflexivity.
Qed.

End Selection.

(** Only the left camera online. *)
Lemma single_eye_queries_agree_witness :
  let state :=
    {| config := initialState;
       imageLeftEye := {| frame := "data:L"; timestamp := Some 1000;
                          status := online |};
       imageRightEye := {| frame := ""; timestamp := None; status := offline |};
       tracking := thetas 1 2 3 4 5 6 |} in
  EyeSelectionUtils.chooseIndependentEyeThetas state
  = {| i_leftTheta1 := 3; i_leftTheta2 := 4;
       i_rightTheta1 := 3; i_rightTheta2 := 4 |}
  /\ EyeSelectionUtils.chooseCombinedEyeThetas state
     = {| c_theta1 := 3; c_theta2 := 4 |}.
Proof.
  intros state.
  destruct (single_eye_queries_agree state eq_refl) as (A & _ & _ & L & _).
  split; [exact A | exact (proj1 (L eq_refl))].
Defined.

(** ** Transmission passes: silence, the OSC client, repeated values *)

Section PassBehaviour.

Import Transmission.

Lemma clientCalls_app (l1 l2 : list OscCall) :
  OpennessPath.clientCalls (l1 ++ l2)
  = OpennessPath.clientCalls l1 ++ OpennessPath.clientCalls l2.
Proof. apply List.filter_app. Qed.

Lemma thetasPass_client (state : RootState) (g : Globals) :
  previousOscEndpoint (fst (thetasPass state g)) = previousOscEndpoint g
  /\ OpennessPath.clientCalls (snd (thetasPass state g)) = [].
Proof.
  unfold thetasPass, nativeThetas, vrcftV1Thetas, vrcftV2Thetas.
  destruct (currentMode (config state)); split_branches; split; reflexivity.
Qed.

Lemma opennessPass_client (state : RootState) (now : Q) (g : Globals) :
  previousOscEndpoint (fst (opennessPass state now g)) = previousOscEndpoint g
  /\ OpennessPath.clientCalls (snd (opennessPass state now g)) = [].
Proof.
  unfold opennessPass, nativeOpenness, vrcftV1Openness, vrcftV2Openness.
  destruct (currentMode (config state)); split_branches; split; reflexivity.
Qed.

(** X9.  In a pass in an active mode with a non-empty endpoint the OSC
    client is re-pointed exactly when the endpoint differs from the one
    remembered (and the API is there), and the endpoint is remembered
    afterwards; so the pass after a pass in mode none re-points the client
    even to the endpoint it had, and a second active pass with the same
    endpoint does not. *)
Theorem osc_client_follows_endpoint (state : RootState) (now : Q) (api : bool)
        (g : Globals) :
  currentMode (config state) <> ModeNone ->
  currentEndpoint (config state) <> "" ->
  let r := startTrackingTransmission state now api g in
  OpennessPath.clientCalls (snd r)
  = (if api && negb (bool_decide (Some (currentEndpoint (config state))
                                  = previousOscEndpoint g))
     then [updateOscClient (currentEndpoint (config state))] else [])
  /\ previousOscEndpoint (fst r) = Some (currentEndpoint (config state)).
Proof.
  intros Hm He r. subst r. unfold startTrackingTransmission.
  destruct (updateEndpoint (config state) api g) as [g0 calls0] eqn:U.
  pose proof (thetasPass_client state g0) as [T1 T2].
  destruct (thetasPass state g0) as [g1 calls1].
  pose proof (opennessPass_client state now g1) as [O1 O2].
  destruct (opennessPass state now g1) as [g2 calls2].
  cbn [fst snd] in *. rewrite !clientCalls_app, T2, O2, !app_nil_r, O1, T1.
  unfold updateEndpoint in U.
  rewrite (bool_decide_eq_false_2 _ Hm), (bool_decide_eq_false_2 _ He) in U.
  cbn [negb andb] in U.
  destruct (bool_decide (Some (currentEndpoint (config state))
                         = previousOscEndpoint g)) eqn:B; cbn [negb] in U.
  - injection U as <- <-. rewrite andb_false_r.
    apply bool_decide_eq_true_1 in B. split; [reflexivity | symmetry; exact B].
  - injection U as <- <-. rewrite andb_true_r. destruct api; split; reflexivity.
Qed.

End PassBehaviour.

(** Native mode at the initial endpoint: the first pass re-points the
    client and remembers the endpoint. *)
Lemma osc_client_follows_endpoint_witness :
  let c := transmissionConfig true false false false false false in
  let r := Transmission.startTrackingTransmission
             (bothOnline c (thetas 0 0 0 0 0 0)) 1000 true Transmission.initial in
  OpennessPath.clientCalls (snd r) = [Transmission.updateOscClient "127.0.0.1:9000"]
  /\ Transmission.previousOscEndpoint (fst r) = Some "127.0.0.1:9000".
Proof.
  intros c r.
  apply (osc_client_follows_endpoint
           (bothOnline c (thetas 0 0 0 0 0 0)) 1000 true Transmission.initial);
    discriminate.
Defined.

Section RepeatedValues.

Import Transmission AnglePath EyeSelectionUtils EqualityUtils.

Lemma Qabs_self (x : Q) : Qabs (x - x) < EPSILON.
Proof.
  assert (E : x - x == 0) by ring. rewrite E. reflexivity.
Qed.

Lemma isEqualCombinedThetas_refl (a : CombinedThetas) :
  isEqualCombinedThetas a a = true.
Proof. apply isEqualCombinedThetas_true. split; apply Qabs_self. Qed.

Lemma isEqualIndThetas_refl (a : IndThetas) : isEqualIndThetas a a = true.
Proof. apply isEqualIndThetas_true. repeat split; apply Qabs_self. Qed.

(** After the eye-movement half of a pass, the cache of the path taken
    holds a value within the tolerance of the new angles. *)
Lemma thetasPass_cache_close (state : RootState) (g : Globals) :
  let c := config state in
  let m := currentMode c in
  m <> ModeNone -> activeEyeTracking c = true ->
  (independentEyes c = false ->
   exists p, previousCombined m (fst (thetasPass state g)) = Some p
             /\ isEqualCombinedThetas (chooseCombinedEyeThetas state) p = true)
  /\ (independentEyes c = true ->
      exists p, previousIndependent m (fst (thetasPass state g)) = Some p
                /\ isEqualIndThetas (chooseIndependentEyeThetas state) p = true).
Proof.
  intros c m Hm Ha. subst c m.
  unfold thetasPass, nativeThetas, vrcftV1Thetas, vrcftV2Thetas.
  destruct (currentMode (config state)); [congruence| | |];
    rewrite Ha; (split; intros Hi; rewrite Hi);
    cbn [previousCombined previousIndependent].
  all: match goal with
       | |- context [changedCombinedThetas ?n ?p] =>
           destruct p as [q|] eqn:P; cbn [changedCombinedThetas];
           [destruct (isEqualCombinedThetas n q) eqn:E; cbn [negb fst]|cbn [fst]]
       | |- context [changedIndThetas ?n ?p] =>
           destruct p as [q|] eqn:P; cbn [changedIndThetas];
           [destruct (isEqualIndThetas n q) eqn:E; cbn [negb fst]|cbn [fst]]
       end.
  all: try (eexists; split; [exact P | exact E]).
  all: eexists; split; [reflexivity|];
    first [apply isEqualCombinedThetas_refl | apply isEqualIndThetas_refl].
Qed.

(** X10.  In an active mode with eye tracking on, a pass that finds the
    store as the pass before found it dispatches no angles, on the combined
    and on the independent path alike: the same angles are dispatched at
    most once. *)
Theorem repeated_angles_not_dispatched
        (state : RootState) (now1 now2 : Q) (api : bool) (g : Globals) :
  currentMode (config state) <> ModeNone ->
  activeEyeTracking (config state) = true ->
  angleCalls
    (snd (startTrackingTransmission
            state now2 api
            (fst (startTrackingTransmission state now1 api g)))) = [].
Proof.
  intros Hm Ha.
  set (m := currentMode (config state)).
  set (g1 := fst (startTrackingTransmission state now1 api g)).
  pose proof (pass_angles state now1 api g m) as (_ & P2 & P3).
  cbv zeta in P2, P3. fold g1 in P2, P3.
  pose proof (thetasPass_cache_close
                state (fst (updateEndpoint (config state) api g)) Hm Ha)
    as [Hc Hi].
  pose proof (pass_angles state now2 api g1 m) as (Q1 & _ & _).
  cbv zeta in Q1. rewrite Q1.
  pose proof (updateEndpoint_angles (config state) api g1 m) as (U1 & U2 & _).
  destruct (independentEyes (config state)) eqn:I.
  - destruct (Hi eq_refl) as (p & Hp & E). fold m in Hp.
    rewrite <- P3, <- U2 in Hp.
    destruct (thetasPass_independent state _ p Hm Ha I Hp) as [K _].
    rewrite (K E). reflexivity.
  - destruct (Hc eq_refl) as (p & Hp & E). fold m in Hp.
    rewrite <- P2, <- U1 in Hp.
    destruct (thetasPass_combined state _ p Hm Ha I Hp) as [K _].
    rewrite (K E). reflexivity.
Qed.

End RepeatedValues.

(** Native mode, combined path, the same angles five passes in a row: the
    second pass already sends nothing. *)
Lemma repeated_angles_not_dispatched_witness :
  let c := transmissionConfig true false false false false false in
  let state := bothOnline c (thetas 3 4 0 0 0 0) in
  AnglePath.angleCalls
    (snd (Transmission.startTrackingTransmission
            state 1040 true
            (fst (Transmission.startTrackingTransmission
                    state 1000 true Transmission.initial)))) = [].
Proof.
  intros c state.
  apply (repeated_angles_not_dispatched state 1000 1040 true Transmission.initial);
    [discriminate | reflexivity].
Defined.

(** ** Change suppression and range of the openness dispatches *)

Section OpennessSuppression.

Import Transmission EqualityUtils.

Lemma opennessCalls_app (l1 l2 : list OscCall) :
  OpennessPath.opennessCalls (l1 ++ l2)
  = OpennessPath.opennessCalls l1 ++ OpennessPath.opennessCalls l2.
Proof. apply List.filter_app. Qed.

(** Step 2 and the eye-movement half leave the openness caches alone and
    dispatch no openness. *)
Lemma updateEndpoint_openness_caches (c : ConfigState) (api : bool)
      (g : Globals) (m : Mode) :
  OpennessPath.previousCombined m (fst (updateEndpoint c api g))
  = OpennessPath.previousCombined m g
  /\ OpennessPath.previousIndependent m (fst (updateEndpoint c api g))
     = OpennessPath.previousIndependent m g
  /\ OpennessPath.opennessCalls (snd (updateEndpoint c api g)) = [].
Proof.
  unfold updateEndpoint. split_branches; destruct m; repeat split; reflexivity.
Qed.

Lemma thetasPass_openness_caches (state : RootState) (g : Globals) (m : Mode) :
  OpennessPath.previousCombined m (fst (thetasPass state g))
  = OpennessPath.previousCombined m g
  /\ OpennessPath.previousIndependent m (fst (thetasPass state g))
     = OpennessPath.previousIndependent m g
  /\ OpennessPath.opennessCalls (snd (thetasPass state g)) = [].
Proof.
  unfold thetasPass, nativeThetas, vrcftV1Thetas, vrcftV2Thetas.
  destruct (currentMode (config state)); split_branches;
    destruct m; repeat split; reflexivity.
Qed.

(** The combined openness of the openness half: dispatched and cached
    exactly when it is more than 0.001 away from the cached value. *)
Lemma opennessPass_combined (state : RootState) (now : Q) (g : Globals) (p : Q) :
  let c := config state in
  let m := currentMode c in
  let v := Channel.output Channel.Combined state now g in
  Channel.active Channel.Combined c = true ->
  OpennessPath.previousCombined m g = Some p ->
  (Num.gtb (Qabs (p - v)) (1 # 1000) = false ->
   snd (opennessPass state now g) = []
   /\ OpennessPath.previousCombined m (fst (opennessPass state now g)) = Some p)
  /\ (Num.gtb (Qabs (p - v)) (1 # 1000) = true ->
      snd (opennessPass state now g) = OpennessPath.combinedCall m c v
      /\ OpennessPath.previousCombined m (fst (opennessPass state now g)) = Some v).
Proof.
  intros c m v. subst c m v.
  unfold Channel.active, Channel.output, Channel.transformed, Channel.raw,
    opennessPass, nativeOpenness, vrcftV1Openness, vrcftV2Openness.
  cbn [Channel.lastClosed].
  destruct (currentMode (config state));
    destruct (activeOpennessTracking (config state)); cbn [andb];
    try discriminate;
    try (destruct (independentOpenness (config state)); cbn [negb];
         try discriminate);
    intros _ Hp; cbn [OpennessPath.previousCombined] in Hp;
    destruct (blinkRelease _ _ _ _) as [v cl]; cbn [fst];
    cbn [previousNativeOpenness previousVrcftV1OpennessCombined
         previousVrcftV2OpennessCombined set_lastClosedTimestampCombined];
    rewrite Hp; cbn [changedOpenness];
    split; intros E; rewrite E; cbn; split; try reflexivity; exact Hp.
Qed.

(** The independent openness of the openness half: dispatched and cached
    exactly when the left or the right value is 0.001 or more away from the
    cached one. *)
Lemma opennessPass_independent (state : RootState) (now : Q) (g : Globals)
      (p : IndOpenness) :
  let c := config state in
  let m := currentMode c in
  let d := OpennessPath.independentOutput state now g in
  Channel.active Channel.Left c = true ->
  OpennessPath.previousIndependent m g = Some p ->
  (isEqualOpenness d p = true ->
   snd (opennessPass state now g) = []
   /\ OpennessPath.previousIndependent m (fst (opennessPass state now g)) = Some p)
  /\ (isEqualOpenness d p = false ->
      snd (opennessPass state now g) = OpennessPath.independentCall m c d
      /\ OpennessPath.previousIndependent m (fst (opennessPass state now g))
         = Some d).
Proof.
  intros c m d. subst c m d.
  unfold OpennessPath.independentOutput, Channel.active, Channel.output,
    Channel.transformed, Channel.raw,
    opennessPass, nativeOpenness, vrcftV1Openness, vrcftV2Openness.
  cbn [Channel.lastClosed].
  destruct (currentMode (config state));
    destruct (activeOpennessTracking (config state)); cbn [andb];
    try discriminate;
    destruct (independentOpenness (config state)); try discriminate;
    intros _ Hp; cbn [OpennessPath.previousIndependent] in Hp;
    destruct (blinkRelease _ _ (lastClosedTimestampLeft g) _) as [vl cl];
    cbn [lastClosedTimestampRight set_lastClosedTimestampLeft];
    destruct (blinkRelease _ _ (lastClosedTimestampRight g) _) as [vr cr];
    cbn [fst];
    cbn [previousVrcftV1OpennessIndependent previousVrcftV2OpennessIndependent
         set_lastClosedTimestampLeft set_lastClosedTimestampRight];
    rewrite Hp; cbn [changedIndOpenness];
    split; intros E; rewrite E; cbn; split; try reflexivity; exact Hp.
Qed.

(** The openness dispatches and caches of a whole pass are those of its
    openness half. *)
Lemma pass_openness (state : RootState) (now : Q) (api : bool) (g : Globals)
      (m : Mode) :
  exists g1,
    OpennessPath.opennessCalls (snd (startTrackingTransmission state now api g))
    = OpennessPath.opennessCalls (snd (opennessPass state now g1))
    /\ OpennessPath.previousCombined m (fst (startTrackingTransmission state now api g))
       = OpennessPath.previousCombined m (fst (opennessPass state now g1))
    /\ OpennessPath.previousIndependent m
         (fst (startTrackingTransmission state now api g))
       = OpennessPath.previousIndependent m (fst (opennessPass state now g1))
    /\ OpennessPath.previousCombined m g1 = OpennessPath.previousCombined m g
    /\ OpennessPath.previousIndependent m g1 = OpennessPath.previousIndependent m g
    /\ (forall ch, Channel.lastClosed ch g1 = Channel.lastClosed ch g).
Proof.
  unfold startTrackingTransmission.
  pose proof (updateEndpoint_openness_caches (config state) api g m)
    as (U1 & U2 & U3).
  pose proof (fun ch => proj1 (updateEndpoint_openness ch (config state) api g))
    as U4.
  destruct (updateEndpoint (config state) api g) as [g0 calls0].
  pose proof (thetasPass_openness_caches state g0 m) as (T1 & T2 & T3).
  pose proof (fun ch => proj1 (thetasPass_openness ch state g0)) as T4.
  destruct (thetasPass state g0) as [g1 calls1].
  exists g1. destruct (opennessPass state now g1) as [g2 calls2].
  cbn [fst snd] in *.
  rewrite !opennessCalls_app, U3, T3. cbn [app].
  repeat split; try reflexivity; try congruence;
    try (rewrite T4, U4; reflexivity).
Qed.

Lemma opennessCalls_combinedCall (m : Mode) (c : ConfigState) (v : Q) :
  OpennessPath.opennessCalls (OpennessPath.combinedCall m c v)
  = OpennessPath.combinedCall m c v.
Proof. destruct m; reflexivity. Qed.

Lemma opennessCalls_independentCall (m : Mode) (c : ConfigState) (d : IndOpenness) :
  OpennessPath.opennessCalls (OpennessPath.independentCall m c d)
  = OpennessPath.independentCall m c d.
Proof. destruct m; reflexivity. Qed.

Lemma output_same_latch (ch : Channel.t) (state : RootState) (now : Q)
      (g g' : Globals) :
  Channel.lastClosed ch g' = Channel.lastClosed ch g ->
  Channel.output ch state now g' = Channel.output ch state now g.
Proof. intros H. unfold Channel.output. rewrite H. reflexivity. Qed.

(** X11.  In a pass that handles the combined openness, the value after
    the blink-release lines is dispatched and cached exactly when it is
    more than 0.001 away from the cached value; a difference of exactly
    0.001 is held back.  In a pass that handles the left and right
    openness, the pair is dispatched and cached exactly when the left or
    the right value is 0.001 or more away from the cached one; there a
    difference of exactly 0.001 is dispatched. *)
Theorem openness_change_suppression
        (state : RootState) (now : Q) (api : bool) (g : Globals) :
  let c := config state in
  let m := currentMode c in
  let r := startTrackingTransmission state now api g in
  (Channel.active Channel.Combined c = true ->
   forall p, OpennessPath.previousCombined m g = Some p ->
   let v := Channel.output Channel.Combined state now g in
   (Qabs (p - v) <= 1 # 1000 ->
    OpennessPath.opennessCalls (snd r) = []
    /\ OpennessPath.previousCombined m (fst r) = Some p)
   /\ (1 # 1000 < Qabs (p - v) ->
       OpennessPath.opennessCalls (snd r) = OpennessPath.combinedCall m c v
       /\ OpennessPath.previousCombined m (fst r) = Some v))
  /\ (Channel.active Channel.Left c = true ->
      forall p, OpennessPath.previousIndependent m g = Some p ->
      let d := OpennessPath.independentOutput state now g in
      (Qabs (o_leftOpenness d - o_leftOpenness p) < EPSILON
       /\ Qabs (o_rightOpenness d - o_rightOpenness p) < EPSILON ->
       OpennessPath.opennessCalls (snd r) = []
       /\ OpennessPath.previousIndependent m (fst r) = Some p)
      /\ (EPSILON <= Qabs (o_leftOpenness d - o_leftOpenness p)
          \/ EPSILON <= Qabs (o_rightOpenness d - o_rightOpenness p) ->
          OpennessPath.opennessCalls (snd r) = OpennessPath.independentCall m c d
          /\ OpennessPath.previousIndependent m (fst r) = Some d)).
Proof.
  intros c m r. subst r.
  destruct (pass_openness state now api g m) as (g1 & P1 & P2 & P3 & C1 & C2 & L).
  rewrite P1, P2, P3. clear P1 P2 P3.
  split.
  - intros Ha p Hp v. rewrite <- C1 in Hp.
    destruct (opennessPass_combined state now g1 p Ha Hp) as [Keep Send].
    rewrite (output_same_latch Channel.Combined state now g g1 (L _)) in Keep, Send.
    fold v in Keep, Send. split; intros H.
    + apply ltb_false in H. destruct (Keep H) as [K1 K2].
      rewrite K1. split; [reflexivity | exact K2].
    + apply ltb_true in H. destruct (Send H) as [S1 S2].
      rewrite S1, opennessCalls_combinedCall. split; [reflexivity | exact S2].
  - intros Ha p Hp d. rewrite <- C2 in Hp.
    destruct (opennessPass_independent state now g1 p Ha Hp) as [Keep Send].
    assert (E : OpennessPath.independentOutput state now g1 = d).
    { unfold d, OpennessPath.independentOutput.
      rewrite (output_same_latch Channel.Left state now g g1 (L _)),
        (output_same_latch Channel.Right state now g g1 (L _)). reflexivity. }
    rewrite E in Keep, Send. split; intros H.
    + assert (B : isEqualOpenness d p = true).
      { unfold isEqualOpenness. rewrite andb_true_iff, !ltb_true. exact H. }
      destruct (Keep B) as [K1 K2]. rewrite K1. split; [reflexivity | exact K2].
    + assert (B : isEqualOpenness d p = false).
      { unfold isEqualOpenness. rewrite andb_false_iff, !ltb_false. exact H. }
      destruct (Send B) as [S1 S2].
      rewrite S1, opennessCalls_independentCall. split; [reflexivity | exact S2].
Qed.

End OpennessSuppression.

(** Native mode with openness on, 0.749 dispatched last: a reading of 0.8,
    whose value is 0.75, is exactly 0.001 away and is held back. *)
Lemma openness_change_suppression_witness :
  let c := transmissionConfig true false false false false true in
  let g := Transmission.set_previousNativeOpenness (Some (749 # 1000))
                                                   Transmission.initial in
  OpennessPath.opennessCalls
    (snd (Transmission.startTrackingTransmission
            (bothOnline c (opennesses (8 # 10) 0 0)) 1000 true g)) = [].
Proof.
  intros c g.
  destruct (openness_change_suppression
              (bothOnline c (opennesses (8 # 10) 0 0)) 1000 true g) as [H _].
  destruct (H eq_refl (749 # 1000) eq_refl) as [Keep _].
  apply Keep. discriminate.
Defined.

Section OpennessRange.

Import Transmission.

(** X12.  For every four handles, in order or not, the openness transform
    is monotonic non-decreasing and its values lie in [0,1]. *)
Theorem transformOpenness_any_handles (handles : Q * Q * Q * Q) :
  (forall v w, v <= w ->
               transformOpenness v handles <= transformOpenness w handles)
  /\ (forall v, 0 <= transformOpenness v handles <= 1).
Proof.
  destruct handles as [[[h0 h1] h2] h3]. split.
  - intros v w. apply transform_mono.
  - intros v. apply transform_range.
Qed.

Lemma blinkRelease_value (v now lastClosed delay : Q) :
  fst (blinkRelease v now lastClosed delay) = v
  \/ fst (blinkRelease v now lastClosed delay) = 0.
Proof.
  unfold blinkRelease. destruct (Num.eqb v 0); [left; reflexivity|].
  destruct (Num.leb now (lastClosed + delay)); [right | left]; reflexivity.
Qed.

Lemma transformOpenness_range_any (v : Q) (handles : Q * Q * Q * Q) :
  0 <= transformOpenness v handles <= 1.
Proof. destruct handles as [[[h0 h1] h2] h3]. apply transform_range. Qed.

(** X13.  Every openness value a pass dispatches, in any mode and for any
    configuration and reading, lies in [0,1]. *)
Theorem dispatched_openness_in_range
        (state : RootState) (now : Q) (api : bool) (g : Globals)
        (ch : Channel.t) (call : OscCall) (v : Q) :
  In call (snd (startTrackingTransmission state now api g)) ->
  Channel.carried ch call = Some v ->
  0 <= v <= 1.
Proof.
  intros Hin Hc. rewrite (pass_carried ch state now api g call v Hin Hc).
  unfold Channel.output.
  destruct (blinkRelease_value (Channel.transformed ch state) now
              (Channel.lastClosed ch g) (blinkReleaseDelayMs (config state)))
    as [E|E]; rewrite E.
  - unfold Channel.transformed. apply transformOpenness_range_any.
  - split; discriminate.
Qed.

End OpennessRange.

(** Native mode with openness on: the first pass dispatches the openness
    0.75 of a reading of 0.8. *)
Lemma dispatched_openness_in_range_witness : 0 <= 3 # 4 <= 1.
Proof.
  apply (dispatched_openness_in_range
           (bothOnline (transmissionConfig true false false false false true)
                       (opennesses (8 # 10) 0 0))
           1000 true Transmission.initial Channel.Combined
           (Transmission.sendNativeEyeOpenness (3 # 4) None) (3 # 4));
    [right; right; left; reflexivity | reflexivity].
Defined.

(** ** Range normalization: signs, extremes, repetition, order *)

Section NormalizationBehaviour.

Import NormalizationUtils.

Lemma self_ratio (d : Q) : ~ d == 0 -> d / d == 1.
Proof. intros H. field. exact H. Qed.

(** One axis, written once: the maximum after a call and the value
    returned, from the maxima before. *)
Lemma normalizeTheta1_value (s : t) (deg : Q) :
  snd (normalizeTheta1 s deg)
  = (if Num.geb deg 0 then
       let maxPos := if Num.gtb deg (maxPosTheta1 s) then deg else maxPosTheta1 s in
       if Num.eqb maxPos 0 then 0 else deg / maxPos
     else
       let maxNeg := if Num.ltb deg (maxNegTheta1 s) then deg else maxNegTheta1 s in
       if Num.eqb maxNeg 0 then 0 else deg / Qabs maxNeg).
Proof. unfold normalizeTheta1. destruct (Num.geb deg 0); reflexivity. Qed.

Lemma normalizeTheta2_value (s : t) (deg : Q) :
  snd (normalizeTheta2 s deg)
  = (if Num.geb deg 0 then
       let maxPos := if Num.gtb deg (maxPosTheta2 s) then deg else maxPosTheta2 s in
       if Num.eqb maxPos 0 then 0 else deg / maxPos
     else
       let maxNeg := if Num.ltb deg (maxNegTheta2 s) then deg else maxNegTheta2 s in
       if Num.eqb maxNeg 0 then 0 else deg / Qabs maxNeg).
Proof. unfold normalizeTheta2. destruct (Num.geb deg 0); reflexivity. Qed.

Lemma axisValue_sign_extreme (maxPos maxNeg deg : Q) :
  0 <= maxPos -> maxNeg <= 0 ->
  (0 <= deg -> 0 <= axisValue maxPos maxNeg deg)
  /\ (deg < 0 -> axisValue maxPos maxNeg deg < 0)
  /\ (maxPos < deg -> axisValue maxPos maxNeg deg == 1)
  /\ (deg < maxNeg -> axisValue maxPos maxNeg deg == -1).
Proof.
  intros Hp Hn. unfold axisValue.
  destruct (Num.geb deg 0) eqn:E0; reflect_num.
  - destruct (Num.gtb deg maxPos) eqn:E1; reflect_num; cbv zeta.
    + destruct (Num.eqb deg 0) eqn:E2; reflect_num; [exfalso; lra|].
      pose proof (self_ratio deg E2). repeat split; intros; lra.
    + destruct (Num.eqb maxPos 0) eqn:E2; reflect_num;
        [repeat split; intros; lra|].
      pose proof (pos_ratio deg maxPos E0 E1 E2). repeat split; intros; lra.
  - destruct (Num.ltb deg maxNeg) eqn:E1; reflect_num; cbv zeta.
    + destruct (Num.eqb deg 0) eqn:E2; reflect_num; [exfalso; lra|].
      assert (A : Qabs deg == - deg) by (apply Qabs_neg; lra).
      assert (B : deg / Qabs deg == -1) by (rewrite A; field; lra).
      repeat split; intros; lra.
    + destruct (Num.eqb maxNeg 0) eqn:E2; reflect_num; [exfalso; lra|].
      assert (A : Qabs maxNeg == - maxNeg) by (apply Qabs_neg; lra).
      assert (B : deg / Qabs maxNeg < 0).
      { rewrite A. apply Qlt_shift_div_r; lra. }
      repeat split; intros; lra.
Qed.

(** X14.  On maxima that calls of the class can produce, the value
    returned has the sign of the input (0 or more for an input of 0 or
    more, below 0 for an input below 0), and an input beyond the stored
    maximum of its sign returns exactly 1, or -1 on the negative side. *)
Theorem normalize_sign_and_extreme (s : t) (deg : Q) :
  reachable s ->
  ((0 <= deg -> 0 <= snd (normalizeTheta1 s deg))
   /\ (deg < 0 -> snd (normalizeTheta1 s deg) < 0)
   /\ (maxPosTheta1 s < deg -> snd (normalizeTheta1 s deg) == 1)
   /\ (deg < maxNegTheta1 s -> snd (normalizeTheta1 s deg) == -1))
  /\ ((0 <= deg -> 0 <= snd (normalizeTheta2 s deg))
      /\ (deg < 0 -> snd (normalizeTheta2 s deg) < 0)
      /\ (maxPosTheta2 s < deg -> snd (normalizeTheta2 s deg) == 1)
      /\ (deg < maxNegTheta2 s -> snd (normalizeTheta2 s deg) == -1)).
Proof.
  intros Hr. apply reachable_signed in Hr. destruct Hr as (A & B & C & D).
  split.
  - rewrite normalizeTheta1_value.
    exact (axisValue_sign_extreme (maxPosTheta1 s) (maxNegTheta1 s) deg A B).
  - rewrite normalizeTheta2_value.
    exact (axisValue_sign_extreme (maxPosTheta2 s) (maxNegTheta2 s) deg C D).
Qed.

(** X15.  A second call with the same input leaves the maxima as the first
    call left them and returns the same value; and no call of
    [normalizeTheta1] or [normalizeTheta2] lowers a positive maximum or
    raises a negative one. *)
Theorem normalize_repeats_and_keeps (s : t) (deg : Q) :
  (normalizeTheta1 (fst (normalizeTheta1 s deg)) deg = normalizeTheta1 s deg
   /\ normalizeTheta2 (fst (normalizeTheta2 s deg)) deg = normalizeTheta2 s deg)
  /\ (maxPosTheta1 s <= maxPosTheta1 (fst (normalizeTheta1 s deg))
      /\ maxNegTheta1 (fst (normalizeTheta1 s deg)) <= maxNegTheta1 s
      /\ maxPosTheta2 s <= maxPosTheta2 (fst (normalizeTheta2 s deg))
      /\ maxNegTheta2 (fst (normalizeTheta2 s deg)) <= maxNegTheta2 s).
Proof.
  split; [split|].
  - unfold normalizeTheta1.
    destruct (Num.geb deg 0) eqn:E0; cbn [fst maxPosTheta1 maxNegTheta1
      maxPosTheta2 maxNegTheta2]; rewrite ?E0.
    + destruct (Num.gtb deg (maxPosTheta1 s)) eqn:E1; rewrite ?E1;
        [|reflexivity].
      assert (E : Num.gtb deg deg = false) by (apply ltb_false; apply Qle_refl).
      rewrite E. reflexivity.
    + destruct (Num.ltb deg (maxNegTheta1 s)) eqn:E1; rewrite ?E1;
        [|reflexivity].
      assert (E : Num.ltb deg deg = false) by (apply ltb_false; apply Qle_refl).
      rewrite E. reflexivity.
  - unfold normalizeTheta2.
    destruct (Num.geb deg 0) eqn:E0; cbn [fst maxPosTheta1 maxNegTheta1
      maxPosTheta2 maxNegTheta2]; rewrite ?E0.
    + destruct (Num.gtb deg (maxPosTheta2 s)) eqn:E1; rewrite ?E1;
        [|reflexivity].
      assert (E : Num.gtb deg deg = false) by (apply ltb_false; apply Qle_refl).
      rewrite E. reflexivity.
    + destruct (Num.ltb deg (maxNegTheta2 s)) eqn:E1; rewrite ?E1;
        [|reflexivity].
      assert (E : Num.ltb deg deg = false) by (apply ltb_false; apply Qle_refl).
      rewrite E. reflexivity.
  - unfold normalizeTheta1, normalizeTheta2.
    destruct (Num.geb deg 0) eqn:E0; cbn [fst maxPosTheta1 maxNegTheta1
      maxPosTheta2 maxNegTheta2];
      repeat match goal with
             | |- context [if ?b then _ else _] => destruct b eqn:?
             end; reflect_num; repeat split; lra.
Qed.

End NormalizationBehaviour.

Section NormalizationOrder.

Import NormalizationUtils.

Lemma axisValue_range (maxPos maxNeg deg : Q) :
  0 <= maxPos -> maxNeg <= 0 -> -1 <= axisValue maxPos maxNeg deg <= 1.
Proof.
  intros Hp Hn. unfold axisValue.
  destruct (Num.geb deg 0) eqn:E0; reflect_num.
  - destruct (Num.gtb deg maxPos) eqn:E1; reflect_num; cbv zeta.
    + destruct (Num.eqb deg 0) eqn:E2; reflect_num; [lra|].
      pose proof (pos_ratio deg deg E0 (Qle_refl deg) E2). lra.
    + destruct (Num.eqb maxPos 0) eqn:E2; reflect_num; [lra|].
      pose proof (pos_ratio deg maxPos E0 E1 E2). lra.
  - destruct (Num.ltb deg maxNeg) eqn:E1; reflect_num; cbv zeta.
    + destruct (Num.eqb deg 0) eqn:E2; reflect_num; [lra|].
      pose proof (neg_ratio deg deg E0 (Qle_refl deg)). lra.
    + destruct (Num.eqb maxNeg 0) eqn:E2; reflect_num; [lra|].
      pose proof (neg_ratio deg maxNeg E0 E1). lra.
Qed.

Lemma ratio_mono (a b m : Q) : 0 < m -> a <= b -> a / m <= b / m.
Proof.
  intros Hm Hab. unfold Qdiv. apply Qmult_le_compat_r; [exact Hab|].
  apply Qlt_le_weak, Qinv_lt_0_compat. exact Hm.
Qed.

Lemma axisValue_mono (maxPos maxNeg d1 d2 : Q) :
  0 <= maxPos -> maxNeg <= 0 -> d1 <= d2 ->
  axisValue maxPos maxNeg d1 <= axisValue maxPos maxNeg d2.
Proof.
  intros Hp Hn Hd.
  pose proof (axisValue_sign_extreme maxPos maxNeg d1 Hp Hn) as (P1 & N1 & X1 & Y1).
  pose proof (axisValue_sign_extreme maxPos maxNeg d2 Hp Hn) as (P2 & N2 & X2 & Y2).
  pose proof (axisValue_range maxPos maxNeg d1 Hp Hn) as R1.
  pose proof (axisValue_range maxPos maxNeg d2 Hp Hn) as R2.
  destruct (Qlt_le_dec d1 0) as [Neg1|Pos1];
    destruct (Qlt_le_dec d2 0) as [Neg2|Pos2].
  - (* both below zero *)
    destruct (Qlt_le_dec d1 maxNeg) as [B|B]; [rewrite (Y1 B); lra|].
    unfold axisValue.
    assert (G1 : Num.geb d1 0 = false) by (apply leb_false; exact Neg1).
    assert (G2 : Num.geb d2 0 = false) by (apply leb_false; exact Neg2).
    assert (L1 : Num.ltb d1 maxNeg = false) by (apply ltb_false; exact B).
    assert (L2 : Num.ltb d2 maxNeg = false) by (apply ltb_false; lra).
    assert (Z : Num.eqb maxNeg 0 = false) by (apply eqb_false; lra).
    rewrite G1, G2, L1, L2. cbv zeta. rewrite Z.
    apply ratio_mono; [|exact Hd].
    assert (A : Qabs maxNeg == - maxNeg) by (apply Qabs_neg; lra).
    rewrite A. lra.
  - specialize (N1 Neg1). specialize (P2 Pos2). lra.
  - exfalso. lra.
  - (* both at or above zero *)
    destruct (Qlt_le_dec maxPos d2) as [B|B]; [rewrite (X2 B); lra|].
    unfold axisValue.
    assert (G1 : Num.geb d1 0 = true) by (apply leb_true; exact Pos1).
    assert (G2 : Num.geb d2 0 = true) by (apply leb_true; exact Pos2).
    assert (L1 : Num.gtb d1 maxPos = false) by (apply ltb_false; lra).
    assert (L2 : Num.gtb d2 maxPos = false) by (apply ltb_false; exact B).
    rewrite G1, G2, L1, L2. cbv zeta.
    destruct (Num.eqb maxPos 0) eqn:Z; reflect_num; [apply Qle_refl|].
    apply ratio_mono; [lra | exact Hd].
Qed.

(** X16.  On maxima that calls of the class can produce, normalization
    keeps the order of two inputs: of two inputs normalized from the same
    maxima, the smaller one does not get the larger value. *)
Theorem normalize_keeps_order (s : t) (deg1 deg2 : Q) :
  reachable s -> deg1 <= deg2 ->
  snd (normalizeTheta1 s deg1) <= snd (normalizeTheta1 s deg2)
  /\ snd (normalizeTheta2 s deg1) <= snd (normalizeTheta2 s deg2).
Proof.
  intros Hr Hd. apply reachable_signed in Hr. destruct Hr as (A & B & C & D).
  split.
  - rewrite !normalizeTheta1_value.
    exact (axisValue_mono (maxPosTheta1 s) (maxNegTheta1 s) deg1 deg2 A B Hd).
  - rewrite !normalizeTheta2_value.
    exact (axisValue_mono (maxPosTheta2 s) (maxNegTheta2 s) deg1 deg2 C D Hd).
Qed.

End NormalizationOrder.

(** After 10 degrees on the first axis: 12 degrees returns 1, and 5 degrees
    does not return more than 8 degrees. *)
Lemma normalize_sign_and_extreme_witness :
  let s := fst (NormalizationUtils.normalizeTheta1 NormalizationUtils.initial 10) in
  snd (NormalizationUtils.normalizeTheta1 s 12) == 1.
Proof.
  intros s.
  destruct (normalize_sign_and_extreme s 12
              (NormalizationUtils.reach_theta1 _ 10 NormalizationUtils.reach_initial))
    as [(_ & _ & H & _) _].
  apply H. reflexivity.
Defined.

Lemma normalize_keeps_order_witness :
  let s := fst (NormalizationUtils.normalizeTheta1 NormalizationUtils.initial 10) in
  snd (NormalizationUtils.normalizeTheta1 s 5)
  <= snd (NormalizationUtils.normalizeTheta1 s 8).
Proof.
  intros s.
  apply (normalize_keeps_order s 5 8
           (NormalizationUtils.reach_theta1 _ 10 NormalizationUtils.reach_initial)).
  discriminate.
Defined.

(** ** The gates of the tracking computation: the other branches *)

Section OtherGates.

Import TrackingComputation.

(** X17.  With both eyes online and the synced policy on, a pass processes
    frames exactly when both frame timestamps are present, non-zero and
    different from the last-processed ones, the time since each
    last-processed timestamp is at least the tracking interval and both
    frame buffers are non-empty; both last-processed timestamps then
    advance together. *)
Theorem synced_gates (state : RootState) (now : Q) (g : Globals) :
  status (imageLeftEye state) = online ->
  status (imageRightEye state) = online ->
  syncedEyeUpdates (config state) = true ->
  let left := imageLeftEye state in
  let right := imageRightEye state in
  let rate := trackingRate (config state) in
  let r := snd (gates state now g) in
  let g' := fst (gates state now g) in
  proceed r
  = tsTruthy (timestamp left) && tsTruthy (timestamp right)
    && Num.geb (now - previousLeftTimestamp g) rate
    && Num.geb (now - previousRightTimestamp g) rate
    && nonBlank (frame left) && nonBlank (frame right)
    && tsDiffers (timestamp left) (previousLeftTimestamp g)
    && tsDiffers (timestamp right) (previousRightTimestamp g)
  /\ validLeft r = proceed r
  /\ validRight r = proceed r
  /\ Some (previousLeftTimestamp g')
     = (if proceed r then timestamp left else Some (previousLeftTimestamp g))
  /\ Some (previousRightTimestamp g')
     = (if proceed r then timestamp right else Some (previousRightTimestamp g)).
Proof.
  intros HL HR Hs left right rate r g'. subst left right rate r g'.
  unfold gates. rewrite HL, HR, Hs. cbn [isOnline andb].
  destruct (timestamp (imageLeftEye state)) as [leftTs|],
    (timestamp (imageRightEye state)) as [rightTs|];
    cbn [tsTruthy tsDiffers].
  - destruct (Num.truthy leftTs), (Num.truthy rightTs),
      (Num.geb (now - previousLeftTimestamp g) (trackingRate (config state))),
      (Num.geb (now - previousRightTimestamp g) (trackingRate (config state))),
      (nonBlank (frame (imageLeftEye state))),
      (nonBlank (frame (imageRightEye state))),
      (Num.neqb leftTs (previousLeftTimestamp g)),
      (Num.neqb rightTs (previousRightTimestamp g));
      cbn; repeat split; reflexivity.
  - destruct (Num.truthy leftTs); cbn; repeat split; reflexivity.
  - cbn; repeat split; reflexivity.
  - cbn; repeat split; reflexivity.
Qed.

(** X18.  With one eye online only, a pass processes that eye exactly when
    its frame timestamp is present, non-zero and different from its
    last-processed timestamp, the interval has passed and its buffer is
    non-empty; the other eye is not marked valid and its last-processed
    timestamp stays.  With no eye online nothing is processed. *)
Theorem single_eye_gates (state : RootState) (now : Q) (g : Globals) :
  let left := imageLeftEye state in
  let right := imageRightEye state in
  let rate := trackingRate (config state) in
  let r := snd (gates state now g) in
  let g' := fst (gates state now g) in
  (isOnline (status left) = true -> isOnline (status right) = false ->
   proceed r
   = tsTruthy (timestamp left)
     && Num.geb (now - previousLeftTimestamp g) rate
     && nonBlank (frame left)
     && tsDiffers (timestamp left) (previousLeftTimestamp g)
   /\ validLeft r = proceed r /\ validRight r = false
   /\ Some (previousLeftTimestamp g')
      = (if proceed r then timestamp left else Some (previousLeftTimestamp g))
   /\ previousRightTimestamp g' = previousRightTimestamp g)
  /\ (isOnline (status left) = false -> isOnline (status right) = true ->
      proceed r
      = tsTruthy (timestamp right)
        && Num.geb (now - previousRightTimestamp g) rate
        && nonBlank (frame right)
        && tsDiffers (timestamp right) (previousRightTimestamp g)
      /\ validRight r = proceed r /\ validLeft r = false
      /\ Some (previousRightTimestamp g')
         = (if proceed r then timestamp right else Some (previousRightTimestamp g))
      /\ previousLeftTimestamp g' = previousLeftTimestamp g)
  /\ (isOnline (status left) = false -> isOnline (status right) = false ->
      gates state now g = (g, noGates)).
Proof.
  intros left right rate r g'. subst left right rate r g'. unfold gates.
  split; [|split]; intros HL HR; rewrite HL, HR; cbn [andb].
  - destruct (timestamp (imageLeftEye state)) as [leftTs|];
      cbn [tsTruthy tsDiffers]; [|cbn; repeat split; reflexivity].
    destruct (Num.truthy leftTs),
      (Num.geb (now - previousLeftTimestamp g) (trackingRate (config state))),
      (nonBlank (frame (imageLeftEye state))),
      (Num.neqb leftTs (previousLeftTimestamp g));
      cbn; repeat split; reflexivity.
  - destruct (timestamp (imageRightEye state)) as [rightTs|];
      cbn [tsTruthy tsDiffers]; [|cbn; repeat split; reflexivity].
    destruct (Num.truthy rightTs),
      (Num.geb (now - previousRightTimestamp g) (trackingRate (config state))),
      (nonBlank (frame (imageRightEye state))),
      (Num.neqb rightTs (previousRightTimestamp g));
      cbn; repeat split; reflexivity.
  - reflexivity.
Qed.

(** After a pass that processes frames, no online eye has a frame
    timestamp that differs from its last-processed timestamp. *)
Lemma gates_proceed_marks (state : RootState) (now : Q) (g : Globals) :
  proceed (snd (gates state now g)) = true ->
  let g' := fst (gates state now g) in
  (isOnline (status (imageLeftEye state)) = true ->
   tsDiffers (timestamp (imageLeftEye state)) (previousLeftTimestamp g') = false)
  /\ (isOnline (status (imageRightEye state)) = true ->
      tsDiffers (timestamp (imageRightEye state)) (previousRightTimestamp g')
      = false).
Proof.
  unfold gates.
  destruct (isOnline (status (imageLeftEye state))),
    (isOnline (status (imageRightEye state))); cbn [andb];
    destruct (timestamp (imageLeftEye state)) as [leftTs|],
      (timestamp (imageRightEye state)) as [rightTs|];
    cbn [tsDiffers proceed snd fst noGates]; try discriminate.
  all: try (destruct (syncedEyeUpdates (config state))).
  all: try (destruct (Num.neqb leftTs (previousLeftTimestamp g)) eqn:NL).
  all: try (destruct (Num.geb (now - previousLeftTimestamp g)
                              (trackingRate (config state))) eqn:GL).
  all: cbn [andb orb fst snd proceed noGates previousLeftTimestamp
            previousRightTimestamp set_previousLeftTimestamp
            set_previousRightTimestamp].
  all: try (destruct (Num.neqb rightTs (previousRightTimestamp g)) eqn:NR).
  all: try (destruct (Num.geb (now - previousRightTimestamp g)
                              (trackingRate (config state))) eqn:GR).
  all: cbn [andb orb fst snd proceed noGates previousLeftTimestamp
            previousRightTimestamp set_previousLeftTimestamp
            set_previousRightTimestamp].
  all: rewrite ?andb_false_r; cbn [andb orb fst snd proceed noGates].
  all: repeat match goal with
              | |- context [if ?b then _ else _] => destruct b
              end;
    cbn [andb orb fst snd proceed noGates previousLeftTimestamp
         previousRightTimestamp set_previousLeftTimestamp
         set_previousRightTimestamp];
    try discriminate.
  all: intros _; split; intros; try discriminate; try assumption;
    try apply neqb_same.
Qed.

(** When no online eye has a new frame, the gates stay closed. *)
Lemma gates_need_new_frame (state : RootState) (now : Q) (g : Globals) :
  (isOnline (status (imageLeftEye state)) = true ->
   tsDiffers (timestamp (imageLeftEye state)) (previousLeftTimestamp g) = false) ->
  (isOnline (status (imageRightEye state)) = true ->
   tsDiffers (timestamp (imageRightEye state)) (previousRightTimestamp g) = false) ->
  gates state now g = (g, noGates).
Proof.
  unfold gates.
  destruct (isOnline (status (imageLeftEye state))),
    (isOnline (status (imageRightEye state))); cbn [andb];
    destruct (timestamp (imageLeftEye state)) as [leftTs|],
      (timestamp (imageRightEye state)) as [rightTs|];
    cbn [tsDiffers]; intros HL HR;
    try reflexivity;
    try (specialize (HL eq_refl)); try (specialize (HR eq_refl));
    try discriminate;
    repeat match goal with
           | H : false = true -> _ |- _ => clear H
           end;
    rewrite ?HL, ?HR; cbn [orb]; rewrite ?andb_false_r; reflexivity.
Qed.

(** X19.  A frame is processed once: after a pass that processes frames, a
    pass that finds the same frames in the store, whenever it runs,
    processes nothing and leaves the variables as they are. *)
Theorem frames_processed_once (state : RootState) (now later : Q) (g : Globals) :
  proceed (snd (gates state now g)) = true ->
  gates state later (fst (gates state now g))
  = (fst (gates state now g), noGates).
Proof.
  intros H. destruct (gates_proceed_marks state now g H) as [L R].
  apply gates_need_new_frame; assumption.
Qed.

End OtherGates.

Lemma synced_gates_witness :
  let state := twoCameras (trackingConfig 25 true true)
                 "data:L" 1090 "data:R" 1000 in
  let out := TrackingComputation.gates state 1100 (lastProcessed 1000 1000) in
  TrackingComputation.proceed (snd out) = false
  /\ Some (TrackingComputation.previousLeftTimestamp (fst out)) = Some 1000.
Proof.
  intros state out.
  destruct (synced_gates state 1100 (lastProcessed 1000 1000))
    as (A & B & C & D & E); try reflexivity.
  fold out in A, D. split; [exact A|]. rewrite D, A. reflexivity.
Defined.

Lemma single_eye_gates_witness :
  let state := leftCameraOnly initialState "data:L" 1090 in
  let out := TrackingComputation.gates state 1100 (lastProcessed 1000 1000) in
  TrackingComputation.proceed (snd out) = true
  /\ TrackingComputation.validRight (snd out) = false
  /\ Some (TrackingComputation.previousLeftTimestamp (fst out)) = Some 1090.
Proof.
  intros state out.
  destruct (single_eye_gates state 1100 (lastProcessed 1000 1000))
    as (L & _ & _).
  destruct L as (A & B & C & D & E); try reflexivity.
  fold out in A, C, D. split; [exact A|]. split; [exact C|].
  rewrite D, A. reflexivity.
Defined.

Lemma frames_processed_once_witness :
  let state := twoCameras initialState "data:L" 1090 "data:R" 1000 in
  let g := fst (TrackingComputation.gates state 1100 (lastProcessed 1000 1000)) in
  TrackingComputation.gates state 1200 g = (g, TrackingComputation.noGates).
Proof.
  intros state g.
  apply (frames_processed_once state 1100 1200 (lastProcessed 1000 1000)).
  reflexivity.
Defined.

(** ** The MJPEG stream parser *)

Section StreamParser.

Import CameraConnection.

Lemma elementDiffers_false (x y : option byte) :
  elementDiffers x y = false <-> x = y.
Proof.
  destruct x as [a|], y as [b|]; cbn; split; intros H;
    try discriminate; try reflexivity.
  - apply negb_false_iff, Byte.byte_dec_bl in H. congruence.
  - injection H as ->. apply negb_false_iff, Byte.byte_dec_lb. reflexivity.
Qed.

Lemma matchFrom_true (buffer seq : list byte) (i n j : nat) :
  matchFrom buffer seq i j n = true
  <-> forall k, (j <= k < j + n)%nat -> buffer !! (i + k)%nat = seq !! k.
Proof.
  revert j. induction n as [|n IH]; intros j; cbn [matchFrom].
  - split; [intros _ k Hk; lia | reflexivity].
  - destruct (elementDiffers (buffer !! (i + j)%nat) (seq !! j)) eqn:E.
    + split; [discriminate|]. intros H.
      assert (buffer !! (i + j)%nat = seq !! j) as F by (apply H; lia).
      apply elementDiffers_false in F. congruence.
    + apply elementDiffers_false in E. rewrite IH. split; intros H k Hk.
      * destruct (decide (k = j)) as [->|]; [exact E | apply H; lia].
      * apply H. lia.
Qed.

Lemma occursAt_lookup (buffer seq : list byte) (i : nat) :
  occursAt buffer seq i
  <-> ((i + length seq <= length buffer)%nat
       /\ forall k, (k < length seq)%nat -> buffer !! (i + k)%nat = seq !! k).
Proof.
  split.
  - intros (pre & post & -> & <-). split.
    + rewrite !length_app. lia.
    + intros k Hk. rewrite lookup_app_r by lia.
      replace (length pre + k - length pre)%nat with k by lia.
      rewrite lookup_app_l by lia. reflexivity.
  - intros [Hlen H]. exists (take i buffer), (drop (i + length seq) buffer).
    split; [|rewrite length_take; lia].
    rewrite <- (take_drop i buffer) at 1. f_equal.
    rewrite <- (take_drop (length seq) (drop i buffer)) at 1.
    rewrite drop_drop. f_equal.
    apply list_eq. intros k. rewrite lookup_take.
    destruct (decide (k < length seq)%nat) as [Hk|Hk].
    + rewrite lookup_drop. apply H. exact Hk.
    + symmetry. apply lookup_ge_None. lia.
Qed.

Lemma matchFrom_occursAt (buffer seq : list byte) (i : nat) :
  (i + length seq <= length buffer)%nat ->
  matchFrom buffer seq i 0 (length seq) = true <-> occursAt buffer seq i.
Proof.
  intros Hlen. rewrite matchFrom_true, occursAt_lookup. split.
  - intros H. split; [exact Hlen|]. intros k Hk. apply H. lia.
  - intros [_ H] k Hk. apply H. lia.
Qed.

Lemma searchFrom_Some (buffer seq : list byte) (n i r : nat) :
  searchFrom buffer seq i n = Some r ->
  (i <= r < i + n)%nat
  /\ matchFrom buffer seq r 0 (length seq) = true
  /\ forall k, (i <= k < r)%nat -> matchFrom buffer seq k 0 (length seq) = false.
Proof.
  revert i. induction n as [|n IH]; intros i; cbn [searchFrom]; [discriminate|].
  destruct (matchFrom buffer seq i 0 (length seq)) eqn:E.
  - intros [= <-]. repeat split; [lia | lia | exact E | intros k Hk; lia].
  - intros H. destruct (IH _ H) as (A & B & C).
    repeat split; [lia | lia | exact B |].
    intros k Hk. destruct (decide (k = i)) as [->|]; [exact E | apply C; lia].
Qed.

Lemma searchFrom_None (buffer seq : list byte) (n i : nat) :
  searchFrom buffer seq i n = None ->
  forall k, (i <= k < i + n)%nat -> matchFrom buffer seq k 0 (length seq) = false.
Proof.
  revert i. induction n as [|n IH]; intros i; cbn [searchFrom];
    [intros _ k Hk; lia|].
  destruct (matchFrom buffer seq i 0 (length seq)) eqn:E; [discriminate|].
  intros H k Hk. destruct (decide (k = i)) as [->|]; [exact E|].
  apply (IH _ H). lia.
Qed.

Lemma findSequence_Some (buffer seq : list byte) (i : nat) :
  findSequence buffer seq = Some i
  <-> (occursAt buffer seq i /\ forall k, occursAt buffer seq k -> (i <= k)%nat).
Proof.
  unfold findSequence. split.
  - intros H. destruct (searchFrom_Some _ _ _ _ _ H) as (A & B & C).
    assert (i + length seq <= length buffer)%nat as Hi by lia.
    split; [apply matchFrom_occursAt; assumption|].
    intros k Hk. destruct (decide (i <= k)%nat) as [|Hlt]; [assumption|].
    assert (k + length seq <= length buffer)%nat as Hklen
      by (apply occursAt_lookup in Hk; tauto).
    apply matchFrom_occursAt in Hk; [|exact Hklen].
    rewrite C in Hk by lia. discriminate.
  - intros [Hi Hmin].
    assert (i + length seq <= length buffer)%nat as Hlen
      by (apply occursAt_lookup in Hi; tauto).
    destruct (searchFrom buffer seq 0 (S (length buffer) - length seq)) as [r|] eqn:E.
    + destruct (searchFrom_Some _ _ _ _ _ E) as (A & B & C).
      assert (occursAt buffer seq r) as Hr
        by (apply matchFrom_occursAt; [lia | exact B]).
      specialize (Hmin r Hr).
      destruct (decide (i = r)) as [->|]; [reflexivity|].
      apply matchFrom_occursAt in Hi; [|exact Hlen].
      rewrite C in Hi by lia. discriminate.
    + apply matchFrom_occursAt in Hi; [|exact Hlen].
      rewrite (searchFrom_None _ _ _ _ E) in Hi by lia. discriminate.
Qed.

Lemma findSequence_None (buffer seq : list byte) :
  findSequence buffer seq = None <-> forall k, ~ occursAt buffer seq k.
Proof.
  split.
  - intros H k Hk.
    assert (k + length seq <= length buffer)%nat as Hlen
      by (apply occursAt_lookup in Hk; tauto).
    apply matchFrom_occursAt in Hk; [|exact Hlen].
    unfold findSequence in H.
    rewrite (searchFrom_None _ _ _ _ H) in Hk by lia. discriminate.
  - intros H. destruct (findSequence buffer seq) as [i|] eqn:E; [|reflexivity].
    apply findSequence_Some in E. destruct (H i). tauto.
Qed.

(** X20.  [findSequence] returns the index of the first occurrence of the
    sequence in the buffer, and [-1] exactly when the sequence does not
    occur in it. *)
Theorem findSequence_first_occurrence (buffer seq : list byte) :
  match findSequence buffer seq with
  | Some i =>
      occursAt buffer seq i /\ forall k, occursAt buffer seq k -> (i <= k)%nat
  | None => forall k, ~ occursAt buffer seq k
  end.
Proof.
  destruct (findSequence buffer seq) as [i|] eqn:E.
  - apply findSequence_Some. exact E.
  - apply findSequence_None. exact E.
Qed.

Lemma occursAt_split (buffer seq : list byte) (i : nat) :
  occursAt buffer seq i ->
  buffer = take i buffer ++ seq ++ drop (i + length seq) buffer.
Proof.
  intros (pre & post & -> & <-).
  rewrite take_app_length. rewrite drop_app_add.
  rewrite drop_app_length. reflexivity.
Qed.

Lemma occursAt_app (a b seq : list byte) (i : nat) :
  occursAt a seq i -> occursAt (a ++ b) seq i.
Proof.
  intros (pre & post & -> & <-). exists pre, (post ++ b).
  rewrite <- !app_assoc. split; reflexivity.
Qed.

Lemma occursAt_app_inv (a b seq : list byte) (k : nat) :
  occursAt (a ++ b) seq k -> (k + length seq <= length a)%nat ->
  occursAt a seq k.
Proof.
  rewrite !occursAt_lookup. intros [_ H] Hlen. split; [exact Hlen|].
  intros j Hj. rewrite <- H by exact Hj. rewrite lookup_app_l by lia.
  reflexivity.
Qed.

Lemma occursAt_shift (pre a seq : list byte) (k : nat) :
  occursAt a seq k -> occursAt (pre ++ a) seq (length pre + k).
Proof.
  intros (p & q & -> & <-). exists (pre ++ p), q.
  rewrite <- app_assoc, length_app. split; reflexivity.
Qed.

Lemma findSequence_app (a b seq : list byte) (i : nat) :
  findSequence a seq = Some i -> findSequence (a ++ b) seq = Some i.
Proof.
  rewrite !findSequence_Some. intros [Hi Hmin]. split.
  - apply occursAt_app. exact Hi.
  - intros k Hk. destruct (decide (i <= k)%nat) as [|Hlt]; [assumption|].
    apply Hmin. apply (occursAt_app_inv a b); [exact Hk|].
    apply occursAt_lookup in Hi. lia.
Qed.

Lemma boundary_length : length boundary = 36%nat.
Proof. reflexivity. Qed.

Lemma headerTerminator_length : length headerTerminator = 4%nat.
Proof. reflexivity. Qed.

(** With more iterations allowed than the buffer has bytes, the loop ends
    because no boundary is left, and further fuel does not change what it
    returns. *)
Lemma extractFrames_fuel (fuel fuel' : nat) (buffer : list byte) :
  (length buffer < fuel)%nat -> (length buffer < fuel')%nat ->
  extractFrames fuel buffer = extractFrames fuel' buffer.
Proof.
  revert fuel' buffer.
  induction fuel as [|fuel IH]; intros fuel' buffer H H'; [lia|].
  destruct fuel' as [|fuel']; [lia|]. cbn [extractFrames].
  destruct (findSequence buffer boundary) as [i|] eqn:E; [|reflexivity].
  apply findSequence_Some in E. destruct E as [E _].
  apply occursAt_lookup in E. destruct E as [E _].
  rewrite boundary_length in *.
  rewrite (IH fuel'); [reflexivity| |]; rewrite length_drop; lia.
Qed.

Lemma extractFrames_rest (fuel : nat) (buffer : list byte) :
  (length buffer < fuel)%nat ->
  findSequence (snd (extractFrames fuel buffer)) boundary = None.
Proof.
  revert buffer. induction fuel as [|fuel IH]; intros buffer H; [lia|].
  cbn [extractFrames].
  destruct (findSequence buffer boundary) as [i|] eqn:E; [|exact E].
  apply findSequence_Some in E. destruct E as [E _].
  apply occursAt_lookup in E. destruct E as [E _].
  rewrite boundary_length in *.
  specialize (IH (drop (i + 36) buffer)).
  destruct (extractFrames fuel (drop (i + 36) buffer)) as [frames rest].
  cbn [snd] in *. apply IH. rewrite length_drop. lia.
Qed.

(** X21.  After a chunk has been taken in, the buffer that is kept holds
    no boundary: every complete part of the stream has been taken out,
    however many parts the chunk completed. *)
Theorem onChunk_leaves_no_boundary (buffer value : list byte) :
  forall k, ~ occursAt (snd (onChunk buffer value)) boundary k.
Proof.
  apply findSequence_None. unfold onChunk. apply extractFrames_rest. lia.
Qed.

Lemma extractFrames_app (fuel : nat) (a b : list byte) :
  (length a < fuel)%nat ->
  let first := extractFrames fuel a in
  let second := onChunk (snd first) b in
  onChunk a b = (fst first ++ fst second, snd second).
Proof.
  revert a. induction fuel as [|fuel IH]; intros a H; [lia|].
  cbn zeta. cbn [extractFrames].
  destruct (findSequence a boundary) as [i|] eqn:E.
  - pose proof (findSequence_app a b boundary i E) as E'.
    apply findSequence_Some in E. destruct E as [E _].
    apply occursAt_lookup in E. destruct E as [E _].
    rewrite boundary_length in *.
    assert (length (drop (i + 36) a) < fuel)%nat as Hd
      by (rewrite length_drop; lia).
    specialize (IH (drop (i + 36) a) Hd). cbn zeta in IH.
    unfold onChunk at 1. unfold concatUint8Arrays. cbn [extractFrames].
    rewrite E', boundary_length.
    rewrite take_app_le by lia.
    rewrite drop_app_le by lia.
    rewrite (extractFrames_fuel _ (S (length (drop (i + 36) a ++ b))))
      by (rewrite !length_app, ?length_drop; lia).
    change (extractFrames (S (length (drop (i + 36) a ++ b))) (drop (i + 36) a ++ b))
      with (onChunk (drop (i + 36) a) b).
    rewrite IH.
    destruct (extractFrames fuel (drop (i + 36) a)) as [frames rest].
    cbn [fst snd]. rewrite app_assoc. reflexivity.
  - cbn [fst snd app].
    destruct (onChunk a b) as [frames rest]. reflexivity.
Qed.

Lemma readStream_concat (chunks : list (list byte)) (buffer : list byte) :
  findSequence buffer boundary = None ->
  readStream chunks buffer = onChunk buffer (concat chunks).
Proof.
  revert buffer. induction chunks as [|value chunks IH]; intros buffer H.
  - cbn [readStream concat]. unfold onChunk, concatUint8Arrays.
    rewrite app_nil_r. cbn [extractFrames]. rewrite H. reflexivity.
  - cbn [readStream concat].
    pose proof (extractFrames_app (S (length (buffer ++ value))) (buffer ++ value)
                  (concat chunks) ltac:(lia)) as A.
    cbn zeta in A.
    change (extractFrames (S (length (buffer ++ value))) (buffer ++ value))
      with (onChunk buffer value) in A.
    assert (onChunk (buffer ++ value) (concat chunks)
            = onChunk buffer (value ++ concat chunks)) as B.
    { unfold onChunk, concatUint8Arrays. rewrite <- app_assoc. reflexivity. }
    rewrite <- B, A.
    assert (findSequence (snd (onChunk buffer value)) boundary = None) as N
      by (unfold onChunk; apply extractFrames_rest; lia).
    destruct (onChunk buffer value) as [frames rest]. cbn [fst snd] in *.
    rewrite (IH rest N).
    destruct (onChunk rest (concat chunks)) as [later rest']. reflexivity.
Qed.

(** X22.  The frames taken from a stream, and the bytes kept at its end,
    do not depend on how the stream arrives in chunks: reading the chunks
    one after the other gives what reading their concatenation as one
    chunk gives. *)
Theorem frames_independent_of_chunking (chunks : list (list byte)) :
  readStream chunks [] = onChunk [] (concat chunks).
Proof.
  apply readStream_concat. reflexivity.
Qed.

Lemma extractFrames_sound (fuel : nat) (buffer jpegData : list byte) :
  In jpegData (fst (extractFrames fuel buffer)) ->
  jpegData <> []
  /\ (forall k, ~ occursAt jpegData boundary k)
  /\ exists pre post,
       buffer = pre ++ headerTerminator ++ jpegData ++ boundary ++ post.
Proof.
  revert buffer. induction fuel as [|fuel IH]; intros buffer; cbn [extractFrames].
  - intros [].
  - destruct (findSequence buffer boundary) as [i|] eqn:E; [|intros []].
    apply findSequence_Some in E. destruct E as [E Emin].
    pose proof (occursAt_split _ _ _ E) as S.
    specialize (IH (drop (i + length boundary) buffer)).
    destruct (extractFrames fuel (drop (i + length boundary) buffer))
      as [frames rest]. cbn [fst] in *.
    intros H. apply in_app_or in H. destruct H as [H|H].
    + destruct (findSequence (take i buffer) headerTerminator) as [h|] eqn:F;
        [|destruct H].
      destruct (0 <? length (drop (h + length headerTerminator) (take i buffer)))%nat
        eqn:L; [|destruct H].
      destruct H as [<-|[]].
      apply findSequence_Some in F. destruct F as [F _].
      pose proof (occursAt_split _ _ _ F) as P.
      split; [|split].
      * intros Z. rewrite Z in L. discriminate.
      * intros k Hk.
        assert (occursAt buffer boundary (h + length headerTerminator + k)) as O.
        { rewrite S, P, <- !app_assoc.
          rewrite (app_assoc (take h (take i buffer)) headerTerminator).
          replace (h + length headerTerminator + k)%nat
            with (length (take h (take i buffer) ++ headerTerminator) + k)%nat.
          - apply occursAt_shift, occursAt_app. exact Hk.
          - rewrite length_app.
            apply occursAt_lookup in F. destruct F as [F _].
            rewrite length_take. rewrite length_take in F |- *. lia. }
        apply Emin in O.
        apply occursAt_lookup in Hk. destruct Hk as [Hk _].
        rewrite length_drop, length_take in Hk.
        rewrite boundary_length in Hk. lia.
      * exists (take h (take i buffer)), (drop (i + length boundary) buffer).
        rewrite S at 1. rewrite P at 1. rewrite <- !app_assoc. reflexivity.
    + destruct (IH H) as (A & B & pre & post & C). split; [exact A|].
      split; [exact B|].
      exists (take i buffer ++ boundary ++ pre), post.
      rewrite S at 1. rewrite C at 1. rewrite <- !app_assoc. reflexivity.
Qed.

(** X23.  Every buffer given to [processFrame] is non-empty, holds no
    boundary, and stands in the stream between a header terminator and a
    boundary. *)
Theorem processed_frames_come_from_stream (chunks : list (list byte))
        (jpegData : list byte) :
  In jpegData (fst (readStream chunks [])) ->
  jpegData <> []
  /\ (forall k, ~ occursAt jpegData boundary k)
  /\ exists pre post,
       concat chunks = pre ++ headerTerminator ++ jpegData ++ boundary ++ post.
Proof.
  rewrite readStream_concat by reflexivity. unfold onChunk, concatUint8Arrays.
  cbn [app]. apply extractFrames_sound.
Qed.

(** X24.  A part of the stream written as header, header terminator, JPEG
    bytes and boundary, in which the boundary occurs nowhere before its
    place and the header terminator nowhere before the end of the header,
    gives its JPEG bytes as the next frame, whatever follows it. *)
Theorem stream_part_round_trip (header jpegData rest : list byte) :
  jpegData <> [] ->
  (forall k, occursAt (header ++ headerTerminator ++ jpegData ++ boundary)
                      boundary k ->
             (length (header ++ headerTerminator ++ jpegData) <= k)%nat) ->
  (forall k, occursAt (header ++ headerTerminator ++ jpegData)
                      headerTerminator k ->
             (length header <= k)%nat) ->
  onChunk [] ((header ++ headerTerminator ++ jpegData ++ boundary) ++ rest)
  = (jpegData :: fst (onChunk [] rest), snd (onChunk [] rest)).
Proof.
  intros Hne Hb Ht.
  set (part := header ++ headerTerminator ++ jpegData).
  assert (findSequence (part ++ boundary) boundary = Some (length part)) as B.
  { apply findSequence_Some. split.
    - exists part, []. rewrite app_nil_r. split; reflexivity.
    - intros k Hk. apply Hb. unfold part in Hk.
      rewrite <- !app_assoc in Hk. exact Hk. }
  assert (findSequence part headerTerminator = Some (length header)) as T.
  { apply findSequence_Some. split.
    - exists header, jpegData. split; reflexivity.
    - exact Ht. }
  apply (findSequence_app _ rest) in B.
  assert (drop (length header + length headerTerminator) part = jpegData) as D.
  { unfold part. rewrite drop_app_add, drop_app_length. reflexivity. }
  assert (onChunk [] rest = extractFrames (S (length rest)) rest) as R
    by reflexivity.
  rewrite R. clear R.
  unfold onChunk, concatUint8Arrays. cbn [app].
  replace ((header ++ headerTerminator ++ jpegData ++ boundary) ++ rest)
    with ((part ++ boundary) ++ rest)
    by (unfold part; rewrite <- !app_assoc; reflexivity).
  change (extractFrames (S ?n) ?b)
    with (match findSequence b boundary with
          | None => ([], b)
          | Some boundaryIndex =>
              let part := take boundaryIndex b in
              let buffer := drop (boundaryIndex + length boundary)%nat b in
              let processed :=
                match findSequence part headerTerminator with
                | Some headerEnd =>
                    let jpegData :=
                      drop (headerEnd + length headerTerminator)%nat part in
                    if (0 <? length jpegData)%nat then [jpegData] else []
                | None => []
                end in
              let '(frames, rest) := extractFrames n buffer in
              (processed ++ frames, rest)
          end) at 1.
  rewrite B. cbv zeta.
  rewrite <- (app_assoc part boundary rest).
  rewrite take_app_length. rewrite drop_app_add, drop_app_length.
  rewrite T, D.
  destruct jpegData as [|b jpegData]; [congruence|].
  cbn [length Nat.ltb Nat.leb app].
  rewrite (extractFrames_fuel _ (S (length rest)));
    [|rewrite !length_app, boundary_length; lia|lia].
  destruct (extractFrames (S (length rest)) rest) as [frames rest'].
  reflexivity.
Qed.

Lemma stream_part_round_trip_witness :
  let header := list_byte_of_string "Content-Type: image/jpeg" in
  let jpegData := [x01; x02; x03] in
  onChunk [] ((header ++ headerTerminator ++ jpegData ++ boundary)
              ++ [x04; x05])
  = ([jpegData], [x04; x05]).
Proof.
  intros header jpegData.
  rewrite (stream_part_round_trip header jpegData [x04; x05]).
  - reflexivity.
  - discriminate.
  - apply findSequence_Some. vm_compute. reflexivity.
  - apply findSequence_Some. vm_compute. reflexivity.
Defined.

Lemma processed_frames_come_from_stream_witness :
  let header := list_byte_of_string "Content-Type: image/jpeg" in
  let jpegData := [x01; x02; x03] in
  let chunks := [header ++ headerTerminator ++ [x01];
                 [x02; x03] ++ take 20 boundary;
                 drop 20 boundary ++ [x04; x05]] in
  In jpegData (fst (readStream chunks []))
  /\ jpegData <> []
  /\ exists pre post,
       concat chunks = pre ++ headerTerminator ++ jpegData ++ boundary ++ post.
Proof.
  intros header jpegData chunks.
  assert (In jpegData (fst (readStream chunks []))) as H
    by (vm_compute; left; reflexivity).
  split; [exact H|].
  destruct (processed_frames_come_from_stream chunks jpegData H) as (A & _ & C).
  split; [exact A | exact C].
Defined.

End StreamParser.

(** ** The camera service and its handles *)

Section CameraHandles.

Import CameraService StartCameraService.

Lemma connectWithReattempt_handle (sd : Side) (ip : string) (now : Q)
      (c : ConfigState) :
  let h := connectWithReattempt sd ip now false c in
  side h = sd /\ ipPort h = ip /\ closed h = false.
Proof.
  unfold connectWithReattempt, attemptConnection. cbn.
  destruct (forcedOffline sd c); cbn; repeat split; reflexivity.
Qed.

Lemma nonEmpty_true (s : string) : nonEmpty s = true <-> s <> "".
Proof.
  unfold nonEmpty. rewrite negb_true_iff. split.
  - intros H E. apply String.eqb_neq in H. contradiction.
  - intros H. apply String.eqb_neq. exact H.
Qed.

Lemma nonEmpty_false (s : string) : nonEmpty s = false <-> s = "".
Proof.
  unfold nonEmpty. rewrite negb_false_iff. apply String.eqb_eq.
Qed.

Lemma ipDiffers_false (newIp : string) (current : option string) :
  ipDiffers newIp current = false <-> current = Some newIp.
Proof.
  destruct current as [ip|]; cbn.
  - rewrite negb_false_iff, String.eqb_eq. split; congruence.
  - split; discriminate.
Qed.

Lemma settled_coherent (sd : Side) (c : ConfigState) (s : SideState) :
  settled sd c s -> coherent sd s.
Proof.
  unfold settled, coherent. destruct (conn s) as [h|]; [|tauto].
  intros (_ & N & S & I & C & P). rewrite I. tauto.
Qed.

Lemma startSide_settled (sd : Side) (c : ConfigState) (now : Q) :
  settled sd c (startSide sd c now).
Proof.
  unfold settled, startSide. cbn [conn currentIpPort].
  destruct (nonEmpty (endpointOf sd c)) eqn:N; cbn [andb].
  - destruct (forcedOffline sd c) eqn:F; cbn [negb]; [left; reflexivity|].
    destruct (connectWithReattempt_handle sd (endpointOf sd c) now c)
      as (A & B & C).
    apply nonEmpty_true in N. repeat split; assumption.
  - right. apply nonEmpty_false. exact N.
Qed.

Lemma closeConn_released (s : SideState) (rel : list World) :
  Forall (fun h => closed h = true) rel ->
  Forall (fun h => closed h = true) (snd (closeConn s rel))
  /\ conn (fst (closeConn s rel)) = None
  /\ currentIpPort (fst (closeConn s rel)) = currentIpPort s.
Proof.
  intros H. unfold closeConn. destruct (conn s) as [h|] eqn:E; cbn.
  - repeat split. constructor; [reflexivity | exact H].
  - repeat split; assumption.
Qed.

Lemma updateSide_settled (sd : Side) (c : ConfigState) (now : Q)
      (s : SideState) (rel : list World) :
  coherent sd s ->
  Forall (fun h => closed h = true) rel ->
  settled sd c (fst (updateSide sd c now s rel))
  /\ Forall (fun h => closed h = true) (snd (updateSide sd c now s rel)).
Proof.
  intros Hs Hrel. unfold updateSide.
  destruct (connectWithReattempt_handle sd (endpointOf sd c) now c)
    as (A & B & C).
  destruct (forcedOffline sd c) eqn:F.
  - destruct (closeConn_released s rel Hrel) as (R & N & _).
    split; [|exact R]. unfold settled. rewrite N. left. exact F.
  - cbn [negb]. rewrite !andb_true_r.
    destruct (ipDiffers (endpointOf sd c) (currentIpPort s)) eqn:D.
    + destruct (closeConn_released
                  {| conn := conn s; currentIpPort := Some (endpointOf sd c) |}
                  rel Hrel) as (R & N & P).
      destruct (closeConn _ rel) as [s1 rel1]. cbn [fst snd] in *.
      destruct (nonEmpty (endpointOf sd c)) eqn:E.
      * cbn [conn bool_decide]. rewrite bool_decide_eq_true_2 by eauto.
        cbn [negb andb fst snd]. split; [|exact R].
        unfold settled. cbn [conn currentIpPort].
        apply nonEmpty_true in E. rewrite P. repeat split; assumption.
      * rewrite andb_false_r. cbn [andb fst snd]. split; [|exact R].
        unfold settled. rewrite N. right. apply nonEmpty_false. exact E.
    + apply ipDiffers_false in D. unfold coherent in Hs.
      destruct (conn s) as [h|] eqn:K.
      * rewrite bool_decide_eq_true_2 by eauto. cbn [negb andb fst snd].
        split; [|exact Hrel]. unfold settled. rewrite K.
        destruct Hs as (S1 & S2 & S3 & S4).
        assert (ipPort h = endpointOf sd c) as I by congruence.
        rewrite <- I. repeat split; try assumption.
      * rewrite bool_decide_eq_false_2 by (intros [x Hx]; discriminate).
        cbn [negb andb].
        destruct (nonEmpty (endpointOf sd c)) eqn:E; cbn [andb fst snd].
        -- split; [|exact Hrel]. unfold settled. cbn [conn currentIpPort].
           apply nonEmpty_true in E. repeat split; assumption.
        -- split; [|exact Hrel]. unfold settled. rewrite K. right.
           apply nonEmpty_false. exact E.
Qed.

Lemma subscriber_settled (c0 c : ConfigState) (now : Q) (s : Service) :
  (forall sd, settled sd c0 (sideOf sd s)) ->
  Forall (fun h => closed h = true) (released s) ->
  (forall sd, settled sd c (sideOf sd (subscriber c now s)))
  /\ Forall (fun h => closed h = true) (released (subscriber c now s)).
Proof.
  intros Hs Hrel. unfold subscriber.
  destruct (updateSide_settled leftEyeSide c now (left s) (released s)
              (settled_coherent _ c0 _ (Hs leftEyeSide)) Hrel) as [L1 L2].
  destruct (updateSide leftEyeSide c now (left s) (released s)) as [l rel].
  cbn [fst snd] in L1, L2.
  destruct (updateSide_settled rightEyeSide c now (right s) rel
              (settled_coherent _ c0 _ (Hs rightEyeSide)) L2) as [R1 R2].
  destruct (updateSide rightEyeSide c now (right s) rel) as [r rel'].
  cbn [fst snd] in R1, R2. split; [|exact R2].
  intros [|]; assumption.
Qed.

(** X25.  From its start and after every store change, the service holds
    a handle for an eye exactly when the eye is not forced offline and its
    configured endpoint is not empty; the handle is an open one made for
    this eye and the endpoint now configured, and every handle the service
    has let go of is closed. *)
Theorem handles_follow_configuration (c0 : ConfigState) (now0 : Q)
        (changes : list (ConfigState * Q)) (sd : Side) :
  let s := storeChanges changes (startCameraService c0 now0) in
  settled sd (lastConfig c0 changes) (sideOf sd s)
  /\ Forall (fun h => closed h = true) (released s).
Proof.
  cbn zeta.
  assert (forall changes c s,
             (forall sd, settled sd c (sideOf sd s)) ->
             Forall (fun h => closed h = true) (released s) ->
             (forall sd, settled sd (lastConfig c changes)
                                 (sideOf sd (storeChanges changes s)))
             /\ Forall (fun h => closed h = true)
                       (released (storeChanges changes s))) as G.
  { clear. induction changes as [|[c1 now1] changes IH]; intros c s Hs Hrel.
    - split; assumption.
    - cbn [storeChanges].
      destruct (subscriber_settled c c1 now1 s Hs Hrel) as [S1 R1].
      cbn [lastConfig]. exact (IH c1 _ S1 R1). }
  destruct (G changes c0 (startCameraService c0 now0)) as [S R].
  - intros [|]; apply startSide_settled.
  - constructor.
  - split; [apply S | exact R].
Qed.

Lemma updateSide_again (sd : Side) (c c' : ConfigState) (now now' : Q)
      (s : SideState) (rel rel' : list World) :
  endpointOf sd c' = endpointOf sd c ->
  forcedOffline sd c' = forcedOffline sd c ->
  updateSide sd c' now' (fst (updateSide sd c now s rel)) rel'
  = (fst (updateSide sd c now s rel), rel').
Proof.
  intros E F. unfold updateSide. rewrite E, F.
  destruct (forcedOffline sd c).
  - unfold closeConn. destruct (conn s) eqn:K; cbn; [reflexivity|].
    rewrite K. reflexivity.
  - cbn [negb]. rewrite !andb_true_r.
    destruct (ipDiffers (endpointOf sd c) (currentIpPort s)) eqn:D.
    + unfold closeConn. cbn [conn currentIpPort].
      destruct (conn s) eqn:K, (nonEmpty (endpointOf sd c)) eqn:N;
        cbn [fst snd conn currentIpPort negb andb bool_decide ipDiffers];
        rewrite ?String.eqb_refl; cbn [negb];
        rewrite ?bool_decide_eq_true_2 by eauto;
        rewrite ?bool_decide_eq_false_2 by (intros [x Hx]; discriminate);
        cbn [fst snd conn currentIpPort negb andb];
        rewrite ?K, ?N;
        rewrite ?bool_decide_eq_true_2 by eauto;
        rewrite ?bool_decide_eq_false_2 by (intros [x Hx]; discriminate);
        cbn [fst snd conn currentIpPort negb andb ipDiffers];
        rewrite ?String.eqb_refl; cbn [negb];
        rewrite ?bool_decide_eq_true_2 by eauto;
        rewrite ?bool_decide_eq_false_2 by (intros [x Hx]; discriminate);
        rewrite ?N; reflexivity.
    + destruct (conn s) eqn:K, (nonEmpty (endpointOf sd c)) eqn:N;
        rewrite ?bool_decide_eq_true_2 by eauto;
        rewrite ?bool_decide_eq_false_2 by (intros [x Hx]; discriminate);
        cbn [fst snd conn currentIpPort negb andb ipDiffers];
        rewrite ?D, ?K, ?N;
        rewrite ?bool_decide_eq_true_2 by eauto;
        rewrite ?bool_decide_eq_false_2 by (intros [x Hx]; discriminate);
        cbn [fst snd conn currentIpPort negb andb ipDiffers];
        rewrite ?D, ?N; try reflexivity.
Qed.

(** X26.  A store change that leaves the endpoints and the forced-offline
    switches as they were at the last call of the subscriber (a camera
    frame, a tracking result, another setting) changes nothing in the
    service: no handle is closed and none is made. *)
Theorem other_store_changes_keep_connections (c c' : ConfigState)
        (now now' : Q) (s : Service) :
  (forall sd, endpointOf sd c' = endpointOf sd c
              /\ forcedOffline sd c' = forcedOffline sd c) ->
  subscriber c' now' (subscriber c now s) = subscriber c now s.
Proof.
  intros H. unfold subscriber.
  destruct (H leftEyeSide) as [EL FL]. destruct (H rightEyeSide) as [ER FR].
  pose proof (updateSide_again leftEyeSide c c' now now' (left s) (released s)) as L.
  destruct (updateSide leftEyeSide c now (left s) (released s)) as [l rel].
  pose proof (updateSide_again rightEyeSide c c' now now' (right s) rel) as R.
  destruct (updateSide rightEyeSide c now (right s) rel) as [r rel'].
  cbn [fst snd left right released] in *.
  rewrite (L rel' EL FL). rewrite (R rel' ER FR). reflexivity.
Qed.

Lemma other_store_changes_keep_connections_witness :
  let c := cameraConfig "192.168.0.10:81" "192.168.0.11:81" false true in
  let s := startCameraService (cameraConfig "192.168.0.10:81" "" false false) 0 in
  subscriber c 500 (subscriber c 100 s) = subscriber c 100 s.
Proof.
  intros c s. apply other_store_changes_keep_connections.
  intros sd. split; reflexivity.
Defined.

End CameraHandles.

(** ** The messages of [OscSenderUtils] *)

Section OscMessages.

Import NormalizationUtils OscSenderUtils.

Lemma clamp_range (value min max : Q) :
  min <= max -> min <= clamp value min max <= max.
Proof.
  intros H. unfold clamp.
  destruct (Q.max_spec min (Qmin max value)) as [[A ->]|[A ->]];
    destruct (Q.min_spec max value) as [[B E]|[B E]];
    rewrite ?E in *; lra.
Qed.

Lemma clamp_inside (value min max : Q) :
  min <= value <= max -> clamp value min max == value.
Proof.
  intros H. unfold clamp.
  destruct (Q.max_spec min (Qmin max value)) as [[A ->]|[A ->]];
    destruct (Q.min_spec max value) as [[B E]|[B E]];
    rewrite ?E in *; lra.
Qed.

Lemma clamp_mono (a b min max : Q) :
  a <= b -> clamp a min max <= clamp b min max.
Proof.
  intros H. unfold clamp.
  destruct (Q.max_spec min (Qmin max a)) as [[A ->]|[A ->]];
    destruct (Q.max_spec min (Qmin max b)) as [[B ->]|[B ->]];
    destruct (Q.min_spec max a) as [[C E]|[C E]];
    destruct (Q.min_spec max b) as [[D F]|[D F]];
    rewrite ?E, ?F in *; lra.
Qed.

Lemma closedAmount_mono (neutralValue a b : Q) :
  0 <= neutralValue <= 1 -> a <= b ->
  closedAmount neutralValue a <= closedAmount neutralValue b.
Proof.
  intros [N0 N1] H. unfold closedAmount.
  assert (forall x, x / (1 # 4) == 4 * x) as Q4 by (intros x; field).
  assert (forall x, x / (3 # 4) == (4 # 3) * x) as Q3 by (intros x; field).
  destruct (Num.leb a (1 # 4)) eqn:A, (Num.leb b (1 # 4)) eqn:B; reflect_num;
    rewrite ?Q4, ?Q3.
  - apply scale_le; lra.
  - pose proof (scale_le neutralValue (4 * a) 1 N0 ltac:(lra)).
    pose proof (scale_le (1 - neutralValue) 0 ((4 # 3) * (b - (1 # 4)))
                  ltac:(lra) ltac:(lra)).
    lra.
  - lra.
  - pose proof (scale_le (1 - neutralValue) ((4 # 3) * (a - (1 # 4)))
                  ((4 # 3) * (b - (1 # 4))) ltac:(lra) ltac:(lra)).
    lra.
Qed.

(** X27.  For a neutral value in [0, 1], the eyes-closed amount sent in
    native mode lies in [0, 1], is 0 for openness 1, the neutral value for
    openness 0.75 and 1 for openness 0, and never grows when the openness
    grows. *)
Theorem native_closed_amount (neutralValue : Q) :
  0 <= neutralValue <= 1 ->
  (forall openness, 0 <= eyesClosedValue openness neutralValue <= 1)
  /\ eyesClosedValue 1 neutralValue == 0
  /\ eyesClosedValue (3 # 4) neutralValue == neutralValue
  /\ eyesClosedValue 0 neutralValue == 1
  /\ (forall a b, a <= b ->
                  eyesClosedValue b neutralValue <= eyesClosedValue a neutralValue).
Proof.
  intros N.
  assert (forall o, eyesClosedValue o neutralValue
                    = clamp (closedAmount neutralValue (1 - o)) 0 1) as E
    by reflexivity.
  split; [|split; [|split; [|split]]].
  - intros o. rewrite E. apply clamp_range. lra.
  - rewrite E. unfold closedAmount.
    assert (Num.leb (1 - 1) (1 # 4) = true) as -> by reflexivity.
    rewrite clamp_inside; [field|].
    assert (neutralValue * ((1 - 1) / (1 # 4)) == 0) as -> by field. lra.
  - rewrite E. unfold closedAmount.
    assert (Num.leb (1 - (3 # 4)) (1 # 4) = true) as -> by reflexivity.
    assert (neutralValue * ((1 - (3 # 4)) / (1 # 4)) == neutralValue) as Z
      by field.
    rewrite clamp_inside; [exact Z|]. rewrite Z. exact N.
  - rewrite E. unfold closedAmount.
    assert (Num.leb (1 - 0) (1 # 4) = false) as -> by reflexivity.
    assert (neutralValue
            + (1 - neutralValue) * ((1 - 0 - (1 # 4)) / (3 # 4)) == 1) as Z
      by field.
    rewrite clamp_inside; [exact Z|]. rewrite Z. lra.
  - intros a b H. rewrite !E. apply clamp_mono.
    apply closedAmount_mono; [exact N | lra].
Qed.

Lemma native_closed_amount_witness :
  eyesClosedValue (3 # 4) (1 # 4) == 1 # 4
  /\ eyesClosedValue (1 # 2) (1 # 4) <= eyesClosedValue (1 # 4) (1 # 4).
Proof.
  destruct (native_closed_amount (1 # 4)) as (_ & _ & A & _ & B); [lra|].
  split; [exact A | apply B; lra].
Defined.

Lemma scaleAndClamp_unit (value multiplier : Q) :
  -1 <= scaleAndClamp value multiplier <= 1.
Proof. apply clamp_range. lra. Qed.

Lemma negated_clamp_unit (x : Q) : -1 <= -1 * clamp x (-1) 1 <= 1.
Proof. pose proof (clamp_range x (-1) 1 ltac:(lra)). lra. Qed.

Lemma negated_max_unit : -1 <= -1 * Qmax (-1) 1 <= 1.
Proof.
  destruct (Q.max_spec (-1) 1) as [[_ E]|[_ E]]; rewrite E; lra.
Qed.

(** The value sent for the vertical axis: [NaN] when the offset fraction
    is an infinity and the vertical exaggeration is 0, and a number in
    [-1, 1] otherwise. *)
Lemma vertical_value (x p v : Q) (n : NormalizationUtils.t) :
  let y := negated (scaleOffsetAndClamp x (calculateOffsetFraction p n) v) in
  (offsetInfinite p n /\ v == 0 /\ y = NaN)
  \/ (~ (offsetInfinite p n /\ v == 0) /\ exists r, y = Real r /\ -1 <= r <= 1).
Proof.
  cbv zeta.
  unfold offsetInfinite, scaleOffsetAndClamp, calculateOffsetFraction, divide.
  destruct (Num.eqb p 0) eqn:P; reflect_num.
  - right. split; [tauto|]. eexists. split; [reflexivity|].
    apply negated_clamp_unit.
  - destruct (Num.eqb (maxPosTheta1 n + Qabs (maxNegTheta1 n)) 0) eqn:D;
      reflect_num.
    + destruct (Num.eqb (2 * p) 0) eqn:P2; reflect_num; [exfalso; lra|].
      destruct (Num.ltb 0 (2 * p)) eqn:S; cbn [minus times];
        destruct (Num.eqb v 0) eqn:V; reflect_num;
        try (left; repeat split; assumption);
        right; (split; [tauto|]);
        destruct (Num.ltb 0 v); cbn [clampFloat negated];
        eexists; (split; [reflexivity|]);
        first [apply negated_max_unit | lra].
    + right. split; [tauto|]. eexists. split; [reflexivity|].
      apply negated_clamp_unit.
Qed.

(** X28.  Every message for gaze angles in the two VRCFaceTracking modes
    is a float parameter whose value is a number in [-1, 1] or [NaN], and
    there is at least one.  All values are numbers in [-1, 1] except in
    one case, where [NaN] is sent for the vertical axis: the pitch offset
    is not 0, the vertical exaggeration is 0 and both maxima of theta1
    are 0 after the call, so that the offset fraction is an infinity. *)
Theorem vrcft_angles_in_unit_range (call : Transmission.OscCall)
        (n : NormalizationUtils.t) :
  isVrcftPitchYaw call = true ->
  let n' := fst (send call n) in
  let messages := snd (send call n) in
  messages <> []
  /\ Forall (fun m => unitParam m \/ nanParam m) messages
  /\ (Forall unitParam messages
      <-> ~ (offsetInfinite (pitchOffsetOf call) n'
             /\ verticalExaggerationOf call == 0))
  /\ ((exists m, In m messages /\ nanParam m)
      <-> offsetInfinite (pitchOffsetOf call) n'
          /\ verticalExaggerationOf call == 0).
Proof.
  intros H.
  destruct call as [e | d p v h | d p v h | o nv | d p v h | d p v h | d | o
                    | d p v h pre sp | d p v h pre sp | d pre | o pre];
    try discriminate H; clear H;
    cbn [send pitchOffsetOf verticalExaggerationOf];
    unfold sendVrcftV1IndependentPitchYaw, sendVrcftV1CombinedPitchYaw,
      sendVrcftV2IndependentPitchYaw, sendVrcftV2CombinedPitchYaw;
    repeat match goal with
           | |- context [normalizeTheta1 ?a ?b] =>
               destruct (normalizeTheta1 a b) as [? ?]
           | |- context [normalizeTheta2 ?a ?b] =>
               destruct (normalizeTheta2 a b) as [? ?]
           end;
    cbv zeta; try destruct sp; cbn [fst snd];
    repeat match goal with
           | |- context [negated (scaleOffsetAndClamp ?x
                                    (calculateOffsetFraction ?q ?m) ?w)] =>
               let Y := fresh "Y" in
               destruct (vertical_value x q w m)
                 as [(? & ? & Y)|(? & ? & Y & ?)];
               cbv zeta in Y; rewrite Y; clear Y
           end;
    repeat match goal with
           | |- context [Real (scaleAndClamp ?x ?w)] =>
               pose proof (scaleAndClamp_unit x w);
               generalize dependent (scaleAndClamp x w); intros
           end;
    (split; [discriminate|]);
    rewrite !Forall_cons_iff;
    cbn [unitParam nanParam];
    (split; [|split]);
    try (split; intros);
    repeat match goal with
           | H : exists _, _ |- _ => destruct H as (? & ? & ?)
           | H : In _ [] |- _ => destruct H
           | H : In _ (_ :: _) |- _ => destruct H as [<-|H]
           | H : nanParam _ |- _ => cbn [nanParam] in H
           | H : False |- _ => destruct H
           end;
    try tauto;
    try (repeat split; try apply Forall_nil; tauto);
    match goal with
    | |- exists m, In m ?l /\ nanParam m =>
        match l with
        | context [sendOscFloatParam ?a NaN] =>
            exists (sendOscFloatParam a NaN);
            split; [cbn [In]; tauto | exact I]
        end
    end.
Qed.

End OscMessages.

(** ** The address prefix of VRCFaceTracking V2 *)

Section AddressPrefix.

Import OscSenderUtils.

Local Open Scope string_scope.

Lemma stripTrailingSlashes_slash (s : string) :
  stripTrailingSlashes (s ++ "/") = stripTrailingSlashes s.
Proof.
  induction s as [|c s IH]; [reflexivity|].
  change (String c s ++ "/") with (String c (s ++ "/")).
  cbn [stripTrailingSlashes]. rewrite IH. reflexivity.
Qed.

Lemma stripLeadingSlashes_slash (s : string) :
  (stripLeadingSlashes s = "" /\ stripLeadingSlashes (s ++ "/") = "")
  \/ stripLeadingSlashes (s ++ "/") = stripLeadingSlashes s ++ "/".
Proof.
  induction s as [|c s IH]; [left; split; reflexivity|].
  change (String c s ++ "/") with (String c (s ++ "/")).
  cbn [stripLeadingSlashes].
  destruct (isSlash c); [exact IH | right; reflexivity].
Qed.

Lemma stripLeadingSlashes_start (s : string) :
  startsWithSlash (stripLeadingSlashes s) = false.
Proof.
  induction s as [|c s IH]; [reflexivity|]. cbn [stripLeadingSlashes].
  destruct (isSlash c) eqn:E; [exact IH | exact E].
Qed.

Lemma stripTrailingSlashes_start (s : string) :
  startsWithSlash s = false -> startsWithSlash (stripTrailingSlashes s) = false.
Proof.
  destruct s as [|c s]; [reflexivity|]. cbn [startsWithSlash stripTrailingSlashes].
  intros H. rewrite H. destruct (stripTrailingSlashes s); exact H.
Qed.

Lemma stripTrailingSlashes_end (s : string) :
  endsWithSlash (stripTrailingSlashes s) = false.
Proof.
  induction s as [|c s IH]; [reflexivity|]. cbn [stripTrailingSlashes].
  destruct (stripTrailingSlashes s) as [|c' r] eqn:E.
  - destruct (isSlash c) eqn:F; [reflexivity | exact F].
  - exact IH.
Qed.

(** X29.  Slashes around the configured prefix do not change the address
    prefix, and the configured prefix enters the address without a slash
    at either end, so that no address holds two slashes in a row where
    the parts meet. *)
Theorem prefix_ignores_outer_slashes (oscPrefix : string) :
  getVrcftV2Prefix ("/" ++ oscPrefix) = getVrcftV2Prefix oscPrefix
  /\ getVrcftV2Prefix (oscPrefix ++ "/") = getVrcftV2Prefix oscPrefix
  /\ startsWithSlash (strippedPrefix oscPrefix) = false
  /\ endsWithSlash (strippedPrefix oscPrefix) = false
  /\ getVrcftV2Prefix oscPrefix
     = (if String.eqb (strippedPrefix oscPrefix) ""
        then "/avatar/parameters/v2/"
        else "/avatar/parameters/" ++ strippedPrefix oscPrefix ++ "/v2/").
Proof.
  split; [reflexivity|]. split; [|split; [|split]].
  - unfold getVrcftV2Prefix.
    destruct (stripLeadingSlashes_slash oscPrefix) as [[A B]|A].
    + rewrite A, B. reflexivity.
    + rewrite A, stripTrailingSlashes_slash. reflexivity.
  - apply stripTrailingSlashes_start, stripLeadingSlashes_start.
  - apply stripTrailingSlashes_end.
  - reflexivity.
Qed.

End AddressPrefix.

Lemma vrcft_angles_in_unit_range_witness :
  Forall OscSenderUtils.unitParam
         (snd (OscSenderUtils.send
                 (Transmission.sendVrcftV2CombinedPitchYaw
                    {| c_theta1 := 10; c_theta2 := -5 |} 2 3 1 "ft/f/" false)
                 NormalizationUtils.initial))
  /\ ~ Forall OscSenderUtils.unitParam
         (snd (OscSenderUtils.send
                 (Transmission.sendVrcftV1CombinedPitchYaw
                    {| c_theta1 := 0; c_theta2 := -5 |} 2 0 1)
                 NormalizationUtils.initial)).
Proof.
  split.
  - destruct (vrcft_angles_in_unit_range
                (Transmission.sendVrcftV2CombinedPitchYaw
                   {| c_theta1 := 10; c_theta2 := -5 |} 2 3 1 "ft/f/" false)
                NormalizationUtils.initial eq_refl) as (_ & _ & A & _).
    apply A. intros [_ V]. vm_compute in V. discriminate.
  - destruct (vrcft_angles_in_unit_range
                (Transmission.sendVrcftV1CombinedPitchYaw
                   {| c_theta1 := 0; c_theta2 := -5 |} 2 0 1)
                NormalizationUtils.initial eq_refl) as (_ & _ & A & _).
    intros F. apply A in F. apply F. split; [split|].
    + vm_compute. discriminate.
    + reflexivity.
    + reflexivity.
Defined.

(** ** The predictions of a pass *)

Section Predictions.

Import TrackingPrediction.

(** X30.  In a pass that processes frames the theta model of a channel is
    run exactly when the frames of the channel are valid and, for the
    model of one eye, independent eyes is on or the other frame is not
    valid.  The trust it is given is what the openness model of the same
    channel returned in this pass when eyelid-based gaze trust is on and
    that model was run, and 0.75 in every other case.  The openness model
    of a channel is run under the same condition with the
    independent-openness switch, except that the combined openness model
    is not run when that switch is on. *)
Theorem theta_trust_sources (c : ConfigState) (validLeft validRight : bool)
        (prediction : Channel.t -> Q) (ch : Channel.t) (trust : Q) :
  let runs := fst (predictions c validLeft validRight prediction) in
  (In (ch, trust) (snd (predictions c validLeft validRight prediction))
   <-> modelRuns (independentEyes c) ch validLeft validRight = true
       /\ trust = (if eyelidBasedGazeTrust c && ran ch runs
                   then prediction ch else 3 # 4))
  /\ ran ch runs
     = modelRuns (independentOpenness c) ch validLeft validRight
       && negb (independentOpenness c && sameChannel ch Channel.Combined).
Proof.
  unfold predictions, opennessPredictions, overrideTrusts, thetaPredictions.
  destruct (independentOpenness c), (eyelidBasedGazeTrust c),
    (independentEyes c), validLeft, validRight, ch;
    cbn; (split; [split|reflexivity]).
  all: try (intros H;
            repeat match type of H with
                   | _ \/ _ => destruct H as [H|H]
                   | False => destruct H
                   | (_, _) = (_, _) => first [discriminate H | injection H as <-]
                   end;
            split; reflexivity).
  all: intros [H ->]; try discriminate H; cbn; auto.
Qed.

(** Independent eyes with combined openness and eyelid-based gaze trust
    on, both frames valid: the combined theta model is given what the
    combined openness model returned, the theta model of the left eye
    0.75. *)
Lemma theta_trust_sources_witness :
  let c := transmissionConfig false false true true false true in
  let prediction := fun ch : Channel.t => 1 # 10 in
  In (Channel.Combined, 1 # 10) (snd (predictions c true true prediction))
  /\ In (Channel.Left, 3 # 4) (snd (predictions c true true prediction))
  /\ ~ In (Channel.Left, 1 # 10) (snd (predictions c true true prediction)).
Proof.
  intros c prediction. split; [|split].
  - apply (theta_trust_sources c true true prediction Channel.Combined (1 # 10)).
    split; reflexivity.
  - apply (theta_trust_sources c true true prediction Channel.Left (3 # 4)).
    split; reflexivity.
  - intros H.
    apply (theta_trust_sources c true true prediction Channel.Left (1 # 10)) in H.
    destruct H as [_ H]. discriminate H.
Defined.

End Predictions.
